(** * KHQR payload generator: TLV codec, CRC-16/CCITT-FALSE, assembly and
      verification

    A shallow embedding of the TypeScript module (class [KHQRGenerator] and
    the helpers [verifyCrc], [decodeTlv], [tlv], [truncUtf8],
    [crc16CcittFalseHex], [normalizeAmount]) together with the properties
    the specification states about it.

    JavaScript strings are sequences of UTF-16 code units; they are modelled
    as lists of integers.  [String.prototype.length], [slice] and
    [lastIndexOf] count code units, [Buffer.byteLength(s, "utf8")] counts the
    bytes of the UTF-8 encoding, and [for (const ch of s)] walks code points:
    the three views are kept apart, as in the source. *)

From Stdlib Require Import ZArith List Bool Lia String Ascii.
From stdpp Require Import base option list gmap.

Local Open Scope Z_scope.

(** ** JavaScript strings *)

Module JS.

(** A string is the list of its UTF-16 code units. *)
Abbreviation jsstring := (list Z).

(** An ASCII literal as a JavaScript string. *)
Fixpoint js (s : String.string) : jsstring :=
  match s with
  | EmptyString => []
  | String a s' => Z.of_N (N_of_ascii a) :: js s'
  end.
Arguments js _%_string.

Definition eqb (a b : jsstring) : bool := bool_decide (a = b).

Definition isDigit (u : Z) : bool := (48 <=? u) && (u <=? 57).

Definition isHighSurrogate (u : Z) : bool := (0xD800 <=? u) && (u <=? 0xDBFF).
Definition isLowSurrogate (u : Z) : bool := (0xDC00 <=? u) && (u <=? 0xDFFF).

(** UTF-8 bytes of one code point. *)
Definition utf8OfCodePoint (cp : Z) : list Z :=
  if cp <? 0x80 then [cp]
  else if cp <? 0x800 then
    [Z.lor 0xC0 (Z.shiftr cp 6); Z.lor 0x80 (Z.land cp 0x3F)]
  else if cp <? 0x10000 then
    [Z.lor 0xE0 (Z.shiftr cp 12);
     Z.lor 0x80 (Z.land (Z.shiftr cp 6) 0x3F);
     Z.lor 0x80 (Z.land cp 0x3F)]
  else
    [Z.lor 0xF0 (Z.shiftr cp 18);
     Z.lor 0x80 (Z.land (Z.shiftr cp 12) 0x3F);
     Z.lor 0x80 (Z.land (Z.shiftr cp 6) 0x3F);
     Z.lor 0x80 (Z.land cp 0x3F)].

(** U+FFFD, which replaces a surrogate that has no partner. *)
Definition replacementBytes : list Z := [0xEF; 0xBF; 0xBD].

(** [Buffer.from(s, "utf8")]: a high surrogate followed by a low one is one
    supplementary code point (four bytes); any other surrogate is encoded as
    U+FFFD. *)
Fixpoint utf8Encode (s : jsstring) : list Z :=
  match s with
  | [] => []
  | u :: tl =>
      if isHighSurrogate u then
        match tl with
        | l :: rest =>
            if isLowSurrogate l
            then utf8OfCodePoint (0x10000 + (u - 0xD800) * 0x400 + (l - 0xDC00))
                   ++ utf8Encode rest
            else replacementBytes ++ utf8Encode tl
        | [] => replacementBytes
        end
      else if isLowSurrogate u then replacementBytes ++ utf8Encode tl
      else utf8OfCodePoint u ++ utf8Encode tl
  end.

(** The items of the string iterator ([for (const ch of s)]): a surrogate
    pair is one item of two code units, every other code unit is an item of
    its own. *)
Fixpoint codePoints (s : jsstring) : list jsstring :=
  match s with
  | [] => []
  | u :: tl =>
      match tl with
      | l :: rest =>
          if isHighSurrogate u && isLowSurrogate l
          then [u; l] :: codePoints rest
          else [u] :: codePoints tl
      | [] => [[u]]
      end
  end.

(** [s.slice(start, end)], negative indices counting from the end and both
    ends clamped to the string. *)
Definition slice (s : jsstring) (start end_ : Z) : jsstring :=
  let len := Z.of_nat (length s) in
  let from := if start <? 0 then Z.max (len + start) 0 else Z.min start len in
  let to := if end_ <? 0 then Z.max (len + end_) 0 else Z.min end_ len in
  take (Z.to_nat (to - from)) (drop (Z.to_nat from) s).

Fixpoint startsWith (s needle : jsstring) : bool :=
  match needle, s with
  | [], _ => true
  | _ :: _, [] => false
  | n :: needle', u :: s' => (u =? n) && startsWith s' needle'
  end.

Fixpoint lastIndexOf_from (s needle : jsstring) (k : nat) : Z :=
  match k with
  | O => if startsWith s needle then 0 else -1
  | S k' =>
      if startsWith (drop k s) needle then Z.of_nat k
      else lastIndexOf_from s needle k'
  end.

(** [s.lastIndexOf(needle)]: the greatest index at which [needle] occurs,
    or -1. *)
Definition lastIndexOf (s needle : jsstring) : Z :=
  if (length s <? length needle)%nat then -1
  else lastIndexOf_from s needle (length s - length needle).

Fixpoint includes (s needle : jsstring) : bool :=
  startsWith s needle ||
  match s with
  | [] => false
  | _ :: s' => includes s' needle
  end.

(** [s.padStart(n, fill)] for a one-character [fill]. *)
Definition padStart (s : jsstring) (n : nat) (fill : Z) : jsstring :=
  replicate (n - length s) fill ++ s.

(** [s.toUpperCase()], as far as the module can observe it.  The source
    compares upper-cased text with ASCII words only (the four hexadecimal
    digits of a checksum, "KHR", "USD").  The ASCII letters and the long s
    (U+017F, upper case S) are mapped; every other code unit is left as it
    is.  The code units left out upper-case either to no character of those
    words or to more than one character (U+00DF, the ligatures U+FB00 to
    U+FB06), which makes the text longer than the word it is compared with,
    so no comparison of the source changes its outcome. *)
Definition upperUnit (u : Z) : Z :=
  if (97 <=? u) && (u <=? 122) then u - 32
  else if u =? 0x17F then 83
  else u.
Definition toUpperCase (s : jsstring) : jsstring := map upperUnit s.

(** Digits of a non-negative integer in a radix up to 16, lower case. *)
Definition digitUnit (d : Z) : Z := if d <? 10 then 48 + d else 87 + d.

Fixpoint digitsRadix (fuel : nat) (radix n : Z) : jsstring :=
  match fuel with
  | O => []
  | S f =>
      if n <? radix then [digitUnit n]
      else digitsRadix f radix (n / radix) ++ [digitUnit (n mod radix)]
  end.

(** [n.toString(radix)] / [String(n)] for an integer [n] (below 10^21 in
    absolute value for radix 10, the range in which JavaScript prints all
    digits).  The number of binary digits bounds the number of digits in
    any radix, and is used as the recursion bound. *)
Definition intToString (radix n : Z) : jsstring :=
  if n <? 0 then 45 :: digitsRadix (S (Z.to_nat (Z.log2 (- n)))) radix (- n)
  else digitsRadix (S (Z.to_nat (Z.log2 n))) radix n.

(** White space and line terminators removed by [trim]. *)
Definition isWhiteSpace (u : Z) : bool :=
  bool_decide (u ∈ [0x9; 0xA; 0xB; 0xC; 0xD; 0x20; 0xA0; 0x1680; 0x2028;
                    0x2029; 0x202F; 0x205F; 0x3000; 0xFEFF])
  || ((0x2000 <=? u) && (u <=? 0x200A)).

Fixpoint trimStart (s : jsstring) : jsstring :=
  match s with
  | u :: s' => if isWhiteSpace u then trimStart s' else s
  | [] => []
  end.

Definition trim (s : jsstring) : jsstring :=
  rev (trimStart (rev (trimStart s))).

End JS.
Import JS.

(** ** Helpers of the module *)

(** [utf8ByteLength]: [Buffer.byteLength(s, "utf8")]. *)
Definition utf8ByteLength (s : jsstring) : Z := Z.of_nat (length (utf8Encode s)).

Fixpoint truncUtf8_loop (chs : list jsstring) (maxBytes : Z) (out : jsstring)
  : jsstring :=
  match chs with
  | [] => out
  | ch :: chs' =>
      let next := out ++ ch in
      if maxBytes <? utf8ByteLength next then out
      else truncUtf8_loop chs' maxBytes next
  end.

Definition truncUtf8 (s : jsstring) (maxBytes : Z) : jsstring :=
  if utf8ByteLength s <=? maxBytes then s
  else truncUtf8_loop (codePoints s) maxBytes [].

(** The 8 shift rounds applied for one byte. *)
Definition crc16_round (crc : Z) : Z :=
  Z.land
    (if Z.land crc 0x8000 =? 0 then Z.shiftl crc 1
     else Z.lxor (Z.shiftl crc 1) 0x1021)
    0xffff.

Definition crc16_byte (crc b : Z) : Z :=
  Nat.iter 8 crc16_round (Z.lxor crc (Z.shiftl (Z.land b 0xff) 8)).

(** The register after all bytes, starting from 0xFFFF. *)
Definition crc16 (bytes : list Z) : Z := fold_left crc16_byte bytes 0xffff.

Definition crc16CcittFalseHex (input : jsstring) : jsstring :=
  padStart (toUpperCase (intToString 16 (crc16 (utf8Encode input)))) 4 48.


(** ** Numbers

    [Number(s)] and [n.toFixed(2)] work on IEEE-754 doubles.  A finite
    double is kept exactly, as a significand and a binary exponent; all
    roundings are computed on integers. *)

Module Num.

Inductive Number :=
| NaN
| Inf (negative : bool)
| Fin (negative : bool) (m e : Z).   (* (-1)^negative * m * 2^e, 0 <= m *)

(** [m * 2^e] as a fraction. *)
Definition fraction (m e : Z) : Z * Z :=
  if 0 <=? e then (m * 2 ^ e, 1) else (m, 2 ^ (- e)).

(** The double nearest to the non-negative rational [p / q] (ties to the
    even significand), with gradual underflow below 2^-1022 and overflow to
    +Infinity. *)
Definition roundToDouble (p q : Z) : Number :=
  if p =? 0 then Fin false 0 0
  else
    let l := Z.log2 p - Z.log2 q in
    let ge := if 0 <=? l then q * 2 ^ l <=? p else q <=? p * 2 ^ (- l) in
    let e0 := if ge then l else l - 1 in          (* floor (log2 (p/q)) *)
    let ex := Z.max (e0 - 52) (-1074) in
    let '(num, den) := if 0 <=? ex then (p, q * 2 ^ ex) else (p * 2 ^ (- ex), q) in
    let fl := num / den in
    let r := num mod den in
    let m := if 2 * r <? den then fl
             else if den <? 2 * r then fl + 1
             else if Z.even fl then fl else fl + 1 in
    let '(m', ex') := if m =? 2 ^ 53 then (2 ^ 52, ex + 1) else (m, ex) in
    if 971 <? ex' then Inf false else Fin false m' ex'.

(** Equality of values, whatever the representation. *)
Definition sameValue (x y : Number) : bool :=
  match x, y with
  | Fin n1 m1 e1, Fin n2 m2 e2 =>
      let '(p1, q1) := fraction m1 e1 in
      let '(p2, q2) := fraction m2 e2 in
      (p1 * q2 =? p2 * q1) && ((p1 =? 0) || Bool.eqb n1 n2)
  | Inf n1, Inf n2 => Bool.eqb n1 n2
  | _, _ => false
  end.

Definition isFinite (x : Number) : bool :=
  match x with Fin _ _ _ => true | _ => false end.

(** [x < 0]. *)
Definition isNegative (x : Number) : bool :=
  match x with
  | Fin true m _ => 0 <? m
  | Inf true => true
  | _ => false
  end.

(** [10^21 <= |x|] for a finite [x]. *)
Definition atLeast1e21 (m e : Z) : bool :=
  let '(p, q) := fraction m e in 10 ^ 21 * q <=? p.

Fixpoint spanDigits (s : jsstring) : jsstring * jsstring :=
  match s with
  | u :: s' =>
      if isDigit u then let '(ds, r) := spanDigits s' in (u :: ds, r)
      else ([], s)
  | [] => ([], [])
  end.

Definition digitsValue (ds : jsstring) : Z :=
  fold_left (fun acc d => 10 * acc + (d - 48)) ds 0.

(** A decimal literal [digits [. digits] [e [+|-] digits]] as a mantissa
    and a power of ten. *)
Definition parseDecimal (s : jsstring) : option (Z * Z) :=
  let '(ip, r1) := spanDigits s in
  match ip with
  | [] => None
  | _ :: _ =>
      let '(fp, r2) :=
        match r1 with
        | c :: r => if c =? 46 then spanDigits r else ([], r1)
        | [] => ([], r1)
        end in
      let mant := digitsValue (ip ++ fp) in
      let shift := Z.of_nat (length fp) in
      match r2 with
      | [] => Some (mant, - shift)
      | c :: r3 =>
          if (c =? 101) || (c =? 69) then
            let '(neg, r4) :=
              match r3 with
              | c' :: r => if c' =? 45 then (true, r)
                           else if c' =? 43 then (false, r)
                           else (false, r3)
              | [] => (false, r3)
              end in
            let '(ed, r5) := spanDigits r4 in
            match ed, r5 with
            | _ :: _, [] =>
                Some (mant, (if neg then - digitsValue ed else digitsValue ed) - shift)
            | _, _ => None
            end
          else None
      end
  end.

(** [Number(s)] on unsigned decimal literals, the only texts the module
    converts (a text accepted by the amount pattern, or [String(v)] of a
    finite non-negative number); white space, signs, "Infinity" and
    hexadecimal forms are not covered. *)
Definition ofString (s : jsstring) : Number :=
  match parseDecimal s with
  | Some (p, ex) =>
      if 0 <=? ex then roundToDouble (p * 10 ^ ex) 1
      else roundToDouble p (10 ^ (- ex))
  | None => NaN
  end.

Definition decimal (n : Z) : jsstring := intToString 10 n.

Fixpoint leadingZeros (fuel : nat) (p q : Z) : Z :=
  match fuel with
  | O => 0
  | S f => if p * 10 <? q then 1 + leadingZeros f (p * 10) q else 0
  end.

(** The [n] with [10^(n-1) <= p/q < 10^n]. *)
Definition decimalExponent (p q : Z) : Z :=
  if q <=? p then Z.of_nat (length (decimal (p / q)))
  else - leadingZeros 400 p q.

(** The shortest digit string [s] (of [k] digits, [k] counted up from the
    argument) for which [s * 10^(n-k)] rounds back to [x]; of two
    candidates the one nearer to the value, then the even one. *)
Fixpoint shortest (fuel : nat) (k : Z) (x : Number) (p q n : Z) : Z * Z * Z :=
  match fuel with
  | O => (0, k, n)
  | S f =>
      let sh := n - k in
      let '(num, den) := if 0 <=? sh then (p, q * 10 ^ sh) else (p * 10 ^ (- sh), q) in
      let lo := num / den in
      let r := num mod den in
      let hi := lo + 1 in
      let back s := if 0 <=? sh then roundToDouble (s * 10 ^ sh) 1
                    else roundToDouble s (10 ^ (- sh)) in
      let okLo := sameValue (back lo) x && (10 ^ (k - 1) <=? lo) in
      let okHi := sameValue (back hi) x in
      let pick s := if s =? 10 ^ k then (1, 1, n + 1) else (s, k, n) in
      if okLo && okHi then
        if 2 * r <? den then pick lo
        else if den <? 2 * r then pick hi
        else if Z.even lo then pick lo else pick hi
      else if okLo then pick lo
      else if okHi then pick hi
      else shortest f (k + 1) x p q n
  end.

Definition zeros (n : Z) : jsstring := replicate (Z.to_nat n) 48.

(** [Number::toString] of a positive finite value [m * 2^e]. *)
Definition positiveToString (m e : Z) : jsstring :=
  let '(p, q) := fraction m e in
  let '(s, k, n) := shortest 17 1 (Fin false m e) p q (decimalExponent p q) in
  let ds := decimal s in
  if (-5 <=? n) && (n <=? 21) then
    if k <=? n then ds ++ zeros (n - k)
    else if 0 <? n then take (Z.to_nat n) ds ++ [46] ++ drop (Z.to_nat n) ds
    else js "0." ++ zeros (- n) ++ ds
  else
    let ex := n - 1 in
    let tail := (js "e" ++ (if 0 <=? ex then js "+" else js "-")) ++ decimal (Z.abs ex) in
    if k =? 1 then ds ++ tail
    else take 1 ds ++ [46] ++ drop 1 ds ++ tail.

(** [String(x)]. *)
Definition toString (x : Number) : jsstring :=
  match x with
  | NaN => js "NaN"
  | Inf neg => if neg then js "-Infinity" else js "Infinity"
  | Fin neg m e =>
      if m =? 0 then js "0"
      else (if neg then js "-" else []) ++ positiveToString m e
  end.

(** [x.toFixed(2)]: below 10^21 the integer [n] nearest to [100 * x] (the
    larger one of two), printed with a point before its last two digits;
    from 10^21 on, and for values that are not finite, [String(x)]. *)
Definition toFixed2 (x : Number) : jsstring :=
  match x with
  | Fin neg m e =>
      let sign := if neg && (0 <? m) then js "-" else [] in
      if atLeast1e21 m e then sign ++ positiveToString m e
      else
        let '(p, q) := fraction m e in
        let fl := (p * 100) / q in
        let r := (p * 100) mod q in
        let n := if 2 * r <? q then fl else fl + 1 in
        let ms := if n =? 0 then js "0" else decimal n in
        let ms := padStart ms 3 48 in
        let k := length ms in
        sign ++ take (k - 2) ms ++ [46] ++ drop (k - 2) ms
  | _ => toString x
  end.

End Num.

(** ** Errors

    Every [throw new Error(...)] of the module, by what it reports:
    - [MissingRequiredField BakongAccountID]: "BakongAccountID is required";
    - [MissingRequiredField MerchantName]: "MerchantName is required";
    - [MissingRequiredField MerchantID]: "MerchantID is required for merchant type";
    - [MissingRequiredField AcquiringBank]: "AcquiringBank is required for merchant type";
    - [InvalidTag tag]: "Invalid tag: <tag>";
    - [ValueTooLong tag len]: "TLV value too long for tag <tag>: <len>";
    - [InvalidCurrency]: "currency must be KHR or USD";
    - [InvalidAmount why]: "Amount must be numeric", "Amount must be finite",
      "Amount must be >= 0". *)

Inductive RequiredField := BakongAccountID | MerchantName | MerchantID | AcquiringBank.

Inductive AmountError := NotNumeric | NotFinite | Negative.

Inductive Error :=
| MissingRequiredField (field : RequiredField)
| InvalidTag (tag : jsstring)
| ValueTooLong (tag : jsstring) (len : Z)
| InvalidCurrency
| InvalidAmount (why : AmountError).

Inductive result (A : Type) :=
| Ok (a : A)
| Err (e : Error).
Arguments Ok {A} a.
Arguments Err {A} e.

Definition bind {A B} (r : result A) (k : A -> result B) : result B :=
  match r with
  | Ok a => k a
  | Err e => Err e
  end.

Notation "x <- r ;; k" := (bind r (fun x => k))
  (at level 100, r at next level, right associativity, only parsing).

(** [acc += r]: the text is extended unless computing [r] threw. *)
Definition plusEq (acc : jsstring) (r : result jsstring) : result jsstring :=
  f <- r ;; Ok (acc ++ f).

(** ** TLV encoding *)

(** [/^\d{2}$/.test(s)]. *)
Definition test_d2 (s : jsstring) : bool :=
  match s with
  | [a; b] => isDigit a && isDigit b
  | _ => false
  end.

Definition tlv (tag value : jsstring) : result jsstring :=
  if negb (test_d2 tag) then Err (InvalidTag tag)
  else
    let len := utf8ByteLength value in
    if 99 <? len then Err (ValueTooLong tag len)
    else Ok (tag ++ padStart (intToString 10 len) 2 48 ++ value).

(** ** Amounts *)

Inductive Currency := KHR | USD.

(** [/^\d+(\.\d+)?$/.test(s)]. *)
Definition isNumericText (s : jsstring) : bool :=
  let '(ip, r) := Num.spanDigits s in
  match ip, r with
  | [], _ => false
  | _ :: _, [] => true
  | _ :: _, c :: f =>
      (c =? 46) && match f with [] => false | _ :: _ => forallb isDigit f end
  end.

Fixpoint dropZeros (s : jsstring) : jsstring :=
  match s with
  | u :: s' => if u =? 48 then dropZeros s' else s
  | [] => []
  end.

(** [s.replace(/0+$/, e)] with [e] the empty string. *)
Definition stripTrailingZeros (s : jsstring) : jsstring :=
  rev (dropZeros (rev s)).

(** [s.replace(/\.$/, e)] with [e] the empty string. *)
Definition stripTrailingDot (s : jsstring) : jsstring :=
  match rev s with
  | c :: r => if c =? 46 then rev r else s
  | [] => s
  end.

Definition normalizeAmountString (s : jsstring) (currency : Currency) : jsstring :=
  match currency with
  | USD => Num.toFixed2 (Num.ofString s)
  | KHR =>
      if negb (includes s (js ".")) then s
      else
        let s := stripTrailingDot (stripTrailingZeros s) in
        match s with [] => js "0" | _ :: _ => s end
  end.

(** The argument of [setAmount]: [number | string]. *)
Inductive AmountArg :=
| AmountText (s : jsstring)
| AmountNumber (x : Num.Number).

Definition normalizeAmount (v : AmountArg) (currency : Currency) : result jsstring :=
  match v with
  | AmountText v =>
      let s := trim v in
      if negb (isNumericText s) then Err (InvalidAmount NotNumeric)
      else Ok (normalizeAmountString s currency)
  | AmountNumber v =>
      if negb (Num.isFinite v) then Err (InvalidAmount NotFinite)
      else if Num.isNegative v then Err (InvalidAmount Negative)
      else Ok (normalizeAmountString (Num.toString v) currency)
  end.

(** ** The builder *)

Inductive MerchantType := individual | merchant.

(** The digest of the result is kept symbolic: the MD5 of these bytes. *)
Inductive HexDigest := Md5Hex (bytes : list Z).

Record GenerateResult := {
  qr : jsstring;
  timestamp : option jsstring;
  type : MerchantType;
  md5 : HexDigest
}.

(** The private fields of [KHQRGenerator]; an optional field that was never
    set is [None]. *)
Record KHQRGenerator := {
  merchantType : MerchantType;
  bakongAccountId : option jsstring;
  merchantName : option jsstring;
  merchantId : option jsstring;
  acquiringBank : option jsstring;
  accountInformation : option jsstring;
  merchantCity : jsstring;
  currency : Currency;
  amount : option jsstring;
  billNumber : option jsstring;
  mobileNumber : option jsstring;
  storeLabel : option jsstring;
  terminalLabel : option jsstring;
  purposeOfTransaction : option jsstring;
  upiAccountInformation : option jsstring;
  merchantAlternateLanguagePreference : option jsstring;
  merchantNameAlternateLanguage : option jsstring;
  merchantCityAlternateLanguage : option jsstring;
  isStatic : bool
}.

(** [new KHQRGenerator(merchantType)]. *)
Definition new (t : MerchantType) : KHQRGenerator := {|
  merchantType := t;
  bakongAccountId := None; merchantName := None; merchantId := None;
  acquiringBank := None; accountInformation := None;
  merchantCity := js "Phnom Penh"; currency := KHR; amount := None;
  billNumber := None; mobileNumber := None; storeLabel := None;
  terminalLabel := None; purposeOfTransaction := None;
  upiAccountInformation := None;
  merchantAlternateLanguagePreference := None;
  merchantNameAlternateLanguage := None;
  merchantCityAlternateLanguage := None;
  isStatic := false
|}.

Definition setStatic (v : bool) (g : KHQRGenerator) : KHQRGenerator :=
  let '(Build_KHQRGenerator t a n i b f c u m bn mn sl tl p up lp na ca _) := g in
  Build_KHQRGenerator t a n i b f c u m bn mn sl tl p up lp na ca v.

Definition setBakongAccountId (v : jsstring) (g : KHQRGenerator) : KHQRGenerator :=
  let '(Build_KHQRGenerator t _ n i b f c u m bn mn sl tl p up lp na ca st) := g in
  Build_KHQRGenerator t (Some v) n i b f c u m bn mn sl tl p up lp na ca st.

Definition setMerchantName (v : jsstring) (g : KHQRGenerator) : KHQRGenerator :=
  let '(Build_KHQRGenerator t a _ i b f c u m bn mn sl tl p up lp na ca st) := g in
  Build_KHQRGenerator t a (Some v) i b f c u m bn mn sl tl p up lp na ca st.

Definition setMerchantId (v : jsstring) (g : KHQRGenerator) : KHQRGenerator :=
  let '(Build_KHQRGenerator t a n _ b f c u m bn mn sl tl p up lp na ca st) := g in
  Build_KHQRGenerator t a n (Some v) b f c u m bn mn sl tl p up lp na ca st.

Definition setAcquiringBank (v : jsstring) (g : KHQRGenerator) : KHQRGenerator :=
  let '(Build_KHQRGenerator t a n i _ f c u m bn mn sl tl p up lp na ca st) := g in
  Build_KHQRGenerator t a n i (Some v) f c u m bn mn sl tl p up lp na ca st.

Definition setAccountInformation (v : jsstring) (g : KHQRGenerator) : KHQRGenerator :=
  let '(Build_KHQRGenerator t a n i b _ c u m bn mn sl tl p up lp na ca st) := g in
  Build_KHQRGenerator t a n i b (Some v) c u m bn mn sl tl p up lp na ca st.

Definition setMerchantCity (v : jsstring) (g : KHQRGenerator) : KHQRGenerator :=
  let '(Build_KHQRGenerator t a n i b f _ u m bn mn sl tl p up lp na ca st) := g in
  Build_KHQRGenerator t a n i b f v u m bn mn sl tl p up lp na ca st.

Definition setCurrency (v : jsstring) (g : KHQRGenerator) : result KHQRGenerator :=
  let up := toUpperCase v in
  let '(Build_KHQRGenerator t a n i b f c _ m bn mn sl tl p upi lp na ca st) := g in
  if eqb up (js "KHR") then
    Ok (Build_KHQRGenerator t a n i b f c KHR m bn mn sl tl p upi lp na ca st)
  else if eqb up (js "USD") then
    Ok (Build_KHQRGenerator t a n i b f c USD m bn mn sl tl p upi lp na ca st)
  else Err InvalidCurrency.

Definition setAmount (v : AmountArg) (g : KHQRGenerator) : result KHQRGenerator :=
  x <- normalizeAmount v (currency g) ;;
  let '(Build_KHQRGenerator t a n i b f c u _ bn mn sl tl p up lp na ca st) := g in
  Ok (Build_KHQRGenerator t a n i b f c u (Some x) bn mn sl tl p up lp na ca st).

Definition setBillNumber (v : jsstring) (g : KHQRGenerator) : KHQRGenerator :=
  let '(Build_KHQRGenerator t a n i b f c u m _ mn sl tl p up lp na ca st) := g in
  Build_KHQRGenerator t a n i b f c u m (Some v) mn sl tl p up lp na ca st.

Definition setMobileNumber (v : jsstring) (g : KHQRGenerator) : KHQRGenerator :=
  let '(Build_KHQRGenerator t a n i b f c u m bn _ sl tl p up lp na ca st) := g in
  Build_KHQRGenerator t a n i b f c u m bn (Some v) sl tl p up lp na ca st.

Definition setStoreLabel (v : jsstring) (g : KHQRGenerator) : KHQRGenerator :=
  let '(Build_KHQRGenerator t a n i b f c u m bn mn _ tl p up lp na ca st) := g in
  Build_KHQRGenerator t a n i b f c u m bn mn (Some v) tl p up lp na ca st.

Definition setTerminalLabel (v : jsstring) (g : KHQRGenerator) : KHQRGenerator :=
  let '(Build_KHQRGenerator t a n i b f c u m bn mn sl _ p up lp na ca st) := g in
  Build_KHQRGenerator t a n i b f c u m bn mn sl (Some v) p up lp na ca st.

Definition setPurposeOfTransaction (v : jsstring) (g : KHQRGenerator) : KHQRGenerator :=
  let '(Build_KHQRGenerator t a n i b f c u m bn mn sl tl _ up lp na ca st) := g in
  Build_KHQRGenerator t a n i b f c u m bn mn sl tl (Some v) up lp na ca st.

Definition setUpiAccountInformation (v : jsstring) (g : KHQRGenerator) : KHQRGenerator :=
  let '(Build_KHQRGenerator t a n i b f c u m bn mn sl tl p _ lp na ca st) := g in
  Build_KHQRGenerator t a n i b f c u m bn mn sl tl p (Some v) lp na ca st.

Definition setMerchantAlternateLanguagePreference (v : jsstring) (g : KHQRGenerator)
  : KHQRGenerator :=
  let '(Build_KHQRGenerator t a n i b f c u m bn mn sl tl p up _ na ca st) := g in
  Build_KHQRGenerator t a n i b f c u m bn mn sl tl p up (Some v) na ca st.

Definition setMerchantNameAlternateLanguage (v : jsstring) (g : KHQRGenerator)
  : KHQRGenerator :=
  let '(Build_KHQRGenerator t a n i b f c u m bn mn sl tl p up lp _ ca st) := g in
  Build_KHQRGenerator t a n i b f c u m bn mn sl tl p up lp (Some v) ca st.

Definition setMerchantCityAlternateLanguage (v : jsstring) (g : KHQRGenerator)
  : KHQRGenerator :=
  let '(Build_KHQRGenerator t a n i b f c u m bn mn sl tl p up lp na _ st) := g in
  Build_KHQRGenerator t a n i b f c u m bn mn sl tl p up lp na (Some v) st.

(** ** Assembly *)

(** A field counts as set when it holds a non-empty string ([if (x)]). *)
Definition truthy (x : option jsstring) : bool :=
  match x with
  | Some (_ :: _) => true
  | _ => false
  end.

Definition str (x : option jsstring) : jsstring := default [] x.

(** [x ? truncUtf8(x, n) : undefined]. *)
Definition truncOpt (x : option jsstring) (n : Z) : option jsstring :=
  if truthy x then Some (truncUtf8 (str x) n) else None.

(** [if (x) t += tlv(tag, x)]. *)
Definition plusEqIf (t tag : jsstring) (x : option jsstring) : result jsstring :=
  if truthy x then plusEq t (tlv tag (str x)) else Ok t.

(** [if (t) payload += tlv(tag, t)]. *)
Definition plusEqTemplate (payload tag t : jsstring) : result jsstring :=
  match t with
  | [] => Ok payload
  | _ :: _ => plusEq payload (tlv tag t)
  end.

(** Tag 29 (individual) or tag 30 (merchant). *)
Definition identityTemplate (ty : MerchantType)
    (bakongAccountId : jsstring) (merchantId acquiringBank accountInformation : option jsstring)
  : result jsstring :=
  match ty with
  | individual =>
      t <- plusEq [] (tlv (js "00") bakongAccountId) ;;
      t <- plusEqIf t (js "01") accountInformation ;;
      t <- plusEqIf t (js "02") acquiringBank ;;
      tlv (js "29") t
  | merchant =>
      t <- plusEq [] (tlv (js "00") bakongAccountId) ;;
      t <- plusEq t (tlv (js "01") (str merchantId)) ;;
      t <- plusEq t (tlv (js "02") (str acquiringBank)) ;;
      tlv (js "30") t
  end.

(** Tag 62: additional data (optional); the content of the template. *)
Definition additionalData
    (billNumber mobileNumber storeLabel terminalLabel purpose : option jsstring)
  : result jsstring :=
  t <- plusEqIf [] (js "01") billNumber ;;
  t <- plusEqIf t (js "02") mobileNumber ;;
  t <- plusEqIf t (js "03") storeLabel ;;
  t <- plusEqIf t (js "07") terminalLabel ;;
  plusEqIf t (js "08") purpose.

(** Tag 64: alternate language (optional); the content of the template. *)
Definition alternateLanguage (langPref nameAlt cityAlt : option jsstring)
  : result jsstring :=
  t <- plusEqIf [] (js "00") langPref ;;
  t <- plusEqIf t (js "01") nameAlt ;;
  plusEqIf t (js "02") cityAlt.

(** [generate()]; [now] is the value read from [Date.now()]. *)
Definition generate (now : Z) (g : KHQRGenerator) : result GenerateResult :=
  if negb (truthy (bakongAccountId g)) then Err (MissingRequiredField BakongAccountID)
  else if negb (truthy (merchantName g)) then Err (MissingRequiredField MerchantName)
  else
  _ <- match merchantType g with
       | merchant =>
           if negb (truthy (merchantId g)) then Err (MissingRequiredField MerchantID)
           else if negb (truthy (acquiringBank g)) then Err (MissingRequiredField AcquiringBank)
           else Ok tt
       | individual => Ok tt
       end ;;
  let bakongAccountId' := truncUtf8 (str (bakongAccountId g)) 32 in
  let merchantName' := truncUtf8 (str (merchantName g)) 25 in
  let merchantCity' :=
    truncUtf8 (match merchantCity g with [] => js "Phnom Penh" | c => c end) 15 in
  let merchantId' := truncOpt (merchantId g) 32 in
  let acquiringBank' := truncOpt (acquiringBank g) 32 in
  let accountInformation' := truncOpt (accountInformation g) 32 in
  let billNumber' := truncOpt (billNumber g) 25 in
  let mobileNumber' := truncOpt (mobileNumber g) 25 in
  let storeLabel' := truncOpt (storeLabel g) 25 in
  let terminalLabel' := truncOpt (terminalLabel g) 25 in
  let purpose := truncOpt (purposeOfTransaction g) 25 in
  let upi := truncOpt (upiAccountInformation g) 31 in
  let langPref := truncOpt (merchantAlternateLanguagePreference g) 2 in
  let nameAlt := truncOpt (merchantNameAlternateLanguage g) 25 in
  let cityAlt := truncOpt (merchantCityAlternateLanguage g) 15 in
  let poi := if isStatic g then js "11" else js "12" in
  let currencyNumeric := match currency g with KHR => js "116" | USD => js "840" end in
  let merchantCategoryCode := js "5999" in
  let countryCode := js "KH" in
  payload <- plusEq [] (tlv (js "00") (js "01")) ;;
  payload <- plusEq payload (tlv (js "01") poi) ;;
  payload <- plusEqIf payload (js "15") upi ;;
  payload <- plusEq payload
               (identityTemplate (merchantType g) bakongAccountId'
                  merchantId' acquiringBank' accountInformation') ;;
  payload <- plusEq payload (tlv (js "52") merchantCategoryCode) ;;
  payload <- plusEq payload (tlv (js "53") currencyNumeric) ;;
  payload <- match amount g with
             | Some a => plusEq payload (tlv (js "54") a)
             | None => Ok payload
             end ;;
  payload <- plusEq payload (tlv (js "58") countryCode) ;;
  payload <- plusEq payload (tlv (js "59") merchantName') ;;
  payload <- plusEq payload (tlv (js "60") merchantCity') ;;
  t62 <- additionalData billNumber' mobileNumber' storeLabel' terminalLabel' purpose ;;
  payload <- plusEqTemplate payload (js "62") t62 ;;
  t64 <- alternateLanguage langPref nameAlt cityAlt ;;
  payload <- plusEqTemplate payload (js "64") t64 ;;
  let timestamp := if isStatic g then None else Some (intToString 10 now) in
  payload <- (if truthy timestamp then
                t99 <- tlv (js "00") (str timestamp) ;;
                plusEq payload (tlv (js "99") t99)
              else Ok payload) ;;
  let crcInput := payload ++ js "6304" in
  let crc := crc16CcittFalseHex crcInput in
  let qr := crcInput ++ crc in
  Ok {| qr := qr; timestamp := timestamp; type := merchantType g;
        md5 := Md5Hex (utf8Encode qr) |}.

(** ** Verification and decoding *)

Definition verifyCrc (qr : jsstring) : bool :=
  let i := lastIndexOf qr (js "6304") in
  if i <? 0 then false
  else
    let provided := slice qr (i + 4) (i + 8) in
    if negb (length provided =? 4)%nat then false
    else
      let crcInput := slice qr 0 (i + 4) in
      let expected := crc16CcittFalseHex crcInput in
      eqb (toUpperCase provided) (toUpperCase expected).

(** [KHQRGenerator.verify]. *)
Definition verify (qr : jsstring) : bool := verifyCrc qr.

(** The loop of [decodeTlv], from index [i] with the object [out]; [None]
    when the bound on the number of iterations is used up. *)
Fixpoint decodeTlv_loop (fuel : nat) (qr : jsstring) (i : Z)
    (out : gmap (list Z) (list Z)) : option (gmap (list Z) (list Z)) :=
  match fuel with
  | O => None
  | S f =>
      if i + 4 <=? Z.of_nat (length qr) then
        let tag := slice qr i (i + 2) in
        let lenStr := slice qr (i + 2) (i + 4) in
        if negb (test_d2 lenStr) then Some out
        else
          let len := Num.digitsValue lenStr in
          let vStart := i + 4 in
          let vEnd := vStart + len in
          let value := slice qr vStart vEnd in
          decodeTlv_loop f qr vEnd (<[tag := value]> out)
      else Some out
  end.

Definition decodeTlv (qr : jsstring) : option (gmap (list Z) (list Z)) :=
  decodeTlv_loop (S (length qr)) qr 0 ∅.

(** ** Notions used to state the properties *)

Definition twoDigits (n : Z) : jsstring := [48 + n / 10; 48 + n mod 10].

(** A field as the decoder reads it: two code units of tag, the number of
    code units of the value on two digits, the value. *)
Definition rawField (f : jsstring * jsstring) : jsstring :=
  f.1 ++ twoDigits (Z.of_nat (length f.2)) ++ f.2.

Definition readable (f : jsstring * jsstring) : Prop :=
  length f.1 = 2%nat /\ (length f.2 <= 99)%nat.

(** Sequential insertion of the fields into the object. *)
Definition collect (fs : list (jsstring * jsstring)) (out : gmap (list Z) (list Z))
  : gmap (list Z) (list Z) :=
  foldl (fun m f => <[ f.1 := f.2 ]> m) out fs.

(** The encoding of [a ++ b] is the concatenation of the encodings unless
    [a] ends in a high surrogate that [b] completes. *)
Definition noLowStart (b : jsstring) : Prop :=
  match b with
  | [] => True
  | u :: _ => isLowSurrogate u = false
  end.

(** What [tlv] returns when it does not throw. *)
Definition field (tag value : jsstring) : jsstring :=
  tag ++ twoDigits (utf8ByteLength value) ++ value.

(** The length check of [tlv], on its own. *)
Definition checkLength (tag value : jsstring) : result unit :=
  if 99 <? utf8ByteLength value then Err (ValueTooLong tag (utf8ByteLength value))
  else Ok tt.

(** The concatenation of the encodings of a list of (tag, value) pairs. *)
Definition encode (fs : list (jsstring * jsstring)) : jsstring :=
  concat (map (fun f => field f.1 f.2) fs).

Definition wellTagged (fs : list (jsstring * jsstring)) : Prop :=
  Forall (fun f => test_d2 f.1 = true) fs.

(** The range of ECMAScript time values, in which [Date.now()] lies. *)
Definition timeValue (now : Z) : Prop :=
  -8640000000000000 <= now <= 8640000000000000.

(** A set optional field as a one-element list. *)
Definition optField (tag : jsstring) (x : option jsstring) : list (jsstring * jsstring) :=
  if truthy x then [(tag, str x)] else [].

(** A template, omitted when it has no content. *)
Definition template (tag : jsstring) (fs : list (jsstring * jsstring))
  : list (jsstring * jsstring) :=
  match encode fs with
  | [] => []
  | t => [(tag, t)]
  end.

Definition identityTag (g : KHQRGenerator) : jsstring :=
  match merchantType g with
  | individual => js "29"
  | merchant => js "30"
  end.

(** The sub-fields of the identity template, after truncation. *)
Definition identityFields (g : KHQRGenerator) : list (jsstring * jsstring) :=
  match merchantType g with
  | individual =>
      [(js "00", truncUtf8 (str (bakongAccountId g)) 32)]
      ++ optField (js "01") (truncOpt (accountInformation g) 32)
      ++ optField (js "02") (truncOpt (acquiringBank g) 32)
  | merchant =>
      [(js "00", truncUtf8 (str (bakongAccountId g)) 32);
       (js "01", str (truncOpt (merchantId g) 32));
       (js "02", str (truncOpt (acquiringBank g) 32))]
  end.

Definition additionalFields (g : KHQRGenerator) : list (jsstring * jsstring) :=
  optField (js "01") (truncOpt (billNumber g) 25)
  ++ optField (js "02") (truncOpt (mobileNumber g) 25)
  ++ optField (js "03") (truncOpt (storeLabel g) 25)
  ++ optField (js "07") (truncOpt (terminalLabel g) 25)
  ++ optField (js "08") (truncOpt (purposeOfTransaction g) 25).

Definition alternateFields (g : KHQRGenerator) : list (jsstring * jsstring) :=
  optField (js "00") (truncOpt (merchantAlternateLanguagePreference g) 2)
  ++ optField (js "01") (truncOpt (merchantNameAlternateLanguage g) 25)
  ++ optField (js "02") (truncOpt (merchantCityAlternateLanguage g) 15).

Definition amountFields (g : KHQRGenerator) : list (jsstring * jsstring) :=
  match amount g with
  | Some a => [(js "54", a)]
  | None => []
  end.

Definition timestampFields (now : Z) (g : KHQRGenerator) : list (jsstring * jsstring) :=
  if isStatic g then [] else [(js "99", encode [(js "00", intToString 10 now)])].

(** The top-level fields in the fixed order of the assembler, before the
    checksum field. *)
Definition topLevelFields (now : Z) (g : KHQRGenerator) : list (jsstring * jsstring) :=
  [(js "00", js "01"); (js "01", if isStatic g then js "11" else js "12")]
  ++ optField (js "15") (truncOpt (upiAccountInformation g) 31)
  ++ [(identityTag g, encode (identityFields g))]
  ++ [(js "52", js "5999");
      (js "53", match currency g with KHR => js "116" | USD => js "840" end)]
  ++ amountFields g
  ++ [(js "58", js "KH");
      (js "59", truncUtf8 (str (merchantName g)) 25);
      (js "60", truncUtf8 (match merchantCity g with [] => js "Phnom Penh" | c => c end) 15)]
  ++ template (js "62") (additionalFields g)
  ++ template (js "64") (alternateFields g)
  ++ timestampFields now g.

(** The required-field checks at the head of [generate]. *)
Definition requiredFields (g : KHQRGenerator) : result unit :=
  if negb (truthy (bakongAccountId g)) then Err (MissingRequiredField BakongAccountID)
  else if negb (truthy (merchantName g)) then Err (MissingRequiredField MerchantName)
  else
    match merchantType g with
    | merchant =>
        if negb (truthy (merchantId g)) then Err (MissingRequiredField MerchantID)
        else if negb (truthy (acquiringBank g)) then Err (MissingRequiredField AcquiringBank)
        else Ok tt
    | individual => Ok tt
    end.

(** The payload with its checksum field, and the record returned for it. *)
Definition withChecksum (payload : jsstring) : jsstring :=
  (payload ++ js "6304") ++ crc16CcittFalseHex (payload ++ js "6304").

Definition resultOf (now : Z) (g : KHQRGenerator) (payload : jsstring) : GenerateResult :=
  {| qr := withChecksum payload;
     timestamp := if isStatic g then None else Some (intToString 10 now);
     type := merchantType g;
     md5 := Md5Hex (utf8Encode (withChecksum payload)) |}.

(** A field the encoder accepts: a two-digit tag and at most 99 bytes. *)
Definition validField (f : jsstring * jsstring) : Prop :=
  test_d2 f.1 = true /\ utf8ByteLength f.2 <= 99.

(** The amount, when set, fits the length field. *)
Definition amountFits (g : KHQRGenerator) : Prop :=
  match amount g with
  | Some a => utf8ByteLength a <= 99
  | None => True
  end.

(** A decimal numeral, with an optional minus sign. *)
Definition decimalText (s : jsstring) : Prop :=
  let ds := match s with
            | c :: s' => if c =? 45 then s' else s
            | [] => s
            end in
  ds <> [] /\ Forall (fun u => isDigit u = true) ds.

(** The top-level fields before the timestamp template. *)
Definition bodyFields (g : KHQRGenerator) : list (jsstring * jsstring) :=
  [(js "00", js "01"); (js "01", if isStatic g then js "11" else js "12")]
  ++ optField (js "15") (truncOpt (upiAccountInformation g) 31)
  ++ [(identityTag g, encode (identityFields g))]
  ++ [(js "52", js "5999");
      (js "53", match currency g with KHR => js "116" | USD => js "840" end)]
  ++ amountFields g
  ++ [(js "58", js "KH");
      (js "59", truncUtf8 (str (merchantName g)) 25);
      (js "60", truncUtf8 (match merchantCity g with [] => js "Phnom Penh" | c => c end) 15)]
  ++ template (js "62") (additionalFields g)
  ++ template (js "64") (alternateFields g).

(** The text that [normalizeAmount] hands to [normalizeAmountString]. *)
Definition amountText (v : AmountArg) : jsstring :=
  match v with
  | AmountText s => trim s
  | AmountNumber x => Num.toString x
  end.

(** A finite value below 10^21, the range in which [toFixed] prints digits. *)
Definition below1e21 (x : Num.Number) : bool :=
  match x with
  | Num.Fin _ m e => negb (Num.atLeast1e21 m e)
  | _ => false
  end.

(** Digits, a point, two digits. *)
Definition twoDecimals (a : jsstring) : Prop :=
  exists ip d1 d2,
    a = ip ++ [46; d1; d2] /\ ip <> []
    /\ Forall (fun u => isDigit u = true) (ip ++ [d1; d2]).

Definition endsWith (s : jsstring) (u : Z) : Prop := exists b, s = b ++ [u].

(** [a] is [s] without its trailing zeros and then without a trailing
    point, or "0" when nothing is left. *)
Definition strippedOf (s a : jsstring) : Prop :=
  exists k s1 s2,
    s = s1 ++ Num.zeros k /\ 0 <= k /\ ~ endsWith s1 48
    /\ (s1 = s2 ++ [46] \/ (s1 = s2 /\ ~ endsWith s1 46))
    /\ a = match s2 with [] => js "0" | _ :: _ => s2 end.

(** ** Further notions *)

(** Text whose code units are all below 128. *)
Definition asciiText (s : jsstring) : Prop := Forall (fun u => u < 128) s.

(** A code unit as JavaScript has them: 16 bits. *)
Definition codeUnits (s : jsstring) : Prop := Forall (fun u => 0 <= u < 65536) s.

(** One hexadecimal digit, upper case. *)
Definition hexUpper (d : Z) : Z := if d <? 10 then 48 + d else 55 + d.

(** The fields whose values are all ASCII. *)
Definition asciiValues (fs : list (jsstring * jsstring)) : Prop :=
  Forall (fun f => asciiText f.2) fs.

Definition asciiOpt (x : option jsstring) : Prop := asciiText (str x).

(** A configuration all of whose texts are ASCII. *)
Definition asciiConfig (g : KHQRGenerator) : Prop :=
  Forall asciiOpt
    [bakongAccountId g; merchantName g; merchantId g; acquiringBank g;
     accountInformation g; Some (merchantCity g); amount g; billNumber g;
     mobileNumber g; storeLabel g; terminalLabel g; purposeOfTransaction g;
     upiAccountInformation g; merchantAlternateLanguagePreference g;
     merchantNameAlternateLanguage g; merchantCityAlternateLanguage g].

(** The checksum field that ends the payload made of the fields [fs]. *)
Definition checksumField (fs : list (jsstring * jsstring)) : jsstring * jsstring :=
  (js "63", crc16CcittFalseHex (encode fs ++ js "6304")).

(** The number of bytes the fields [fs] take once encoded: four for tag and
    length, and the bytes of the value. *)
Definition encodedBytes (fs : list (jsstring * jsstring)) : Z :=
  fold_right (fun f n => 4 + utf8ByteLength f.2 + n) 0 fs.

(** The amounts whose rendering is described: in riel the plain decimal
    texts (digits with an optional fraction; every accepted text is one, and
    so is every number that prints without an exponent), in dollars the
    values below 10^21. *)
Definition coveredAmount (c : Currency) (v : AmountArg) : Prop :=
  match c with
  | USD => below1e21 (Num.ofString (amountText v)) = true
  | KHR => isNumericText (amountText v) = true
  end.

(** [N] hundredths is nearest to the value [m * 2^e], the larger of two
    nearest ones. *)
Definition nearestHundredth (m e N : Z) : Prop :=
  let '(p, q) := Num.fraction m e in
  q * (2 * N - 1) <= 200 * p < q * (2 * N + 1).

(** [N] hundredths in decimal notation with two decimal places. *)
Definition twoDecimalText (N : Z) : jsstring :=
  Num.decimal (N / 100) ++ [46] ++ twoDigits (N mod 100).

(** * Properties *)

(** Arithmetic with divisions by constants. *)
Ltac zdiv := Z.to_euclidean_division_equations; lia.

(** Splits a statement about a concatenation of field lists. *)
Ltac split_fields := repeat (apply Forall_app; split).

(** Cases on every test that decides whether an optional part is there. *)
Ltac case_presence :=
  repeat match goal with
         | |- context [if ?c then _ else _] => destruct c
         | |- context [match ?c with _ => _ end] => destruct c
         end.

(** ** The model at work *)

(** The first usage of the README: a static individual payload in USD. *)
Example readme_individual_static :
  (g <- setCurrency (js "USD")
          (setMerchantName (js "John Smith")
             (setBakongAccountId (js "john_smith@devb")
                (setStatic true (new individual)))) ;;
   r <- generate 0 (setMerchantCity (js "Phnom Penh") g) ;;
   Ok (qr r, timestamp r, verify (qr r)))
  = Ok (js "00020101021129190015john_smith@devb5204599953038405802KH5910John Smith6010Phnom Penh6304F714",
        None, true).
Proof. vm_compute. reflexivity. Qed.

(** The second usage of the README: a merchant payload in KHR with an
    amount, dynamic, the clock showing 1700000000000. *)
Example readme_merchant_dynamic :
  (g <- setCurrency (js "KHR")
          (setMerchantName (js "Dev Store")
             (setAcquiringBank (js "Dev Bank")
                (setMerchantId (js "YOUR_MERCHANT_ID")
                   (setBakongAccountId (js "dev_merchant@devb") (new merchant))))) ;;
   g <- setAmount (AmountText (js "1000")) g ;;
   r <- generate 1700000000000 g ;;
   Ok (qr r, timestamp r, verify (qr r)))
  = Ok (js "00020101021230530017dev_merchant@devb0116YOUR_MERCHANT_ID0208Dev Bank520459995303116540410005802KH5909Dev Store6010Phnom Penh991700131700000000000630431B0",
        Some (js "1700000000000"), true).
Proof. vm_compute. reflexivity. Qed.

(** Lengths are counted in bytes: a Khmer name of 6 characters takes 18. *)
Example khmer_alternate_name :
  utf8ByteLength [6016; 6070; 6048; 6098; 6044; 6081] = 18
  /\ tlv (js "01") [6016; 6070; 6048; 6098; 6044; 6081]
     = Ok (js "0118" ++ [6016; 6070; 6048; 6098; 6044; 6081]).
Proof. split; vm_compute; reflexivity. Qed.

(** Truncation keeps whole characters: three Khmer characters fit in 10
    bytes, a surrogate pair is never split, and a budget below the first
    character leaves nothing. *)
Example truncUtf8_samples :
  truncUtf8 [6016; 6070; 6048; 6098; 6044; 6081] 10 = [6016; 6070; 6048]
  /\ truncUtf8 [97; 0xD83D; 0xDE00; 98] 4 = [97]
  /\ truncUtf8 [97; 0xD83D; 0xDE00; 98] 5 = [97; 0xD83D; 0xDE00]
  /\ truncUtf8 (js "abc") 3 = js "abc"
  /\ truncUtf8 [6016] 2 = [].
Proof. repeat split; vm_compute; reflexivity. Qed.

Example normalizeAmount_samples :
  normalizeAmount (AmountText (js "1.00")) USD = Ok (js "1.00")
  /\ normalizeAmount (AmountText (js " 12 ")) USD = Ok (js "12.00")
  /\ normalizeAmount (AmountText (js "0.125")) USD = Ok (js "0.13")
  /\ normalizeAmount (AmountText (js "1.005")) USD = Ok (js "1.00")
  /\ normalizeAmount (AmountText (js "1000")) KHR = Ok (js "1000")
  /\ normalizeAmount (AmountText (js "10.00")) KHR = Ok (js "10")
  /\ normalizeAmount (AmountText (js "100.50")) KHR = Ok (js "100.5")
  /\ normalizeAmount (AmountText (js "0.0")) KHR = Ok (js "0")
  /\ normalizeAmount (AmountText (js "1e5")) KHR = Err (InvalidAmount NotNumeric)
  /\ normalizeAmount (AmountText (js "-1")) USD = Err (InvalidAmount NotNumeric)
  /\ normalizeAmount (AmountNumber (Num.Fin false 3 (-1))) USD = Ok (js "1.50")
  /\ normalizeAmount (AmountNumber (Num.Fin true 3 (-1))) USD = Err (InvalidAmount Negative)
  /\ normalizeAmount (AmountNumber Num.NaN) KHR = Err (InvalidAmount NotFinite)
  /\ normalizeAmountString (js ".000") KHR = js "0".
Proof. repeat split; vm_compute; reflexivity. Qed.

Example number_text_samples :
  Num.toString (Num.ofString (js "0.1")) = js "0.1"
  /\ Num.toString (Num.ofString (js "123.456")) = js "123.456"
  /\ Num.toString (Num.ofString (js "9007199254740993")) = js "9007199254740992"
  /\ Num.toString (Num.ofString (js "1000000000000000000000")) = js "1e+21"
  /\ Num.toString (Num.ofString (js "0.0000001")) = js "1e-7"
  /\ Num.toString (Num.ofString (js "0.000001")) = js "0.000001"
  /\ Num.toFixed2 (Num.ofString (js "123456789012345678901")) = js "123456789012345683968.00".
Proof. repeat split; vm_compute; reflexivity. Qed.

(** The decoder on a generated payload, and on a payload whose display name
    is not ASCII: the lengths count bytes, the decoder counts code units. *)
Example decodeTlv_samples :
  (fun m : gmap (list Z) (list Z) => (m !! js "01", m !! js "59", m !! js "63", m !! js "99"))
    <$> decodeTlv (js "00020101021129190015john_smith@devb5204599953038405802KH5910John Smith6010Phnom Penh6304F714")
  = Some (Some (js "11"), Some (js "John Smith"), Some (js "F714"), None)
  /\ (fun m : gmap (list Z) (list Z) => (m !! js "59", m !! js "60"))
       <$> decodeTlv (js "5903" ++ [6016] ++ js "6002PP")
     = Some (Some ([6016] ++ js "60"), None).
Proof. split; vm_compute; reflexivity. Qed.

(** ** Strings and numerals *)

Lemma digitsRadix_length_le fuel radix n :
  (length (digitsRadix fuel radix n) <= fuel)%nat.
Proof.
  revert n. induction fuel as [|f IH]; intros n; simpl; [lia|].
  destruct (n <? radix); simpl; [lia|].
  rewrite length_app. simpl. specialize (IH (n / radix)). lia.
Qed.

Lemma digitsRadix_length_pow fuel radix n (k : nat) :
  2 <= radix -> 0 <= n < radix ^ Z.of_nat (S k) ->
  (length (digitsRadix fuel radix n) <= S k)%nat.
Proof.
  intros Hr. revert n k. induction fuel as [|f IH]; intros n k Hn; simpl; [lia|].
  destruct (Z.ltb_spec n radix); simpl; [lia|].
  rewrite length_app. simpl.
  destruct k as [|k].
  - change (Z.of_nat 1) with 1 in Hn. rewrite Z.pow_1_r in Hn. lia.
  - assert (0 <= n / radix < radix ^ Z.of_nat (S k)).
    { split; [apply Z.div_pos; lia|].
      apply Z.div_lt_upper_bound; [lia|].
      replace (Z.of_nat (S (S k))) with (Z.succ (Z.of_nat (S k))) in Hn by lia.
      rewrite Z.pow_succ_r in Hn by lia. lia. }
    specialize (IH (n / radix) k H0). lia.
Qed.

Lemma digitsRadix_nonempty fuel radix n : digitsRadix (S fuel) radix n <> [].
Proof.
  simpl. destruct (n <? radix); [discriminate|].
  intros H. apply app_eq_nil in H. destruct H; discriminate.
Qed.

Lemma digitsRadix_decimal fuel n :
  0 <= n -> Forall (fun u => isDigit u = true) (digitsRadix fuel 10 n).
Proof.
  revert n. induction fuel as [|f IH]; intros n Hn; simpl; [constructor|].
  assert (Hd : forall d, 0 <= d < 10 -> isDigit (digitUnit d) = true).
  { intros d Hd. unfold digitUnit, isDigit.
    destruct (Z.ltb_spec d 10); [|lia].
    apply andb_true_iff. split; apply Z.leb_le; lia. }
  destruct (Z.ltb_spec n 10).
  - constructor; [apply Hd; lia | constructor].
  - apply Forall_app. split.
    + apply IH. apply Z.div_pos; lia.
    + constructor; [|constructor]. apply Hd. apply Z.mod_pos_bound. lia.
Qed.

Lemma intToString_decimal n :
  0 <= n -> intToString 10 n <> [] /\ Forall (fun u => isDigit u = true) (intToString 10 n).
Proof.
  intros Hn. unfold intToString. destruct (Z.ltb_spec n 0); [lia|].
  split; [apply digitsRadix_nonempty | apply digitsRadix_decimal; lia].
Qed.

Lemma digitsValue_snoc ds d : Num.digitsValue (ds ++ [d]) = 10 * Num.digitsValue ds + (d - 48).
Proof. unfold Num.digitsValue. rewrite fold_left_app. reflexivity. Qed.

(** The decimal text of a non-negative integer reads back as that integer:
    the recursion bound is large enough. *)
Lemma digitsRadix_value fuel n :
  0 <= n < 2 ^ Z.of_nat fuel -> Num.digitsValue (digitsRadix fuel 10 n) = n.
Proof.
  revert n. induction fuel as [|f IH]; intros n Hn.
  - change (2 ^ Z.of_nat 0) with 1 in Hn. assert (n = 0) as -> by lia. reflexivity.
  - cbn [digitsRadix]. destruct (Z.ltb_spec n 10).
    + unfold digitUnit. destruct (Z.ltb_spec n 10); [|lia].
      unfold Num.digitsValue. simpl. lia.
    + rewrite digitsValue_snoc.
      pose proof (Z.mod_pos_bound n 10 ltac:(lia)) as Hm.
      unfold digitUnit. destruct (Z.ltb_spec (n mod 10) 10); [|lia].
      rewrite IH.
      * pose proof (Z.div_mod n 10 ltac:(lia)). lia.
      * split; [apply Z.div_pos; lia|].
        apply Z.div_lt_upper_bound; [lia|].
        rewrite Nat2Z.inj_succ, Z.pow_succ_r in Hn by lia. lia.
Qed.

Lemma digitsRadix_enough radix fuel fuel' n :
  2 <= radix -> 0 <= n < 2 ^ Z.of_nat (S fuel) -> (fuel <= fuel')%nat ->
  digitsRadix (S fuel) radix n = digitsRadix (S fuel') radix n.
Proof.
  intros Hr. revert fuel' n. induction fuel as [|f IH]; intros fuel' n Hn Hle.
  - change (2 ^ Z.of_nat 1) with 2 in Hn. cbn [digitsRadix].
    destruct (Z.ltb_spec n radix); [reflexivity | lia].
  - destruct fuel' as [|f']; [lia|].
    cbn [digitsRadix]. destruct (Z.ltb_spec n radix); [reflexivity|].
    f_equal. apply IH; [|lia].
    split; [apply Z.div_pos; lia|].
    apply Z.div_lt_upper_bound; [lia|].
    rewrite (Nat2Z.inj_succ (S f)), Z.pow_succ_r in Hn by lia.
    assert (0 < 2 ^ Z.of_nat (S f)) by (apply Z.pow_pos_nonneg; lia).
    nia.
Qed.

Lemma intToString_value n : 0 <= n -> Num.digitsValue (intToString 10 n) = n.
Proof.
  intros Hn. unfold intToString. destruct (Z.ltb_spec n 0); [lia|].
  apply digitsRadix_value. split; [exact Hn|].
  destruct (Z.eq_dec n 0) as [->|Hz]; [reflexivity|].
  rewrite Nat2Z.inj_succ, Z2Nat.id by apply Z.log2_nonneg.
  apply Z.log2_spec. lia.
Qed.

Lemma length_toUpperCase s : length (toUpperCase s) = length s.
Proof. apply length_map. Qed.

Lemma length_padStart s n fill : length (padStart s n fill) = Nat.max n (length s).
Proof. unfold padStart. rewrite length_app, length_replicate. lia. Qed.

(** ** The CRC register stays within 16 bits *)

Lemma crc16_round_range crc : 0 <= crc16_round crc < 65536.
Proof.
  unfold crc16_round. change 0xffff with (Z.ones 16).
  rewrite Z.land_ones by lia. apply Z.mod_pos_bound. reflexivity.
Qed.

Lemma crc16_byte_range crc b : 0 <= crc16_byte crc b < 65536.
Proof. unfold crc16_byte. simpl. apply crc16_round_range. Qed.

Lemma crc16_range bytes : 0 <= crc16 bytes < 65536.
Proof.
  unfold crc16.
  assert (H : forall init, 0 <= init < 65536 ->
                0 <= fold_left crc16_byte bytes init < 65536).
  { induction bytes as [|b bs IH]; intros init Hi; simpl; [exact Hi|].
    apply IH. apply crc16_byte_range. }
  apply H. lia.
Qed.

Lemma crc16CcittFalseHex_length input : length (crc16CcittFalseHex input) = 4%nat.
Proof.
  unfold crc16CcittFalseHex. rewrite length_padStart, length_toUpperCase.
  pose proof (crc16_range (utf8Encode input)) as Hr.
  unfold intToString. destruct (Z.ltb_spec (crc16 (utf8Encode input)) 0); [lia|].
  pose proof (digitsRadix_length_pow
                (S (Z.to_nat (Z.log2 (crc16 (utf8Encode input))))) 16
                (crc16 (utf8Encode input)) 3) as Hl.
  assert (length (digitsRadix (S (Z.to_nat (Z.log2 (crc16 (utf8Encode input))))) 16
                    (crc16 (utf8Encode input))) <= 4)%nat.
  { apply Hl; [lia|]. change (16 ^ Z.of_nat 4) with 65536. lia. }
  lia.
Qed.

(** C5.  The CRC engine is CRC-16/CCITT-FALSE: on the ASCII text "123456789"
    it returns the published check value "29B1"; the register starts at
    0xFFFF (the value for the empty input, so there is no final XOR), a byte
    enters through the high 8 bits without reflection, each round shifts
    left and applies the polynomial 0x1021 when the high bit was set, and
    the result is always printed as four characters. *)
Theorem crc16_reference_vector :
  crc16CcittFalseHex (js "123456789") = js "29B1"
  /\ crc16 [] = 0xFFFF
  /\ crc16CcittFalseHex [] = js "FFFF"
  /\ (forall crc, Z.land crc 0x8000 <> 0 ->
        crc16_round crc = Z.land (Z.lxor (Z.shiftl crc 1) 0x1021) 0xFFFF)
  /\ (forall crc, Z.land crc 0x8000 = 0 ->
        crc16_round crc = Z.land (Z.shiftl crc 1) 0xFFFF)
  /\ (forall input, length (crc16CcittFalseHex input) = 4%nat)
  /\ crc16CcittFalseHex (js "a") = js "9D77".
Proof.
  split; [vm_compute; reflexivity|].
  split; [reflexivity|].
  split; [vm_compute; reflexivity|].
  split.
  { intros crc H. unfold crc16_round. destruct (Z.eqb_spec (Z.land crc 32768) 0); [contradiction|reflexivity]. }
  split.
  { intros crc H. unfold crc16_round. rewrite H. reflexivity. }
  split; [apply crc16CcittFalseHex_length|].
  vm_compute; reflexivity.
Qed.

(** ** Truncation *)

Lemma truncUtf8_loop_fits chs maxBytes out :
  utf8ByteLength out <= maxBytes \/ out = [] ->
  utf8ByteLength (truncUtf8_loop chs maxBytes out) <= maxBytes
  \/ truncUtf8_loop chs maxBytes out = [].
Proof.
  revert out. induction chs as [|ch chs IH]; intros out Hout; simpl; [exact Hout|].
  destruct (Z.ltb_spec maxBytes (utf8ByteLength (out ++ ch))); [exact Hout|].
  apply IH. left. lia.
Qed.

Lemma truncUtf8_fits s maxBytes :
  utf8ByteLength (truncUtf8 s maxBytes) <= maxBytes \/ truncUtf8 s maxBytes = [].
Proof.
  unfold truncUtf8. destruct (Z.leb_spec (utf8ByteLength s) maxBytes); [left; lia|].
  apply truncUtf8_loop_fits. right. reflexivity.
Qed.

Lemma truncUtf8_bound s maxBytes :
  0 <= maxBytes -> utf8ByteLength (truncUtf8 s maxBytes) <= maxBytes.
Proof.
  intros Hn. destruct (truncUtf8_fits s maxBytes) as [H|H]; [exact H|].
  rewrite H. exact Hn.
Qed.

Lemma codePoints_cons2 u x (s : jsstring) :
  codePoints (u :: x :: s)
  = if isHighSurrogate u && isLowSurrogate x
    then [u; x] :: codePoints s
    else [u] :: codePoints (x :: s).
Proof. reflexivity. Qed.

Lemma codePoints_concat s : concat (codePoints s) = s.
Proof.
  assert (H : concat (codePoints s) = s
              /\ forall u, concat (codePoints (u :: s)) = u :: s).
  { induction s as [|x s [IH1 IH2]].
    - split; reflexivity.
    - split; [apply IH2|]. intros u. rewrite codePoints_cons2.
      destruct (isHighSurrogate u && isLowSurrogate x).
      + change (concat ([u; x] :: codePoints s)) with (u :: x :: concat (codePoints s)).
        rewrite IH1. reflexivity.
      + change (concat ([u] :: codePoints (x :: s))) with (u :: concat (codePoints (x :: s))).
        rewrite IH2. reflexivity. }
  apply H.
Qed.

Lemma truncUtf8_loop_prefix chs maxBytes out :
  exists rest, out ++ concat chs = truncUtf8_loop chs maxBytes out ++ rest.
Proof.
  revert out. induction chs as [|ch chs IH]; intros out; cbn [truncUtf8_loop concat].
  - exists []. reflexivity.
  - destruct (maxBytes <? utf8ByteLength (out ++ ch)).
    + exists (ch ++ concat chs). reflexivity.
    + destruct (IH (out ++ ch)) as [rest Hrest]. exists rest.
      rewrite <- Hrest, <- app_assoc. reflexivity.
Qed.

(** The truncated text is a prefix of the text. *)
Lemma truncUtf8_prefix s maxBytes : exists rest, s = truncUtf8 s maxBytes ++ rest.
Proof.
  unfold truncUtf8. destruct (utf8ByteLength s <=? maxBytes).
  - exists []. rewrite app_nil_r. reflexivity.
  - destruct (truncUtf8_loop_prefix (codePoints s) maxBytes []) as [rest Hrest].
    exists rest. rewrite <- Hrest, codePoints_concat. reflexivity.
Qed.

(** C9.  Truncation is idempotent, for every string and every budget
    (negative budgets included). *)
Theorem truncUtf8_idempotent (s : jsstring) (n : Z) :
  truncUtf8 (truncUtf8 s n) n = truncUtf8 s n.
Proof.
  destruct (truncUtf8_fits s n) as [H|H].
  - unfold truncUtf8 at 1.
    destruct (Z.leb_spec (utf8ByteLength (truncUtf8 s n)) n); [reflexivity|lia].
  - rewrite H. unfold truncUtf8. simpl.
    destruct (utf8ByteLength [] <=? n); reflexivity.
Qed.

(** ** Slices and two-digit lengths *)

Lemma slice_take_drop (s : jsstring) a b :
  0 <= a -> a <= b ->
  slice s a b = take (Z.to_nat (b - a)) (drop (Z.to_nat a) s).
Proof.
  intros Ha Hab. unfold slice.
  destruct (Z.ltb_spec a 0); [lia|]. destruct (Z.ltb_spec b 0); [lia|].
  destruct (Z.le_gt_cases (Z.of_nat (length s)) a) as [Hlen|Hlen].
  - rewrite !Z.min_r by lia. rewrite Z.sub_diag. simpl.
    rewrite (drop_ge s (Z.to_nat a)) by lia. symmetry. apply take_nil.
  - rewrite (Z.min_l a) by lia.
    destruct (Z.le_gt_cases (Z.of_nat (length s)) b) as [Hb|Hb].
    + rewrite Z.min_r by lia.
      rewrite !take_ge; [reflexivity| |]; rewrite length_drop; lia.
    + rewrite Z.min_l by lia. reflexivity.
Qed.

Lemma slice_at (pre rest : jsstring) n :
  0 <= n ->
  slice (pre ++ rest) (Z.of_nat (length pre)) (Z.of_nat (length pre) + n)
  = take (Z.to_nat n) rest.
Proof.
  intros Hn. rewrite slice_take_drop by lia.
  rewrite Nat2Z.id, drop_app_length. f_equal. lia.
Qed.

Lemma slice_from (pre rest : jsstring) k n :
  0 <= k -> 0 <= n ->
  slice (pre ++ rest) (Z.of_nat (length pre) + k) (Z.of_nat (length pre) + k + n)
  = take (Z.to_nat n) (drop (Z.to_nat k) rest).
Proof.
  intros Hk Hn. rewrite slice_take_drop by lia.
  replace (Z.to_nat (Z.of_nat (length pre) + k)) with (length pre + Z.to_nat k)%nat by lia.
  rewrite <- drop_drop, drop_app_length. f_equal. lia.
Qed.

Lemma pad2_twoDigits n :
  0 <= n <= 99 -> padStart (intToString 10 n) 2 48 = twoDigits n.
Proof.
  intros Hn. unfold intToString, twoDigits.
  destruct (Z.ltb_spec n 0); [lia|].
  destruct (Z.lt_ge_cases n 10) as [Hs|Hs].
  - simpl. destruct (Z.ltb_spec n 10); [|lia].
    unfold padStart, digitUnit. simpl. destruct (Z.ltb_spec n 10); [|lia].
    rewrite Z.div_small, Z.mod_small by lia. reflexivity.
  - assert (3 <= Z.log2 n).
    { change 3 with (Z.log2 8). apply Z.log2_le_mono. lia. }
    destruct (Z.to_nat (Z.log2 n)) as [|f] eqn:Hf; [lia|].
    simpl. destruct (Z.ltb_spec n 10); [lia|].
    assert (n / 10 < 10) by (apply Z.div_lt_upper_bound; lia).
    assert (0 <= n / 10) by (apply Z.div_pos; lia).
    destruct (Z.ltb_spec (n / 10) 10); [|lia].
    unfold padStart, digitUnit. simpl.
    pose proof (Z.mod_pos_bound n 10 ltac:(lia)).
    destruct (Z.ltb_spec (n / 10) 10); [|lia].
    destruct (Z.ltb_spec (n mod 10) 10); [|lia]. reflexivity.
Qed.

Lemma twoDigits_test n : 0 <= n <= 99 -> test_d2 (twoDigits n) = true.
Proof.
  intros Hn. unfold twoDigits, test_d2, isDigit.
  assert (0 <= n / 10 < 10).
  { split; [apply Z.div_pos; lia | apply Z.div_lt_upper_bound; lia]. }
  pose proof (Z.mod_pos_bound n 10 ltac:(lia)).
  rewrite !andb_true_iff, !Z.leb_le. lia.
Qed.

Lemma twoDigits_value n : 0 <= n <= 99 -> Num.digitsValue (twoDigits n) = n.
Proof.
  intros Hn. unfold twoDigits, Num.digitsValue. simpl.
  pose proof (Z.div_mod n 10 ltac:(lia)). lia.
Qed.

Lemma test_d2_value s : test_d2 s = true -> 0 <= Num.digitsValue s.
Proof.
  destruct s as [|a [|b [|c s]]]; simpl; try discriminate.
  unfold isDigit. rewrite !andb_true_iff, !Z.leb_le.
  unfold Num.digitsValue. simpl. lia.
Qed.

(** ** The decoder *)

Lemma decodeTlv_loop_total fuel qr i out :
  (Z.to_nat (Z.of_nat (length qr) - i) < fuel)%nat ->
  is_Some (decodeTlv_loop fuel qr i out).
Proof.
  revert i out. induction fuel as [|f IH]; intros i out Hf; [lia|]. simpl.
  destruct (Z.leb_spec (i + 4) (Z.of_nat (length qr))); [|eexists; reflexivity].
  destruct (test_d2 (slice qr (i + 2) (i + 4))) eqn:Ht; simpl; [|eexists; reflexivity].
  apply IH. pose proof (test_d2_value _ Ht). lia.
Qed.

Lemma decodeTlv_loop_mono fuel fuel' qr i out m :
  decodeTlv_loop fuel qr i out = Some m -> (fuel <= fuel')%nat ->
  decodeTlv_loop fuel' qr i out = Some m.
Proof.
  revert fuel' i out. induction fuel as [|f IH]; intros fuel' i out H Hle; [discriminate|].
  destruct fuel' as [|f']; [lia|]. simpl in *.
  destruct (i + 4 <=? Z.of_nat (length qr)); [|exact H].
  destruct (test_d2 (slice qr (i + 2) (i + 4))); simpl in *; [|exact H].
  apply IH; [exact H | lia].
Qed.

(** One turn of the loop at a position where four code units are left. *)
Lemma decodeTlv_loop_step fuel (pre : jsstring) t1 t2 d1 d2 (rest : jsstring) out :
  test_d2 [d1; d2] = true ->
  decodeTlv_loop (S fuel) (pre ++ t1 :: t2 :: d1 :: d2 :: rest) (Z.of_nat (length pre)) out
  = decodeTlv_loop fuel (pre ++ t1 :: t2 :: d1 :: d2 :: rest)
      (Z.of_nat (length pre) + 4 + Num.digitsValue [d1; d2])
      (<[ [t1; t2] := take (Z.to_nat (Num.digitsValue [d1; d2])) rest ]> out).
Proof.
  intros Hd. pose proof (test_d2_value _ Hd) as Hv.
  set (qr := pre ++ t1 :: t2 :: d1 :: d2 :: rest).
  set (i := Z.of_nat (length pre)).
  assert (Htag : slice qr i (i + 2) = [t1; t2]).
  { unfold qr, i. rewrite (slice_at pre _ 2) by lia. reflexivity. }
  assert (Hlen : slice qr (i + 2) (i + 4) = [d1; d2]).
  { unfold qr, i.
    replace (Z.of_nat (length pre) + 4) with (Z.of_nat (length pre) + 2 + 2) by lia.
    rewrite (slice_from pre _ 2 2) by lia. reflexivity. }
  assert (Hval : slice qr (i + 4) (i + 4 + Num.digitsValue [d1; d2])
                 = take (Z.to_nat (Num.digitsValue [d1; d2])) rest).
  { unfold qr, i. rewrite (slice_from pre _ 4 _) by lia. reflexivity. }
  cbn [decodeTlv_loop].
  destruct (Z.leb_spec (i + 4) (Z.of_nat (length qr))) as [_|Hlt].
  2:{ unfold qr, i in Hlt. rewrite length_app in Hlt. simpl in Hlt. lia. }
  rewrite Hlen, Htag, Hd. cbn [negb]. rewrite Hval. reflexivity.
Qed.

Lemma length_slice_le (s : jsstring) a b :
  0 <= a -> a <= b -> (length (slice s a b) <= length s - Z.to_nat a)%nat.
Proof.
  intros Ha Hab. rewrite slice_take_drop by assumption.
  rewrite length_take, length_drop. lia.
Qed.

(** C8.  Decoding and verification are total: on every string the loop of
    [decodeTlv] stops within its bound and returns a mapping (more turns
    never change it), and [verify] returns a boolean; neither has an error
    result.  In particular [verify] answers [false] when "6304" does not
    occur or is followed by fewer than four characters. *)
Theorem decode_and_verify_never_raise (qr : jsstring) :
  (exists m, decodeTlv qr = Some m
             /\ forall fuel, (S (length qr) <= fuel)%nat ->
                  decodeTlv_loop fuel qr 0 ∅ = Some m)
  /\ (verify qr = true \/ verify qr = false)
  /\ (if (lastIndexOf qr (js "6304") <? 0)
          || (Z.of_nat (length qr) <? lastIndexOf qr (js "6304") + 8)
       then verify qr = false else True).
Proof.
  split; [|split].
  - destruct (decodeTlv_loop_total (S (length qr)) qr 0 ∅ ltac:(lia)) as [m Hm].
    exists m. split; [exact Hm|].
    intros fuel Hf. eapply decodeTlv_loop_mono; [exact Hm | exact Hf].
  - destruct (verify qr); [left | right]; reflexivity.
  - unfold verify, verifyCrc.
    destruct (Z.ltb_spec (lastIndexOf qr (js "6304")) 0); cbn [orb]; [reflexivity|].
    destruct (Z.ltb_spec (Z.of_nat (length qr)) (lastIndexOf qr (js "6304") + 8));
      [|exact I].
    pose proof (length_slice_le qr (lastIndexOf qr (js "6304") + 4)
                  (lastIndexOf qr (js "6304") + 8) ltac:(lia) ltac:(lia)) as Hl.
    destruct (Nat.eqb_spec
                (length (slice qr (lastIndexOf qr (js "6304") + 4)
                           (lastIndexOf qr (js "6304") + 8))) 4) as [E|_];
      [lia | reflexivity].
Qed.

(** C10.  The decoder checks the two length characters only: a tag that is
    not made of digits ("AB", which the encoder rejects) is stored as a
    key with its value, and so is any other pair of code units in front of
    a valid length. *)
Theorem decodeTlv_accepts_non_digit_tag :
  test_d2 (js "AB") = false
  /\ tlv (js "AB") (js "xyz") = Err (InvalidTag (js "AB"))
  /\ decodeTlv (js "AB03xyz") = Some {[ js "AB" := js "xyz" ]}
  /\ forall t1 t2 : Z, decodeTlv (t1 :: t2 :: js "03xyz") = Some {[ [t1; t2] := js "xyz" ]}.
Proof.
  assert (H : forall t1 t2 : Z,
             decodeTlv (t1 :: t2 :: js "03xyz") = Some {[ [t1; t2] := js "xyz" ]}).
  { intros t1 t2. unfold decodeTlv.
    change (js "03xyz") with (48 :: 51 :: js "xyz").
    rewrite (decodeTlv_loop_step _ [] t1 t2 48 51 (js "xyz") ∅ eq_refl).
    reflexivity. }
  split; [reflexivity|]. split; [reflexivity|]. split; [apply (H 65 66) | exact H].
Qed.

Lemma decodeTlv_loop_fields fs :
  Forall readable fs ->
  forall (pre s : jsstring) out fuel,
    decodeTlv_loop (length fs + fuel) (pre ++ concat (map rawField fs) ++ s)
      (Z.of_nat (length pre)) out
    = decodeTlv_loop fuel (pre ++ concat (map rawField fs) ++ s)
        (Z.of_nat (length pre) + Z.of_nat (length (concat (map rawField fs))))
        (collect fs out).
Proof.
  induction 1 as [|[t v] fs [Ht Hv] _ IH]; intros pre s out fuel.
  - simpl. rewrite Z.add_0_r. reflexivity.
  - destruct t as [|t1 [|t2 [|? ?]]]; try discriminate Ht.
    simpl in Hv.
    assert (Hn : 0 <= Z.of_nat (length v) <= 99) by lia.
    cbn [map concat length Nat.add collect foldl]. unfold rawField at 1 3. cbn [fst snd].
    unfold twoDigits at 1 2.
    set (d1 := 48 + Z.of_nat (length v) / 10). set (d2 := 48 + Z.of_nat (length v) mod 10).
    assert (Hd : test_d2 [d1; d2] = true) by (apply (twoDigits_test _ Hn)).
    assert (Hval : Num.digitsValue [d1; d2] = Z.of_nat (length v))
      by (apply (twoDigits_value _ Hn)).
    replace (pre ++ (([t1; t2] ++ [d1; d2] ++ v) ++ concat (map rawField fs)) ++ s)
      with (pre ++ t1 :: t2 :: d1 :: d2 :: (v ++ concat (map rawField fs) ++ s))
      by (simpl; rewrite <- !app_assoc; reflexivity).
    rewrite decodeTlv_loop_step by exact Hd.
    rewrite Hval, Nat2Z.id, take_app_length.
    replace (pre ++ t1 :: t2 :: d1 :: d2 :: v ++ concat (map rawField fs) ++ s)
      with ((pre ++ t1 :: t2 :: d1 :: d2 :: v) ++ concat (map rawField fs) ++ s)
      by (rewrite <- app_assoc; reflexivity).
    replace (Z.of_nat (length pre) + 4 + Z.of_nat (length v))
      with (Z.of_nat (length (pre ++ t1 :: t2 :: d1 :: d2 :: v)))
      by (rewrite length_app; simpl; lia).
    rewrite IH. f_equal.
    unfold rawField at 2. cbn [fst snd]. rewrite !length_app. simpl. lia.
Qed.

Lemma decodeTlv_by_fuel fuel qr m :
  decodeTlv_loop fuel qr 0 ∅ = Some m -> decodeTlv qr = Some m.
Proof.
  intros H. unfold decodeTlv.
  destruct (decodeTlv_loop_total (S (length qr)) qr 0 ∅ ltac:(lia)) as [m' Hm'].
  pose proof (decodeTlv_loop_mono _ (fuel + S (length qr)) _ _ _ _ H ltac:(lia)) as H1.
  pose proof (decodeTlv_loop_mono _ (fuel + S (length qr)) _ _ _ _ Hm' ltac:(lia)) as H2.
  congruence.
Qed.

Lemma decodeTlv_loop_end fuel qr i out :
  Z.of_nat (length qr) < i + 4 -> decodeTlv_loop (S fuel) qr i out = Some out.
Proof.
  intros H. simpl. destruct (Z.leb_spec (i + 4) (Z.of_nat (length qr))); [lia|reflexivity].
Qed.

(** C3, as the code has it.  When the last field announces more characters
    than are left, the fields before it are decoded as usual and the last
    field is recorded too, under its tag, with the characters that are left
    as its value.  What is dropped is a rest of fewer than four characters,
    too short for a tag and a length. *)
Theorem decodeTlv_incomplete_final_field
    (fs : list (jsstring * jsstring)) (tag : jsstring) (d1 d2 : Z)
    (rest frag : jsstring) :
  Forall readable fs ->
  length tag = 2%nat ->
  test_d2 [d1; d2] = true ->
  Z.of_nat (length rest) < Num.digitsValue [d1; d2] ->
  (length frag < 4)%nat ->
  decodeTlv (concat (map rawField fs)) = Some (collect fs ∅)
  /\ decodeTlv (concat (map rawField fs) ++ tag ++ [d1; d2] ++ rest)
     = Some (<[ tag := rest ]> (collect fs ∅))
  /\ decodeTlv (concat (map rawField fs) ++ frag) = Some (collect fs ∅).
Proof.
  intros Hfs Htag Hd Hrest Hfrag. split; [|split].
  - apply (decodeTlv_by_fuel (length fs + 1)).
    pose proof (decodeTlv_loop_fields fs Hfs [] [] ∅ 1%nat) as H.
    rewrite app_nil_l, app_nil_r in H.
    change (Z.of_nat (length (@nil Z))) with 0 in H. rewrite H.
    apply decodeTlv_loop_end. lia.
  - destruct tag as [|t1 [|t2 [|? ?]]]; try discriminate Htag.
    apply (decodeTlv_by_fuel (length fs + 2)).
    pose proof (decodeTlv_loop_fields fs Hfs [] ([t1; t2] ++ [d1; d2] ++ rest) ∅ 2%nat) as H.
    rewrite app_nil_l in H.
    change (Z.of_nat (length (@nil Z))) with 0 in H. rewrite H. clear H.
    change (0 + Z.of_nat (length (concat (map rawField fs))))
      with (Z.of_nat (length (concat (map rawField fs)))).
    change (concat (map rawField fs) ++ [t1; t2] ++ [d1; d2] ++ rest)
      with (concat (map rawField fs) ++ t1 :: t2 :: d1 :: d2 :: rest).
    rewrite decodeTlv_loop_step by exact Hd.
    rewrite take_ge by lia.
    apply decodeTlv_loop_end. rewrite length_app. simpl. lia.
  - apply (decodeTlv_by_fuel (length fs + 1)).
    pose proof (decodeTlv_loop_fields fs Hfs [] frag ∅ 1%nat) as H.
    rewrite app_nil_l in H.
    change (Z.of_nat (length (@nil Z))) with 0 in H. rewrite H.
    apply decodeTlv_loop_end. rewrite length_app. lia.
Qed.

Lemma decodeTlv_incomplete_final_field_witness :
  decodeTlv (concat (map rawField [(js "00", js "01")]))
  = Some (collect [(js "00", js "01")] ∅)
  /\ decodeTlv (concat (map rawField [(js "00", js "01")]) ++ js "01" ++ js "05" ++ js "ab")
     = Some (<[ js "01" := js "ab" ]> (collect [(js "00", js "01")] ∅))
  /\ decodeTlv (concat (map rawField [(js "00", js "01")]) ++ js "010")
     = Some (collect [(js "00", js "01")] ∅).
Proof.
  apply (decodeTlv_incomplete_final_field [(js "00", js "01")] (js "01") 48 53
           (js "ab") (js "010")).
  - repeat constructor.
  - reflexivity.
  - reflexivity.
  - vm_compute. reflexivity.
  - vm_compute. lia.
Defined.

(** C3, as the specification words it, fails: "0002010105ab" ends in a
    field "01" that announces 5 characters where 2 are left; the result
    has the key "01" (with value "ab") and differs from what the complete
    part "000201" decodes to. *)
Lemma decodeTlv_keeps_incomplete_final_field :
  decodeTlv (js "000201" ++ js "01" ++ js "05" ++ js "ab")
  = Some (<[ js "01" := js "ab" ]> {[ js "00" := js "01" ]})
  /\ decodeTlv (js "000201") = Some {[ js "00" := js "01" ]}
  /\ decodeTlv (js "000201" ++ js "01" ++ js "05" ++ js "ab") <> decodeTlv (js "000201").
Proof.
  assert (H1 : decodeTlv (js "000201" ++ js "01" ++ js "05" ++ js "ab")
               = Some (<[ js "01" := js "ab" ]> {[ js "00" := js "01" ]}))
    by (vm_compute; reflexivity).
  assert (H2 : decodeTlv (js "000201") = Some {[ js "00" := js "01" ]})
    by (vm_compute; reflexivity).
  split; [exact H1|]. split; [exact H2|].
  rewrite H1, H2. intros H.
  apply (f_equal (fun o : option (gmap (list Z) (list Z)) =>
                    match o with Some m => m !! js "01" | None => None end)) in H.
  vm_compute in H. discriminate H.
Qed.

(** ** UTF-8 lengths of concatenations *)

Lemma utf8Encode_cons2 u x (s : jsstring) :
  utf8Encode (u :: x :: s)
  = if isHighSurrogate u then
      if isLowSurrogate x
      then utf8OfCodePoint (0x10000 + (u - 0xD800) * 0x400 + (x - 0xDC00)) ++ utf8Encode s
      else replacementBytes ++ utf8Encode (x :: s)
    else if isLowSurrogate u then replacementBytes ++ utf8Encode (x :: s)
    else utf8OfCodePoint u ++ utf8Encode (x :: s).
Proof. reflexivity. Qed.

Lemma utf8Encode_app (a b : jsstring) :
  noLowStart b -> utf8Encode (a ++ b) = utf8Encode a ++ utf8Encode b.
Proof.
  intros Hb.
  assert (H : utf8Encode (a ++ b) = utf8Encode a ++ utf8Encode b
              /\ forall u, utf8Encode ((u :: a) ++ b) = utf8Encode (u :: a) ++ utf8Encode b).
  { induction a as [|x a [IH1 IH2]].
    - split; [reflexivity|]. intros u. simpl.
      destruct (isHighSurrogate u).
      + destruct b as [|l rest]; [reflexivity|]. simpl in Hb. rewrite Hb. reflexivity.
      + destruct (isLowSurrogate u); rewrite ?app_nil_r; reflexivity.
    - split; [apply IH2|]. intros u.
      change ((u :: x :: a) ++ b) with (u :: x :: (a ++ b)).
      rewrite !utf8Encode_cons2.
      change (x :: a ++ b) with ((x :: a) ++ b).
      destruct (isHighSurrogate u); [destruct (isLowSurrogate x)|destruct (isLowSurrogate u)];
        rewrite ?IH1, ?IH2, app_assoc; reflexivity. }
  apply H.
Qed.

Lemma utf8ByteLength_app (a b : jsstring) :
  noLowStart b -> utf8ByteLength (a ++ b) = utf8ByteLength a + utf8ByteLength b.
Proof.
  intros Hb. unfold utf8ByteLength. rewrite utf8Encode_app by exact Hb.
  rewrite length_app. lia.
Qed.

Lemma utf8ByteLength_nonneg s : 0 <= utf8ByteLength s.
Proof. unfold utf8ByteLength. lia. Qed.

Lemma utf8Encode_ascii_cons u s : u < 128 -> utf8Encode (u :: s) = u :: utf8Encode s.
Proof.
  intros Hu. cbn [utf8Encode]. unfold isHighSurrogate, isLowSurrogate, utf8OfCodePoint.
  destruct (Z.leb_spec 55296 u); [lia|]. cbn [andb].
  destruct (Z.leb_spec 56320 u); [lia|]. cbn [andb].
  destruct (Z.ltb_spec u 128); [reflexivity | lia].
Qed.

Lemma utf8Encode_ascii s : Forall (fun u => u < 128) s -> utf8Encode s = s.
Proof.
  induction 1 as [|u s Hu _ IH]; [reflexivity|].
  rewrite utf8Encode_ascii_cons by exact Hu. rewrite IH. reflexivity.
Qed.

Lemma isDigit_ascii u : isDigit u = true -> u < 128.
Proof. unfold isDigit. rewrite andb_true_iff, !Z.leb_le. lia. Qed.

Lemma isDigit_noLow u s : isDigit u = true -> noLowStart (u :: s).
Proof.
  unfold isDigit, noLowStart, isLowSurrogate. rewrite andb_true_iff, !Z.leb_le.
  intros [? ?]. destruct (Z.leb_spec 56320 u); [lia | reflexivity].
Qed.

(** ** Encoded fields *)

Lemma tlv_ok tag value :
  test_d2 tag = true -> utf8ByteLength value <= 99 -> tlv tag value = Ok (field tag value).
Proof.
  intros Ht Hl. unfold tlv. rewrite Ht. cbn [negb].
  destruct (Z.ltb_spec 99 (utf8ByteLength value)); [lia|].
  rewrite pad2_twoDigits by (pose proof (utf8ByteLength_nonneg value); lia).
  reflexivity.
Qed.

Lemma tlv_too_long tag value :
  test_d2 tag = true -> 99 < utf8ByteLength value ->
  tlv tag value = Err (ValueTooLong tag (utf8ByteLength value)).
Proof.
  intros Ht Hl. unfold tlv. rewrite Ht. cbn [negb].
  destruct (Z.ltb_spec 99 (utf8ByteLength value)); [reflexivity | lia].
Qed.

Lemma tlv_check tag value :
  test_d2 tag = true ->
  tlv tag value = (_ <- checkLength tag value ;; Ok (field tag value)).
Proof.
  intros Ht. unfold checkLength.
  destruct (Z.ltb_spec 99 (utf8ByteLength value)).
  - rewrite tlv_too_long by assumption. reflexivity.
  - rewrite tlv_ok by assumption. reflexivity.
Qed.

Lemma field_noLow tag value : test_d2 tag = true -> noLowStart (field tag value).
Proof.
  destruct tag as [|a [|b [|c tag]]]; simpl; try discriminate.
  rewrite andb_true_iff. intros [Ha _]. exact (isDigit_noLow a [] Ha).
Qed.

Lemma utf8ByteLength_field tag value :
  test_d2 tag = true -> utf8ByteLength value <= 99 ->
  utf8ByteLength (field tag value) = 4 + utf8ByteLength value.
Proof.
  intros Ht Hl. pose proof (utf8ByteLength_nonneg value) as Hn.
  pose proof (twoDigits_test (utf8ByteLength value) ltac:(lia)) as Hd.
  destruct tag as [|a [|b [|c tag]]]; simpl in Ht; try discriminate.
  apply andb_true_iff in Ht as [Ha Hb].
  unfold field, twoDigits in *. simpl in Hd. apply andb_true_iff in Hd as [Hd1 Hd2].
  unfold utf8ByteLength at 1. simpl app.
  rewrite !utf8Encode_ascii_cons by (apply isDigit_ascii; assumption).
  simpl length. unfold utf8ByteLength. lia.
Qed.

Lemma encode_app fs gs : encode (fs ++ gs) = encode fs ++ encode gs.
Proof. unfold encode. rewrite map_app, concat_app. reflexivity. Qed.

Lemma encode_noLow fs : wellTagged fs -> noLowStart (encode fs).
Proof.
  destruct 1 as [|f fs Hf _]; [exact I|].
  unfold encode. simpl.
  pose proof (field_noLow f.1 f.2 Hf) as H.
  destruct (field f.1 f.2) eqn:E; [|exact H].
  destruct f as [[|a [|b [|c t]]] v]; simpl in Hf; discriminate.
Qed.

Lemma utf8ByteLength_encode fs :
  wellTagged fs -> Forall (fun f => utf8ByteLength f.2 <= 99) fs ->
  utf8ByteLength (encode fs) = fold_right (fun f n => 4 + utf8ByteLength f.2 + n) 0 fs.
Proof.
  intros Ht. induction Ht as [|f fs Hf Hfs IH]; intros Hl; [reflexivity|].
  inversion Hl as [|? ? Hl1 Hl2]; subst.
  change (encode (f :: fs)) with (field f.1 f.2 ++ encode fs).
  rewrite utf8ByteLength_app by (apply encode_noLow; exact Hfs).
  rewrite utf8ByteLength_field by assumption. simpl. rewrite IH by assumption. lia.
Qed.

(** ** The assembler, field by field *)

Lemma validField_tlv f : validField f -> tlv f.1 f.2 = Ok (field f.1 f.2).
Proof. intros [Ht Hl]. apply tlv_ok; assumption. Qed.

Lemma valid_wellTagged fs : Forall validField fs -> wellTagged fs.
Proof. intros H. eapply Forall_impl; [exact H|]. intros f [Hf _]. exact Hf. Qed.

Lemma encode_one tag value : encode [(tag, value)] = field tag value.
Proof. unfold encode. simpl. apply app_nil_r. Qed.

Lemma encode_cons tag value fs : encode ((tag, value) :: fs) = field tag value ++ encode fs.
Proof. reflexivity. Qed.

Lemma checkLength_ok tag value : utf8ByteLength value <= 99 -> checkLength tag value = Ok tt.
Proof.
  intros H. unfold checkLength. destruct (Z.ltb_spec 99 (utf8ByteLength value)); [lia|reflexivity].
Qed.

Lemma str_truncOpt_bound x n : 0 <= n -> utf8ByteLength (str (truncOpt x n)) <= n.
Proof.
  intros Hn. unfold truncOpt. destruct (truthy x); simpl; [|exact Hn].
  apply truncUtf8_bound. exact Hn.
Qed.

Lemma plusEqIf_trunc t tag x n :
  test_d2 tag = true -> 0 <= n <= 99 ->
  plusEqIf t tag (truncOpt x n) = Ok (t ++ encode (optField tag (truncOpt x n))).
Proof.
  intros Ht Hn. unfold plusEqIf, optField.
  destruct (truthy (truncOpt x n)).
  - rewrite tlv_ok; [|exact Ht|pose proof (str_truncOpt_bound x n); lia].
    rewrite encode_one. reflexivity.
  - rewrite app_nil_r. reflexivity.
Qed.

Lemma identityTemplate_eval g :
  identityTemplate (merchantType g) (truncUtf8 (str (bakongAccountId g)) 32)
    (truncOpt (merchantId g) 32) (truncOpt (acquiringBank g) 32)
    (truncOpt (accountInformation g) 32)
  = (_ <- checkLength (identityTag g) (encode (identityFields g)) ;;
     Ok (field (identityTag g) (encode (identityFields g)))).
Proof.
  pose proof (truncUtf8_bound (str (bakongAccountId g)) 32 ltac:(lia)) as Ha.
  unfold identityTemplate, identityTag, identityFields.
  destruct (merchantType g).
  - rewrite tlv_ok by (reflexivity || lia). cbn [plusEq bind app].
    rewrite plusEqIf_trunc by (reflexivity || lia). cbn [bind].
    rewrite plusEqIf_trunc by (reflexivity || lia). cbn [bind].
    rewrite <- tlv_check by reflexivity.
    rewrite <- app_assoc, <- encode_app. reflexivity.
  - pose proof (str_truncOpt_bound (merchantId g) 32 ltac:(lia)).
    pose proof (str_truncOpt_bound (acquiringBank g) 32 ltac:(lia)).
    rewrite (tlv_ok (js "00")) by (reflexivity || lia). cbn [plusEq bind app].
    rewrite (tlv_ok (js "01")) by (reflexivity || lia). cbn [plusEq bind app].
    rewrite (tlv_ok (js "02")) by (reflexivity || lia). cbn [plusEq bind app].
    rewrite <- tlv_check by reflexivity.
    rewrite !encode_cons. unfold encode at 1. simpl concat. rewrite app_nil_r, <- app_assoc.
    reflexivity.
Qed.

Lemma additionalData_eval g :
  additionalData (truncOpt (billNumber g) 25) (truncOpt (mobileNumber g) 25)
    (truncOpt (storeLabel g) 25) (truncOpt (terminalLabel g) 25)
    (truncOpt (purposeOfTransaction g) 25)
  = Ok (encode (additionalFields g)).
Proof.
  unfold additionalData, additionalFields.
  repeat (rewrite plusEqIf_trunc by (reflexivity || lia); cbn [bind app]).
  rewrite !encode_app, <- !app_assoc. reflexivity.
Qed.

Lemma alternateLanguage_eval g :
  alternateLanguage (truncOpt (merchantAlternateLanguagePreference g) 2)
    (truncOpt (merchantNameAlternateLanguage g) 25)
    (truncOpt (merchantCityAlternateLanguage g) 15)
  = Ok (encode (alternateFields g)).
Proof.
  unfold alternateLanguage, alternateFields.
  repeat (rewrite plusEqIf_trunc by (reflexivity || lia); cbn [bind app]).
  rewrite !encode_app, <- !app_assoc. reflexivity.
Qed.

Lemma plusEqTemplate_eval payload tag fs :
  test_d2 tag = true ->
  plusEqTemplate payload tag (encode fs)
  = (_ <- checkLength tag (encode fs) ;; Ok (payload ++ encode (template tag fs))).
Proof.
  intros Ht. unfold plusEqTemplate, template.
  destruct (encode fs) as [|u t] eqn:E.
  - rewrite checkLength_ok by (vm_compute; discriminate). cbn [bind].
    rewrite app_nil_r. reflexivity.
  - rewrite tlv_check by exact Ht. unfold plusEq.
    destruct (checkLength tag (u :: t)); cbn [bind]; [|reflexivity].
    rewrite encode_one. reflexivity.
Qed.

Lemma optField_valid tag x n :
  test_d2 tag = true -> 0 <= n <= 99 -> Forall validField (optField tag (truncOpt x n)).
Proof.
  intros Ht Hn. unfold optField. destruct (truthy (truncOpt x n)); repeat constructor.
  - exact Ht.
  - simpl. pose proof (str_truncOpt_bound x n). lia.
Qed.

Lemma optField_bytes tag x n :
  test_d2 tag = true -> 0 <= n <= 99 ->
  0 <= utf8ByteLength (encode (optField tag (truncOpt x n))) <= 4 + n.
Proof.
  intros Ht Hn. unfold optField. destruct (truthy (truncOpt x n)).
  - rewrite encode_one, utf8ByteLength_field; pose proof (str_truncOpt_bound x n);
      pose proof (utf8ByteLength_nonneg (str (truncOpt x n))); try lia. exact Ht.
  - change (utf8ByteLength (encode [])) with 0. lia.
Qed.

Lemma alternateFields_valid g : Forall validField (alternateFields g).
Proof.
  unfold alternateFields.
  split_fields; apply optField_valid; (reflexivity || lia).
Qed.

Lemma additionalFields_valid g : Forall validField (additionalFields g).
Proof.
  unfold additionalFields.
  split_fields; apply optField_valid; (reflexivity || lia).
Qed.

Lemma alternateFields_bytes g : utf8ByteLength (encode (alternateFields g)) <= 54.
Proof.
  unfold alternateFields. rewrite !encode_app.
  rewrite !utf8ByteLength_app.
  2,3: try rewrite <- encode_app; apply encode_noLow, valid_wellTagged;
       split_fields; apply optField_valid; (reflexivity || lia).
  pose proof (optField_bytes (js "00") (merchantAlternateLanguagePreference g) 2 eq_refl ltac:(lia)).
  pose proof (optField_bytes (js "01") (merchantNameAlternateLanguage g) 25 eq_refl ltac:(lia)).
  pose proof (optField_bytes (js "02") (merchantCityAlternateLanguage g) 15 eq_refl ltac:(lia)).
  lia.
Qed.

(** *** With the clock in the range of time values *)

Section ClockInRange.

Variable now : Z.
Hypothesis Hnow : timeValue now.

Lemma intToString_time :
  Forall (fun u => u < 128) (intToString 10 now)
  /\ (length (intToString 10 now) <= 55)%nat.
Proof using Hnow.
  unfold timeValue in Hnow.
  assert (Hlog : forall n, 0 <= n <= 8640000000000000 -> (Z.to_nat (Z.log2 n) <= 52)%nat).
  { intros n Hn. destruct (Z.eq_dec n 0) as [->|Hz]; [simpl; lia|].
    assert (Z.log2 n < 53).
    { apply Z.log2_lt_pow2; [lia|]. change (2 ^ 53) with 9007199254740992. lia. }
    lia. }
  assert (Hasc : forall f n, 0 <= n -> Forall (fun u => u < 128) (digitsRadix f 10 n)).
  { intros f n Hn. eapply Forall_impl; [apply digitsRadix_decimal; exact Hn|].
    intros u Hu. apply isDigit_ascii. exact Hu. }
  unfold intToString. destruct (Z.ltb_spec now 0).
  - split.
    + constructor; [lia|]. apply Hasc. lia.
    + pose proof (digitsRadix_length_le (S (Z.to_nat (Z.log2 (- now)))) 10 (- now)).
      pose proof (Hlog (- now) ltac:(lia)).
      change (length (45 :: ?l)) with (S (length l)). lia.
  - split.
    + apply Hasc. lia.
    + pose proof (digitsRadix_length_le (S (Z.to_nat (Z.log2 now))) 10 now).
      pose proof (Hlog now ltac:(lia)). lia.
Qed.

Lemma timestamp_bytes : utf8ByteLength (intToString 10 now) <= 55.
Proof using Hnow.
  destruct intToString_time as [Ha Hl].
  unfold utf8ByteLength. rewrite utf8Encode_ascii by exact Ha. lia.
Qed.

(** [generate] is the required-field checks, three length checks (identity
    template, amount, additional data) and the concatenation of the
    top-level fields followed by the checksum field. *)
Lemma generate_eval g :
  generate now g
  = (_ <- requiredFields g ;;
     _ <- checkLength (identityTag g) (encode (identityFields g)) ;;
     _ <- match amount g with Some a => checkLength (js "54") a | None => Ok tt end ;;
     _ <- checkLength (js "62") (encode (additionalFields g)) ;;
     Ok (resultOf now g (encode (topLevelFields now g)))).
Proof using Hnow.
  unfold generate, requiredFields.
  destruct (truthy (bakongAccountId g)); cbn [negb]; [|reflexivity].
  destruct (truthy (merchantName g)); cbn [negb]; [|reflexivity].
  set (chk := match merchantType g with merchant => _ | individual => _ end).
  destruct chk as [[]|e]; cbn [bind]; [|reflexivity].
  rewrite (tlv_ok (js "00") (js "01")) by (reflexivity || (vm_compute; discriminate)).
  cbn [plusEq bind app].
  rewrite (tlv_ok (js "01")) by (reflexivity || (destruct (isStatic g); vm_compute; discriminate)).
  cbn [plusEq bind].
  rewrite plusEqIf_trunc by (reflexivity || lia). cbn [bind].
  rewrite identityTemplate_eval.
  destruct (checkLength (identityTag g) (encode (identityFields g))) as [[]|e];
    cbn [plusEq bind]; [|reflexivity].
  rewrite (tlv_ok (js "52")) by (reflexivity || (vm_compute; discriminate)).
  cbn [plusEq bind].
  rewrite (tlv_ok (js "53")) by (reflexivity || (destruct (currency g); vm_compute; discriminate)).
  cbn [plusEq bind].
  pose proof (truncUtf8_bound (str (merchantName g)) 25 ltac:(lia)) as Hname.
  pose proof (truncUtf8_bound (match merchantCity g with [] => js "Phnom Penh" | c => c end) 15
                ltac:(lia)) as Hcity.
  pose proof timestamp_bytes as Hts.
  assert (Htail : forall payload,
    (payload0 <- plusEq payload (tlv (js "58") (js "KH")) ;;
     payload1 <- plusEq payload0 (tlv (js "59") (truncUtf8 (str (merchantName g)) 25)) ;;
     payload2 <- plusEq payload1
                   (tlv (js "60")
                      (truncUtf8 (match merchantCity g with [] => js "Phnom Penh" | c => c end) 15)) ;;
     t62 <- additionalData (truncOpt (billNumber g) 25) (truncOpt (mobileNumber g) 25)
              (truncOpt (storeLabel g) 25) (truncOpt (terminalLabel g) 25)
              (truncOpt (purposeOfTransaction g) 25) ;;
     payload3 <- plusEqTemplate payload2 (js "62") t62 ;;
     t64 <- alternateLanguage (truncOpt (merchantAlternateLanguagePreference g) 2)
              (truncOpt (merchantNameAlternateLanguage g) 25)
              (truncOpt (merchantCityAlternateLanguage g) 15) ;;
     payload4 <- plusEqTemplate payload3 (js "64") t64 ;;
     payload5 <- (if truthy (if isStatic g then None else Some (intToString 10 now))
                  then t99 <- tlv (js "00") (str (if isStatic g then None
                                                   else Some (intToString 10 now))) ;;
                       plusEq payload4 (tlv (js "99") t99)
                  else Ok payload4) ;;
     Ok {| qr := (payload5 ++ js "6304") ++ crc16CcittFalseHex (payload5 ++ js "6304");
           timestamp := if isStatic g then None else Some (intToString 10 now);
           type := merchantType g;
           md5 := Md5Hex (utf8Encode ((payload5 ++ js "6304")
                                      ++ crc16CcittFalseHex (payload5 ++ js "6304"))) |})
    = (_ <- checkLength (js "62") (encode (additionalFields g)) ;;
       Ok (resultOf now g
             (payload
              ++ encode ([(js "58", js "KH");
                          (js "59", truncUtf8 (str (merchantName g)) 25);
                          (js "60", truncUtf8 (match merchantCity g with
                                               | [] => js "Phnom Penh" | c => c end) 15)]
                         ++ template (js "62") (additionalFields g)
                         ++ template (js "64") (alternateFields g)
                         ++ timestampFields now g))))).
  { intros payload.
    rewrite (tlv_ok (js "58")) by (reflexivity || (vm_compute; discriminate)).
    cbn [plusEq bind].
    rewrite (tlv_ok (js "59")) by (reflexivity || lia). cbn [plusEq bind].
    rewrite (tlv_ok (js "60")) by (reflexivity || lia). cbn [plusEq bind].
    rewrite additionalData_eval. cbn [bind].
    rewrite plusEqTemplate_eval by reflexivity.
    destruct (checkLength (js "62") (encode (additionalFields g))) as [[]|e];
      cbn [bind]; [|reflexivity].
    rewrite alternateLanguage_eval. cbn [bind].
    rewrite plusEqTemplate_eval by reflexivity.
    rewrite checkLength_ok by (pose proof (alternateFields_bytes g); lia).
    cbn [bind]. unfold resultOf, withChecksum, timestampFields.
    destruct (isStatic g).
    - cbn [truthy bind]. rewrite !encode_app, app_nil_r.
      rewrite !encode_cons. change (encode []) with (@nil Z).
      rewrite <- !app_assoc. reflexivity.
    - assert (Hne : truthy (Some (intToString 10 now)) = true).
      { unfold intToString. destruct (now <? 0); [reflexivity|].
        simpl. destruct (now <? 10); [reflexivity|].
        destruct (digitsRadix _ _ _); reflexivity. }
      rewrite Hne.
      change (str (Some (intToString 10 now))) with (intToString 10 now).
      rewrite (tlv_ok (js "00")) by (reflexivity || lia). cbn [bind].
      rewrite (tlv_ok (js "99")).
      2: reflexivity.
      2:{ rewrite utf8ByteLength_field by (reflexivity || lia). lia. }
      cbn [plusEq bind]. rewrite !encode_app, !encode_cons.
      change (encode []) with (@nil Z).
      rewrite <- !app_assoc, ?app_nil_r. reflexivity. }
  unfold topLevelFields, amountFields.
  destruct (amount g) as [a|].
  - rewrite (tlv_check (js "54")) by reflexivity. unfold plusEq at 1.
    destruct (checkLength (js "54") a) as [[]|e]; cbn [bind]; [|reflexivity].
    rewrite Htail.
    destruct (checkLength (js "62") (encode (additionalFields g))) as [[]|e];
      cbn [bind]; [|reflexivity].
    do 2 f_equal. rewrite !encode_app, !encode_cons.
    change (encode []) with (@nil Z). rewrite <- !app_assoc, ?app_nil_r. reflexivity.
  - cbn [bind]. rewrite Htail.
    destruct (checkLength (js "62") (encode (additionalFields g))) as [[]|e];
      cbn [bind]; [|reflexivity].
    do 2 f_equal. rewrite !encode_app, !encode_cons.
    change (encode []) with (@nil Z). rewrite <- !app_assoc, ?app_nil_r. reflexivity.
Qed.

(** ** Success and failure of [generate] *)

Lemma checkLength_inv tag value :
  (checkLength tag value = Ok tt /\ utf8ByteLength value <= 99)
  \/ (checkLength tag value = Err (ValueTooLong tag (utf8ByteLength value))
      /\ 99 < utf8ByteLength value).
Proof.
  unfold checkLength. destruct (Z.ltb_spec 99 (utf8ByteLength value)); [right | left];
    split; (reflexivity || lia).
Qed.

Lemma generate_succeeds g :
  requiredFields g = Ok tt ->
  utf8ByteLength (encode (identityFields g)) <= 99 ->
  amountFits g ->
  utf8ByteLength (encode (additionalFields g)) <= 99 ->
  generate now g = Ok (resultOf now g (encode (topLevelFields now g))).
Proof using Hnow.
  intros Hreq Hid Hamt Hadd. rewrite generate_eval.
  rewrite Hreq. cbn [bind]. rewrite checkLength_ok by exact Hid. cbn [bind].
  unfold amountFits in Hamt. destruct (amount g) as [a|].
  - rewrite checkLength_ok by exact Hamt. cbn [bind].
    rewrite checkLength_ok by exact Hadd. reflexivity.
  - cbn [bind]. rewrite checkLength_ok by exact Hadd. reflexivity.
Qed.

Lemma generate_ok g r :
  generate now g = Ok r ->
  requiredFields g = Ok tt
  /\ utf8ByteLength (encode (identityFields g)) <= 99
  /\ amountFits g
  /\ utf8ByteLength (encode (additionalFields g)) <= 99
  /\ r = resultOf now g (encode (topLevelFields now g)).
Proof using Hnow.
  intros H. rewrite generate_eval in H.
  destruct (requiredFields g) as [[]|e]; [|discriminate]. cbn [bind] in H.
  destruct (checkLength_inv (identityTag g) (encode (identityFields g))) as [[E Hid]|[E _]];
    rewrite E in H; [|discriminate]. cbn [bind] in H.
  unfold amountFits. destruct (amount g) as [a|].
  - destruct (checkLength_inv (js "54") a) as [[E1 Ha]|[E1 _]];
      rewrite E1 in H; [|discriminate]. cbn [bind] in H.
    destruct (checkLength_inv (js "62") (encode (additionalFields g))) as [[E2 Hadd]|[E2 _]];
      rewrite E2 in H; [|discriminate]. cbn [bind] in H.
    injection H as <-. repeat split; assumption.
  - cbn [bind] in H.
    destruct (checkLength_inv (js "62") (encode (additionalFields g))) as [[E2 Hadd]|[E2 _]];
      rewrite E2 in H; [|discriminate]. cbn [bind] in H.
    injection H as <-. repeat split; assumption.
Qed.

Lemma generate_err g e :
  requiredFields g = Ok tt -> generate now g = Err e ->
  (e = ValueTooLong (identityTag g) (utf8ByteLength (encode (identityFields g)))
   /\ 99 < utf8ByteLength (encode (identityFields g)))
  \/ (exists a, amount g = Some a /\ e = ValueTooLong (js "54") (utf8ByteLength a)
                /\ 99 < utf8ByteLength a)
  \/ (e = ValueTooLong (js "62") (utf8ByteLength (encode (additionalFields g)))
      /\ 99 < utf8ByteLength (encode (additionalFields g))).
Proof using Hnow.
  intros Hreq H. rewrite generate_eval in H.
  rewrite Hreq in H. cbn [bind] in H.
  destruct (checkLength_inv (identityTag g) (encode (identityFields g))) as [[E Hid]|[E Hid]];
    rewrite E in H; cbn [bind] in H.
  2:{ left. injection H as <-. split; [reflexivity | exact Hid]. }
  right.
  destruct (amount g) as [a|].
  - destruct (checkLength_inv (js "54") a) as [[E1 Ha]|[E1 Ha]];
      rewrite E1 in H; cbn [bind] in H.
    2:{ left. exists a. injection H as <-. repeat split. exact Ha. }
    right.
    destruct (checkLength_inv (js "62") (encode (additionalFields g))) as [[E2 Hadd]|[E2 Hadd]];
      rewrite E2 in H; cbn [bind] in H; [discriminate|].
    injection H as <-. split; [reflexivity | exact Hadd].
  - cbn [bind] in H. right.
    destruct (checkLength_inv (js "62") (encode (additionalFields g))) as [[E2 Hadd]|[E2 Hadd]];
      rewrite E2 in H; cbn [bind] in H; [discriminate|].
    injection H as <-. split; [reflexivity | exact Hadd].
Qed.

Lemma identityTag_test g : test_d2 (identityTag g) = true.
Proof. unfold identityTag. destruct (merchantType g); reflexivity. Qed.

Lemma template_valid tag fs :
  test_d2 tag = true -> utf8ByteLength (encode fs) <= 99 ->
  Forall validField (template tag fs).
Proof.
  intros Ht Hl. unfold template. destruct (encode fs) as [|u t]; repeat constructor; assumption.
Qed.

Lemma timestampFields_valid g : Forall validField (timestampFields now g).
Proof using Hnow.
  unfold timestampFields. destruct (isStatic g); repeat constructor.
  simpl. rewrite encode_one.
  pose proof timestamp_bytes.
  rewrite utf8ByteLength_field by (reflexivity || lia). lia.
Qed.

Lemma topLevelFields_valid g :
  utf8ByteLength (encode (identityFields g)) <= 99 ->
  amountFits g ->
  utf8ByteLength (encode (additionalFields g)) <= 99 ->
  Forall validField (topLevelFields now g).
Proof using Hnow.
  intros Hid Hamt Hadd. unfold topLevelFields.
  pose proof (truncUtf8_bound (str (merchantName g)) 25 ltac:(lia)) as Hname.
  pose proof (truncUtf8_bound (match merchantCity g with [] => js "Phnom Penh" | c => c end) 15
                ltac:(lia)) as Hcity.
  split_fields.
  - constructor; [split; [reflexivity | vm_compute; discriminate]|].
    constructor; [|constructor].
    split; [reflexivity | destruct (isStatic g); vm_compute; discriminate].
  - apply optField_valid; (reflexivity || lia).
  - constructor; [|constructor]. split; [apply identityTag_test | exact Hid].
  - constructor; [split; [reflexivity | vm_compute; discriminate]|].
    constructor; [|constructor].
    split; [reflexivity | destruct (currency g); vm_compute; discriminate].
  - unfold amountFields. unfold amountFits in Hamt.
    destruct (amount g); constructor; [|constructor]. split; [reflexivity | exact Hamt].
  - constructor; [split; [reflexivity | vm_compute; discriminate]|].
    constructor; [split; [reflexivity | cbn [snd]; lia]|].
    constructor; [split; [reflexivity | cbn [snd]; lia]|constructor].
  - apply template_valid; [reflexivity | exact Hadd].
  - apply template_valid; [reflexivity | pose proof (alternateFields_bytes g); lia].
  - apply timestampFields_valid.
Qed.

End ClockInRange.

(** ** Verification of an assembled payload *)

Lemma lastIndexOf_from_found (s needle : jsstring) (k j : nat) :
  (j <= k)%nat ->
  startsWith (drop j s) needle = true ->
  (forall i, (j < i <= k)%nat -> startsWith (drop i s) needle = false) ->
  lastIndexOf_from s needle k = Z.of_nat j.
Proof.
  induction k as [|k IH]; intros Hj Hat Hafter.
  - assert (j = 0%nat) as -> by lia. cbn [lastIndexOf_from].
    change (drop 0 s) with s in Hat. rewrite Hat. reflexivity.
  - cbn [lastIndexOf_from].
    destruct (Nat.eq_dec j (S k)) as [->|Hne].
    + rewrite Hat. reflexivity.
    + rewrite Hafter by lia. apply IH; [lia | exact Hat |].
      intros i Hi. apply Hafter. lia.
Qed.

Lemma bool_decide_eqb (a b : jsstring) : eqb a b = bool_decide (a = b).
Proof. reflexivity. Qed.

(** [verifyCrc] on a payload followed by its checksum field: the answer is
    [true] unless the four checksum characters are themselves "6304". *)
Lemma verifyCrc_withChecksum (payload : jsstring) :
  verifyCrc (withChecksum payload)
  = negb (eqb (crc16CcittFalseHex (payload ++ js "6304")) (js "6304")).
Proof.
  unfold withChecksum.
  pose proof (crc16CcittFalseHex_length (payload ++ js "6304")) as Hlen.
  remember (crc16CcittFalseHex (payload ++ js "6304")) as crc eqn:Hcrc.
  destruct crc as [|c1 [|c2 [|c3 [|c4 [|? ?]]]]]; try discriminate Hlen. clear Hlen.
  set (n := length payload).
  assert (Hqr : (payload ++ js "6304") ++ [c1; c2; c3; c4]
                = payload ++ 54 :: 51 :: 48 :: 52 :: [c1; c2; c3; c4]).
  { rewrite <- app_assoc. reflexivity. }
  assert (Hdrop : forall k, drop (n + k) ((payload ++ js "6304") ++ [c1; c2; c3; c4])
                            = drop k (54 :: 51 :: 48 :: 52 :: [c1; c2; c3; c4])).
  { intros k. rewrite Hqr. unfold n. rewrite <- drop_drop, drop_app_length. reflexivity. }
  assert (Hl : length ((payload ++ js "6304") ++ [c1; c2; c3; c4]) = (n + 8)%nat).
  { rewrite Hqr, length_app. reflexivity. }
  unfold verifyCrc, lastIndexOf. rewrite Hl.
  destruct (Nat.ltb_spec (n + 8) (length (js "6304"))) as [Hlt|_];
    [simpl in Hlt; lia|].
  replace (n + 8 - length (js "6304"))%nat with (n + 4)%nat by (simpl; lia).
  destruct (decide ([c1; c2; c3; c4] = js "6304")) as [Heq|Hne].
  - (* the checksum reads "6304": the search stops inside the checksum field *)
    replace (eqb [c1; c2; c3; c4] (js "6304")) with true
      by (symmetry; apply bool_decide_eq_true; exact Heq).
    rewrite (lastIndexOf_from_found _ _ (n + 4) (n + 4)); [|lia| |intros; lia].
    2:{ rewrite Hdrop. rewrite Heq. reflexivity. }
    destruct (Z.ltb_spec (Z.of_nat (n + 4)) 0); [lia|].
    rewrite slice_take_drop by lia.
    rewrite drop_ge by (rewrite Hl; lia). rewrite take_nil. reflexivity.
  - replace (eqb [c1; c2; c3; c4] (js "6304")) with false
      by (symmetry; apply bool_decide_eq_false; exact Hne).
    cbn [negb].
    rewrite (lastIndexOf_from_found _ _ (n + 4) n); [|lia| |].
    2:{ rewrite <- (Nat.add_0_r n), Hdrop. reflexivity. }
    2:{ intros i Hi.
        assert (Hc : i = (n + 1)%nat \/ i = (n + 2)%nat \/ i = (n + 3)%nat \/ i = (n + 4)%nat)
          by lia.
        destruct Hc as [-> | [-> | [-> | ->]]]; rewrite Hdrop; try reflexivity.
        change (js "6304") with [54; 51; 48; 52]. cbn [drop startsWith].
        destruct (Z.eqb_spec c1 54); [|reflexivity].
        destruct (Z.eqb_spec c2 51); [|reflexivity].
        destruct (Z.eqb_spec c3 48); [|reflexivity].
        destruct (Z.eqb_spec c4 52); [|reflexivity].
        subst. exfalso. apply Hne. reflexivity. }
    destruct (Z.ltb_spec (Z.of_nat n) 0); [lia|].
    assert (Hprov : slice ((payload ++ js "6304") ++ [c1; c2; c3; c4])
                      (Z.of_nat n + 4) (Z.of_nat n + 8) = [c1; c2; c3; c4]).
    { rewrite Hqr. replace (Z.of_nat n + 8) with (Z.of_nat n + 4 + 4) by lia.
      unfold n. rewrite (slice_from payload _ 4 4) by lia. reflexivity. }
    rewrite Hprov. cbn [length Nat.eqb negb].
    assert (Hin : slice ((payload ++ js "6304") ++ [c1; c2; c3; c4]) 0 (Z.of_nat n + 4)
                  = payload ++ js "6304").
    { rewrite slice_take_drop by lia. cbn [Z.to_nat drop].
      replace (Z.to_nat (Z.of_nat n + 4 - 0)) with (length (payload ++ js "6304"))
        by (rewrite length_app; unfold n; simpl; lia).
      apply take_app_length. }
    rewrite Hin, <- Hcrc.
    unfold eqb. apply bool_decide_eq_true. reflexivity.
Qed.

Lemma bind_Ok {A B} (r : result A) (k : A -> result B) (b : B) :
  bind r k = Ok b -> exists a, r = Ok a /\ k a = Ok b.
Proof. destruct r as [a|e]; simpl; [eauto | discriminate]. Qed.

(** Whatever the clock shows, a successful [generate] returns some payload
    followed by "6304" and the checksum of everything before. *)
Lemma generate_qr_shape now g r :
  generate now g = Ok r -> exists payload, qr r = withChecksum payload.
Proof.
  intros H. unfold generate in H. cbv zeta in H.
  destruct (negb (truthy (bakongAccountId g))); [discriminate|].
  destruct (negb (truthy (merchantName g))); [discriminate|].
  repeat (apply bind_Ok in H; destruct H as (? & _ & H)).
  injection H as <-. eexists. reflexivity.
Qed.

Lemma withChecksum_last4 payload :
  drop (length (withChecksum payload) - 4) (withChecksum payload)
  = crc16CcittFalseHex (payload ++ js "6304").
Proof.
  unfold withChecksum. rewrite length_app, crc16CcittFalseHex_length.
  replace (length (payload ++ js "6304") + 4 - 4)%nat with (length (payload ++ js "6304"))
    by lia.
  apply drop_app_length.
Qed.

(** How far the round trip holds.  The payload returned by a successful
    [generate] passes [verify] exactly when its four checksum characters do
    not read "6304": [lastIndexOf] then finds the prefix of the checksum
    field, as [verifyCrc] means it to. *)
Theorem generate_then_verify (now : Z) (g : KHQRGenerator) (r : GenerateResult) :
  generate now g = Ok r ->
  verify (qr r) = negb (eqb (drop (length (qr r) - 4) (qr r)) (js "6304")).
Proof.
  intros H. destruct (generate_qr_shape now g r H) as [payload ->].
  rewrite withChecksum_last4. apply verifyCrc_withChecksum.
Qed.

Lemma generate_then_verify_witness :
  exists r,
    generate 1700000000000
      (setMerchantName (js "John Smith")
         (setBakongAccountId (js "john_smith@devb") (new individual))) = Ok r
    /\ verify (qr r) = negb (eqb (drop (length (qr r) - 4) (qr r)) (js "6304"))
    /\ verify (qr r) = true.
Proof.
  eexists. split; [vm_compute; reflexivity|].
  split.
  - apply (generate_then_verify 1700000000000
             (setMerchantName (js "John Smith")
                (setBakongAccountId (js "john_smith@devb") (new individual)))).
    vm_compute. reflexivity.
  - vm_compute. reflexivity.
Defined.

(** C1.  A defect of [verifyCrc]: the round trip that the tests of the
    module expect does not hold on every payload.  The static payload of
    the individual account "john_smith@devb" named "Shop 22148" has the
    checksum "6304"; [generate] succeeds, the payload ends in "63046304",
    the search for the last "6304" lands on the checksum instead of the
    prefix of the checksum field, no character follows it, and [verify]
    rejects what [generate] returned. *)
Lemma generate_then_verify_fails :
  match generate 0
          (setMerchantName (js "Shop 22148")
             (setBakongAccountId (js "john_smith@devb") (setStatic true (new individual))))
  with
  | Ok r =>
      qr r = js "00020101021129190015john_smith@devb5204599953031165802KH5910Shop 221486010Phnom Penh63046304"
      /\ verify (qr r) = false
  | Err _ => False
  end.
Proof. vm_compute. split; reflexivity. Qed.

(** ** Reading a payload as a sequence of fields *)

Lemma utf8ByteLength_pos u (s : jsstring) : 0 < utf8ByteLength (u :: s).
Proof.
  unfold utf8ByteLength.
  assert (H : forall cp (l : list Z), (0 < length (utf8OfCodePoint cp ++ l))%nat).
  { intros cp l. unfold utf8OfCodePoint. repeat (destruct (_ <? _)); simpl; lia. }
  assert (Hr : forall l : list Z, (0 < length (replacementBytes ++ l))%nat).
  { intros l. simpl. lia. }
  cbn [utf8Encode].
  destruct (isHighSurrogate u).
  - destruct s as [|x s]; [simpl; lia|].
    destruct (isLowSurrogate x); [specialize (H (65536 + (u - 55296) * 1024 + (x - 56320)) (utf8Encode s)) | specialize (Hr (utf8Encode (x :: s)))]; lia.
  - destruct (isLowSurrogate u); [specialize (Hr (utf8Encode s)) | specialize (H u (utf8Encode s))]; lia.
Qed.

(** Two texts of the same UTF-8 length in front of continuations that do
    not start with a low surrogate are the same text. *)
Lemma app_same_bytes (a b x y : jsstring) :
  a ++ x = b ++ y -> noLowStart x -> noLowStart y ->
  utf8ByteLength a = utf8ByteLength b -> a = b /\ x = y.
Proof.
  revert b. induction a as [|u a IH]; intros b Heq Hx Hy Hlen.
  - destruct b as [|v b]; [split; [reflexivity | exact Heq]|].
    exfalso. simpl in Heq. subst x.
    pose proof (utf8ByteLength_app (v :: b) y Hy) as Happ.
    pose proof (utf8ByteLength_pos v b). pose proof (utf8ByteLength_nonneg y).
    change (utf8ByteLength []) with 0 in Hlen. lia.
  - destruct b as [|v b].
    + exfalso. simpl in Heq. subst y.
      pose proof (utf8ByteLength_pos u a).
      change (utf8ByteLength []) with 0 in Hlen. lia.
    + injection Heq as -> Heq.
      assert (Hab : a = b /\ x = y); [|destruct Hab as [-> ->]; split; reflexivity].
      (* compare through the common string: both are prefixes of it *)
      destruct (decide (a = b)) as [->|Hne].
      { split; [reflexivity|]. exact (app_inv_head _ _ _ Heq). }
      exfalso.
      assert (Hpre : exists w, w <> [] /\ ((b = a ++ w /\ x = w ++ y) \/ (a = b ++ w /\ y = w ++ x))).
      { clear -Heq Hne. revert b Heq Hne. induction a as [|c a IHa]; intros b Heq Hne.
        - destruct b as [|d b]; [contradiction|]. exists (d :: b). split; [discriminate|].
          left. split; [reflexivity | exact Heq].
        - destruct b as [|d b].
          + exists (c :: a). split; [discriminate|]. right. split; [reflexivity|].
            symmetry. exact Heq.
          + injection Heq as -> Heq.
            destruct (IHa b Heq) as (w & Hw & Hc); [congruence|].
            exists w. split; [exact Hw|].
            destruct Hc as [[-> ->]|[-> ->]]; [left | right]; split; reflexivity. }
      destruct Hpre as (w & Hw & [[-> ->]|[-> ->]]).
      * destruct w as [|c w]; [contradiction|].
        assert (Hnl : noLowStart (c :: w)) by exact Hx.
        change (v :: a ++ c :: w) with ((v :: a) ++ c :: w) in Hlen.
        rewrite (utf8ByteLength_app (v :: a) (c :: w) Hnl) in Hlen.
        pose proof (utf8ByteLength_pos c w). lia.
      * destruct w as [|c w]; [contradiction|].
        assert (Hnl : noLowStart (c :: w)) by exact Hy.
        change (v :: b ++ c :: w) with ((v :: b) ++ c :: w) in Hlen.
        rewrite (utf8ByteLength_app (v :: b) (c :: w) Hnl) in Hlen.
        pose proof (utf8ByteLength_pos c w). lia.
Qed.

Lemma twoDigits_inj n m :
  0 <= n <= 99 -> 0 <= m <= 99 -> twoDigits n = twoDigits m -> n = m.
Proof.
  intros Hn Hm H. rewrite <- (twoDigits_value n Hn), <- (twoDigits_value m Hm), H.
  reflexivity.
Qed.

(** A text is the encoding of at most one list of valid fields. *)
Lemma encode_unique fs gs :
  Forall validField fs -> Forall validField gs -> encode fs = encode gs -> fs = gs.
Proof.
  intros Hfs. revert gs. induction Hfs as [|[t v] fs [Ht Hv] Hfs IH]; intros gs Hgs Heq.
  - destruct Hgs as [|[t' v'] gs [Ht' _] _]; [reflexivity|].
    exfalso. cbn [fst snd] in *. rewrite encode_cons in Heq.
    destruct t' as [|a [|b [|c t']]]; simpl in Ht'; discriminate.
  - destruct Hgs as [|[t' v'] gs [Ht' Hv'] Hgs].
    + exfalso. cbn [fst snd] in *. rewrite encode_cons in Heq.
      destruct t as [|a [|b [|c t]]]; simpl in Ht; discriminate.
    + cbn [fst snd] in *. rewrite !encode_cons in Heq.
      destruct t as [|a [|b [|c t]]]; simpl in Ht; try discriminate.
      destruct t' as [|a' [|b' [|c' t']]]; simpl in Ht'; try discriminate.
      unfold field, twoDigits in Heq. simpl in Heq.
      injection Heq as -> -> Hd1 Hd2 Heq.
      pose proof (utf8ByteLength_nonneg v). pose proof (utf8ByteLength_nonneg v').
      assert (Hlen : utf8ByteLength v = utf8ByteLength v').
      { apply twoDigits_inj; [lia|lia|]. unfold twoDigits. congruence. }
      destruct (app_same_bytes v v' (encode fs) (encode gs) Heq) as [-> Hrest].
      * apply encode_noLow, valid_wellTagged, Hfs.
      * apply encode_noLow, valid_wellTagged, Hgs.
      * exact Hlen.
      * f_equal. apply IH; assumption.
Qed.

(** ** The timestamp template *)

Lemma intToString_decimalText n : decimalText (intToString 10 n).
Proof.
  unfold intToString, decimalText. destruct (Z.ltb_spec n 0).
  - change (45 =? 45) with true. cbv iota beta zeta.
    split; [apply digitsRadix_nonempty | apply digitsRadix_decimal; lia].
  - pose proof (digitsRadix_nonempty (Z.to_nat (Z.log2 n)) 10 n) as Hne.
    pose proof (digitsRadix_decimal (S (Z.to_nat (Z.log2 n))) n H) as Hd.
    destruct (digitsRadix (S (Z.to_nat (Z.log2 n))) 10 n) as [|u ds]; [contradiction|].
    inversion Hd as [|? ? Hu Hds]; subst.
    unfold isDigit in Hu. apply andb_true_iff in Hu as [Hu _]. apply Z.leb_le in Hu.
    destruct (Z.eqb_spec u 45); [lia|]. cbv zeta. split; [discriminate | exact Hd].
Qed.

Lemma topLevelFields_body now g :
  topLevelFields now g = bodyFields g ++ timestampFields now g.
Proof. unfold topLevelFields, bodyFields. rewrite <- !app_assoc. reflexivity. Qed.

Lemma bodyFields_no_timestamp g : Forall (fun f => f.1 <> js "99") (bodyFields g).
Proof.
  unfold bodyFields, optField, template, amountFields, identityTag.
  split_fields; case_presence; repeat constructor; simpl; discriminate.
Qed.

Lemma withChecksum_inj p p' : withChecksum p = withChecksum p' -> p = p'.
Proof.
  unfold withChecksum. intros H.
  apply app_inj_2 in H; [|rewrite !crc16CcittFalseHex_length; reflexivity].
  destruct H as [H _]. apply app_inj_2 in H; [|reflexivity]. apply H.
Qed.

(** C7.  A successful [generate] returns the top-level fields in order,
    followed by the checksum field, and no other list of fields has this
    encoding.  In static mode none of the fields has tag "99" and the
    returned timestamp is null; in dynamic mode the fields other than the
    last have no tag "99", the last one is tag "99" whose value is the
    encoding of the single sub-field "00" carrying the decimal text of the
    clock (which reads back as the clock value), and that text is the
    returned timestamp. *)
Theorem timestamp_field_by_mode (now : Z) (g : KHQRGenerator) (r : GenerateResult) :
  timeValue now ->
  generate now g = Ok r ->
  let ts := intToString 10 now in
  let fields :=
    bodyFields g ++ (if isStatic g then [] else [(js "99", field (js "00") ts)]) in
  qr r = withChecksum (encode fields)
  /\ Forall validField fields
  /\ (forall fs, Forall validField fs -> qr r = withChecksum (encode fs) -> fs = fields)
  /\ Forall (fun f => f.1 <> js "99") (bodyFields g)
  /\ timestamp r = (if isStatic g then None else Some ts)
  /\ decimalText ts
  /\ (if 0 <=? now then Num.digitsValue ts = now else True)
  /\ tlv (js "00") ts = Ok (field (js "00") ts).
Proof.
  intros Hnow H ts fields.
  destruct (generate_ok now Hnow g r H) as (Hreq & Hid & Hamt & Hadd & ->).
  assert (Hf : topLevelFields now g = fields).
  { rewrite topLevelFields_body. unfold fields, timestampFields.
    destruct (isStatic g); [reflexivity|]. rewrite encode_one. reflexivity. }
  pose proof (topLevelFields_valid now Hnow g Hid Hamt Hadd) as Hvalid.
  rewrite Hf in *.
  split; [reflexivity|]. split; [exact Hvalid|].
  split.
  { intros fs Hfs Hqr. simpl in Hqr. apply withChecksum_inj in Hqr.
    apply encode_unique; [exact Hfs | exact Hvalid | symmetry; exact Hqr]. }
  split; [apply bodyFields_no_timestamp|].
  split; [reflexivity|].
  split; [apply intToString_decimalText|].
  split; [destruct (Z.leb_spec 0 now); [apply intToString_value; assumption | exact I]|].
  apply tlv_ok; [reflexivity|]. pose proof (timestamp_bytes now Hnow). unfold ts. lia.
Qed.

Lemma timestamp_field_by_mode_witness :
  exists r,
    generate 1700000000000
      (setMerchantName (js "John Smith")
         (setBakongAccountId (js "john_smith@devb") (new individual))) = Ok r
    /\ timestamp r = Some (js "1700000000000")
    /\ qr r = js "00020101021229190015john_smith@devb5204599953031165802KH5910John Smith6010Phnom Penh99170013170000000000063042FDF".
Proof.
  pose (g := setMerchantName (js "John Smith")
               (setBakongAccountId (js "john_smith@devb") (new individual))).
  assert (Hnow : timeValue 1700000000000) by (unfold timeValue; lia).
  assert (Hgen : generate 1700000000000 g
                 = Ok (resultOf 1700000000000 g (encode (topLevelFields 1700000000000 g))))
    by (vm_compute; reflexivity).
  destruct (timestamp_field_by_mode 1700000000000 g _ Hnow Hgen)
    as (Hqr & _ & _ & _ & Hts & _).
  eexists. split; [exact Hgen|]. split; [exact Hts|].
  rewrite Hqr. vm_compute. reflexivity.
Defined.

(** ** Where the length check of the encoder can fail *)

Lemma optField_leaf tag x n m :
  0 <= n <= m -> Forall (fun f => utf8ByteLength f.2 <= m) (optField tag (truncOpt x n)).
Proof.
  intros Hn. unfold optField. destruct (truthy (truncOpt x n)); repeat constructor.
  cbn [snd]. pose proof (str_truncOpt_bound x n). lia.
Qed.

Lemma leaf_values_bound g :
  Forall (fun f => utf8ByteLength f.2 <= 32)
    (identityFields g ++ additionalFields g ++ alternateFields g).
Proof.
  pose proof (truncUtf8_bound (str (bakongAccountId g)) 32 ltac:(lia)).
  pose proof (str_truncOpt_bound (merchantId g) 32 ltac:(lia)).
  pose proof (str_truncOpt_bound (acquiringBank g) 32 ltac:(lia)).
  unfold identityFields, additionalFields, alternateFields.
  split_fields; try (apply optField_leaf; lia).
  destruct (merchantType g).
  - split_fields; try (apply optField_leaf; lia).
    constructor; [assumption | constructor].
  - constructor; [assumption|]. constructor; [assumption|].
    constructor; [assumption | constructor].
Qed.

(** C2, as the code has it.  Once the required fields are present, no
    truncated free-text value exceeds its budget (32 bytes at most), the
    alternate-language template holds at most 54 bytes, and the length check
    of the encoder can fail in three places only: on the identity template
    (tag 29 or 30), on the amount (tag 54) and on the additional-data
    template (tag 62).  Assembly succeeds exactly when these three fit in 99
    bytes. *)
Theorem value_too_long_reachability (now : Z) (g : KHQRGenerator) :
  timeValue now ->
  requiredFields g = Ok tt ->
  Forall (fun f => utf8ByteLength f.2 <= 32)
    (identityFields g ++ additionalFields g ++ alternateFields g)
  /\ utf8ByteLength (encode (alternateFields g)) <= 54
  /\ ((exists r, generate now g = Ok r)
      <-> utf8ByteLength (encode (identityFields g)) <= 99
          /\ amountFits g
          /\ utf8ByteLength (encode (additionalFields g)) <= 99)
  /\ (forall e, generate now g = Err e ->
        exists tag len,
          e = ValueTooLong tag len /\ 99 < len
          /\ In tag [js "29"; js "30"; js "54"; js "62"]).
Proof.
  intros Hnow Hreq.
  split; [apply leaf_values_bound|].
  split; [apply alternateFields_bytes|].
  split.
  - split.
    + intros [r Hr]. destruct (generate_ok now Hnow g r Hr) as (_ & Hid & Hamt & Hadd & _).
      repeat split; assumption.
    + intros (Hid & Hamt & Hadd). eexists.
      apply generate_succeeds; assumption.
  - intros e He.
    destruct (generate_err now Hnow g e Hreq He) as [[-> Hl]|[(a & _ & -> & Hl)|[-> Hl]]].
    + do 2 eexists. split; [reflexivity|]. split; [exact Hl|].
      unfold identityTag. destruct (merchantType g); simpl; tauto.
    + do 2 eexists. split; [reflexivity|]. split; [exact Hl|]. simpl; tauto.
    + do 2 eexists. split; [reflexivity|]. split; [exact Hl|]. simpl; tauto.
Qed.

Lemma value_too_long_reachability_witness :
  (exists r,
     generate 0
       (setAcquiringBank (js "Dev Bank")
          (setMerchantId (js "YOUR_MERCHANT_ID")
             (setMerchantName (js "Dev Store")
                (setBakongAccountId (js "dev_merchant@devb") (new merchant))))) = Ok r)
  /\ utf8ByteLength
       (encode (identityFields
          (setAcquiringBank (js "Dev Bank")
             (setMerchantId (js "YOUR_MERCHANT_ID")
                (setMerchantName (js "Dev Store")
                   (setBakongAccountId (js "dev_merchant@devb") (new merchant))))))) <= 99.
Proof.
  pose (g := setAcquiringBank (js "Dev Bank")
               (setMerchantId (js "YOUR_MERCHANT_ID")
                  (setMerchantName (js "Dev Store")
                     (setBakongAccountId (js "dev_merchant@devb") (new merchant))))).
  assert (Hnow : timeValue 0) by (unfold timeValue; lia).
  assert (Hreq : requiredFields g = Ok tt) by reflexivity.
  destruct (value_too_long_reachability 0 g Hnow Hreq) as (_ & _ & Hiff & _).
  assert (Hfit : utf8ByteLength (encode (identityFields g)) <= 99
                 /\ amountFits g
                 /\ utf8ByteLength (encode (additionalFields g)) <= 99).
  { split; [vm_compute; discriminate|]. split; [exact I|]. vm_compute; discriminate. }
  split; [apply Hiff; exact Hfit | apply Hfit].
Defined.

(** C2, as the specification words it, fails: a merchant configuration with
    all required fields, whose account id, merchant id and bank name take 32
    bytes each, has an identity template of 3 * (4 + 32) = 108 bytes, and
    [generate] throws the length error of the encoder for tag "30". *)
Lemma value_too_long_is_reachable :
  requiredFields
    (setAcquiringBank (js "Acquiring Bank of Phnom Penh Plc")
       (setMerchantId (js "M0000000000000000000000000000001")
          (setMerchantName (js "Dev Store")
             (setBakongAccountId (js "merchant_account_0123456789@devb")
                (new merchant))))) = Ok tt
  /\ generate 0
       (setAcquiringBank (js "Acquiring Bank of Phnom Penh Plc")
          (setMerchantId (js "M0000000000000000000000000000001")
             (setMerchantName (js "Dev Store")
                (setBakongAccountId (js "merchant_account_0123456789@devb")
                   (new merchant)))))
     = Err (ValueTooLong (js "30") 108).
Proof. split; vm_compute; reflexivity. Qed.

(** ** Required fields *)

Lemma requiredFields_generate now g e :
  requiredFields g = Err e -> generate now g = Err e.
Proof.
  unfold requiredFields, generate.
  destruct (negb (truthy (bakongAccountId g))); [congruence|].
  destruct (negb (truthy (merchantName g))); [congruence|].
  destruct (merchantType g); [discriminate|].
  destruct (negb (truthy (merchantId g))); [intros [= <-]; reflexivity|].
  destruct (negb (truthy (acquiringBank g))); [intros [= <-]; reflexivity|discriminate].
Qed.

Lemma individual_identity_bytes g :
  merchantType g = individual -> truthy (acquiringBank g) = false ->
  utf8ByteLength (encode (identityFields g)) <= 72.
Proof.
  intros Hty Hbank. unfold identityFields. rewrite Hty.
  unfold truncOpt at 2. rewrite Hbank.
  change (optField (js "02") None) with (@nil (jsstring * jsstring)).
  rewrite app_nil_r, encode_app, encode_one.
  pose proof (truncUtf8_bound (str (bakongAccountId g)) 32 ltac:(lia)).
  pose proof (utf8ByteLength_nonneg (truncUtf8 (str (bakongAccountId g)) 32)).
  rewrite utf8ByteLength_app
    by (apply encode_noLow, valid_wellTagged, optField_valid; (reflexivity || lia)).
  rewrite utf8ByteLength_field by (reflexivity || lia).
  pose proof (optField_bytes (js "01") (accountInformation g) 32 eq_refl ltac:(lia)).
  lia.
Qed.

(** C6, as the code has it.  With the account id and the display name
    present: a merchant configuration without merchant id fails naming the
    merchant id; one that has the merchant id and lacks the acquiring bank
    fails naming the bank; an individual configuration never fails for a
    missing field, and with merchant id and bank absent it succeeds whenever
    the amount and the additional-data template fit in 99 bytes. *)
Theorem required_fields_by_variant (now : Z) (g : KHQRGenerator) :
  timeValue now ->
  truthy (bakongAccountId g) = true ->
  truthy (merchantName g) = true ->
  match merchantType g with
  | merchant =>
      (truthy (merchantId g) = false ->
       generate now g = Err (MissingRequiredField MerchantID))
      /\ (truthy (merchantId g) = true -> truthy (acquiringBank g) = false ->
          generate now g = Err (MissingRequiredField AcquiringBank))
  | individual =>
      (forall f, generate now g <> Err (MissingRequiredField f))
      /\ (truthy (merchantId g) = false -> truthy (acquiringBank g) = false ->
          amountFits g ->
          utf8ByteLength (encode (additionalFields g)) <= 99 ->
          exists r, generate now g = Ok r)
  end.
Proof.
  intros Hnow Hacct Hname.
  destruct (merchantType g) eqn:Hty.
  - assert (Hreq : requiredFields g = Ok tt).
    { unfold requiredFields. rewrite Hacct, Hname, Hty. reflexivity. }
    split.
    + intros f Hf.
      destruct (generate_err now Hnow g _ Hreq Hf) as [[E _]|[(a & _ & E & _)|[E _]]];
        discriminate E.
    + intros _ Hbank Hamt Hadd. eexists.
      apply generate_succeeds; try assumption.
      pose proof (individual_identity_bytes g Hty Hbank). lia.
  - split.
    + intros Hid. apply requiredFields_generate.
      unfold requiredFields. rewrite Hacct, Hname, Hty, Hid. reflexivity.
    + intros Hid Hbank. apply requiredFields_generate.
      unfold requiredFields. rewrite Hacct, Hname, Hty, Hid, Hbank. reflexivity.
Qed.

Lemma required_fields_by_variant_witness :
  generate 0 (setMerchantName (js "Dev Store")
                (setBakongAccountId (js "dev_merchant@devb") (new merchant)))
  = Err (MissingRequiredField MerchantID)
  /\ generate 0 (setMerchantId (js "YOUR_MERCHANT_ID")
                   (setMerchantName (js "Dev Store")
                      (setBakongAccountId (js "dev_merchant@devb") (new merchant))))
     = Err (MissingRequiredField AcquiringBank)
  /\ exists r, generate 0 (setMerchantName (js "John Smith")
                             (setBakongAccountId (js "john_smith@devb") (new individual)))
               = Ok r.
Proof.
  assert (Hnow : timeValue 0) by (unfold timeValue; lia).
  split; [|split].
  - apply (required_fields_by_variant 0
             (setMerchantName (js "Dev Store")
                (setBakongAccountId (js "dev_merchant@devb") (new merchant)))
             Hnow eq_refl eq_refl).
    reflexivity.
  - apply (required_fields_by_variant 0
             (setMerchantId (js "YOUR_MERCHANT_ID")
                (setMerchantName (js "Dev Store")
                   (setBakongAccountId (js "dev_merchant@devb") (new merchant))))
             Hnow eq_refl eq_refl); reflexivity.
  - apply (required_fields_by_variant 0
             (setMerchantName (js "John Smith")
                (setBakongAccountId (js "john_smith@devb") (new individual)))
             Hnow eq_refl eq_refl);
      [reflexivity | reflexivity | exact I | vm_compute; discriminate].
Defined.

(** C6, as the specification words it, fails in its last part: an
    individual configuration with account id and display name, no merchant
    id and no bank, and four additional-data fields of 25 bytes each does
    not succeed; the additional-data template takes 4 * (4 + 25) = 116
    bytes and [generate] throws the length error of the encoder. *)
Lemma individual_without_bank_can_fail :
  generate 0
    (setTerminalLabel (js "terminal-0000000000000001")
       (setStoreLabel (js "store-0000000000000000001")
          (setMobileNumber (js "0000000000000000085512345")
             (setBillNumber (js "INV-000000000000000000001")
                (setMerchantName (js "John Smith")
                   (setBakongAccountId (js "john_smith@devb") (new individual)))))))
  = Err (ValueTooLong (js "62") 116).
Proof. vm_compute. reflexivity. Qed.

(** ** Amounts *)

Lemma dropZeros_spec (r : jsstring) :
  exists k, r = replicate k 48 ++ dropZeros r
            /\ (forall u r', dropZeros r = u :: r' -> u <> 48).
Proof.
  induction r as [|u r (k & Hk & Hhd)].
  - exists 0%nat. split; [reflexivity | discriminate].
  - cbn [dropZeros]. destruct (Z.eqb_spec u 48) as [->|Hne].
    + exists (S k). split; [simpl; f_equal; exact Hk | exact Hhd].
    + exists 0%nat. split; [reflexivity|]. intros v r' [= <- _]. exact Hne.
Qed.

Lemma rev_replicate (k : nat) (x : Z) : rev (replicate k x) = replicate k x.
Proof.
  induction k as [|k IH]; [reflexivity|].
  simpl. rewrite IH. clear IH. induction k as [|k IH]; [reflexivity|].
  simpl. f_equal. exact IH.
Qed.

Lemma stripped_spec (s : jsstring) :
  strippedOf s (match stripTrailingDot (stripTrailingZeros s) with
                | [] => js "0"
                | u :: t => u :: t
                end).
Proof.
  unfold stripTrailingZeros.
  destruct (dropZeros_spec (rev s)) as (k & Hk & Hhd).
  set (s1 := rev (dropZeros (rev s))).
  assert (Hs : s = s1 ++ Num.zeros (Z.of_nat k)).
  { unfold s1, Num.zeros. rewrite Nat2Z.id.
    rewrite <- (rev_involutive s) at 1. rewrite Hk at 1.
    rewrite rev_app_distr, rev_replicate. reflexivity. }
  assert (Hno0 : ~ endsWith s1 48).
  { intros [b Hb]. unfold s1 in Hb.
    apply (f_equal (@rev Z)) in Hb. rewrite rev_involutive, rev_app_distr in Hb.
    simpl in Hb. exact (Hhd _ _ Hb eq_refl). }
  unfold stripTrailingDot.
  destruct (rev s1) as [|u r] eqn:Hrev.
  - assert (s1 = []) as Hnil.
    { rewrite <- (rev_involutive s1), Hrev. reflexivity. }
    rewrite Hnil. exists (Z.of_nat k), [], []. rewrite Hnil in Hs.
    repeat split; try assumption; try lia.
    + intros [b Hb]. destruct b; discriminate.
    + right. split; [reflexivity|]. intros [b Hb]. destruct b; discriminate.
  - assert (Hs1 : s1 = rev r ++ [u]).
    { rewrite <- (rev_involutive s1), Hrev. reflexivity. }
    destruct (Z.eqb_spec u 46) as [->|Hne].
    + exists (Z.of_nat k), s1, (rev r). repeat split; try assumption; try lia.
      * left. exact Hs1.
      * destruct (rev r); reflexivity.
    + exists (Z.of_nat k), s1, s1. repeat split; try assumption; try lia.
      * right. split; [reflexivity|]. intros [b Hb]. rewrite Hs1 in Hb.
        apply app_inj_tail in Hb. destruct Hb as [_ Hb]. contradiction.
      * destruct s1; reflexivity.
Qed.

Lemma spanDigits_digits s : Forall (fun u => isDigit u = true) (Num.spanDigits s).1.
Proof.
  induction s as [|u s IH]; simpl; [constructor|].
  destruct (isDigit u) eqn:Hu; [|constructor].
  destruct (Num.spanDigits s) as [ds r]. simpl in *. constructor; assumption.
Qed.

Lemma digitsValue_nonneg ds :
  Forall (fun u => isDigit u = true) ds -> 0 <= Num.digitsValue ds.
Proof.
  unfold Num.digitsValue.
  assert (H : forall acc, 0 <= acc -> Forall (fun u => isDigit u = true) ds ->
                0 <= fold_left (fun acc d => 10 * acc + (d - 48)) ds acc).
  { induction ds as [|d ds IH]; intros acc Hacc Hds; simpl; [exact Hacc|].
    inversion Hds as [|? ? Hd Hds']; subst. apply IH; [|exact Hds'].
    unfold isDigit in Hd. apply andb_true_iff in Hd as [Hd _]. apply Z.leb_le in Hd. lia. }
  apply H. lia.
Qed.

Lemma parseDecimal_nonneg s p ex : Num.parseDecimal s = Some (p, ex) -> 0 <= p.
Proof.
  unfold Num.parseDecimal.
  pose proof (spanDigits_digits s) as Hip.
  destruct (Num.spanDigits s) as [ip r1]. cbn [fst] in Hip.
  destruct ip as [|d ip]; [discriminate|].
  set (fr := match r1 with
             | c :: r => if c =? 46 then Num.spanDigits r else ([], r1)
             | [] => ([], r1)
             end).
  assert (Hfp : Forall (fun u => isDigit u = true) fr.1).
  { unfold fr. destruct r1 as [|c r]; [constructor|].
    destruct (c =? 46); [apply spanDigits_digits | constructor]. }
  destruct fr as [fp r2]. cbn [fst] in Hfp.
  assert (Hm : 0 <= Num.digitsValue ((d :: ip) ++ fp)).
  { apply digitsValue_nonneg. apply Forall_app. split; assumption. }
  destruct r2 as [|c r3]; [intros [= <- _]; exact Hm|].
  destruct ((c =? 101) || (c =? 69)); [|discriminate].
  destruct (match r3 with
            | c' :: r => if c' =? 45 then (true, r)
                         else if c' =? 43 then (false, r) else (false, r3)
            | [] => (false, r3)
            end) as [neg r4].
  destruct (Num.spanDigits r4) as [ed r5].
  destruct ed; [discriminate|]. destruct r5; [|discriminate].
  intros [= <- _]. exact Hm.
Qed.

Lemma roundToDouble_nonneg p q neg m e :
  0 <= p -> 0 < q -> Num.roundToDouble p q = Num.Fin neg m e -> neg = false /\ 0 <= m.
Proof.
  intros Hp Hq. unfold Num.roundToDouble.
  destruct (p =? 0); [intros [= <- <- _]; split; [reflexivity | lia]|].
  set (l := Z.log2 p - Z.log2 q).
  set (e0 := if (if 0 <=? l then q * 2 ^ l <=? p else q <=? p * 2 ^ (- l)) then l else l - 1).
  set (ex := Z.max (e0 - 52) (-1074)).
  assert (Hnd : forall num den,
             (if 0 <=? ex then (p, q * 2 ^ ex) else (p * 2 ^ (- ex), q)) = (num, den) ->
             0 <= num /\ 0 < den).
  { intros num den. destruct (Z.leb_spec 0 ex); intros [= <- <-].
    - split; [lia|]. apply Z.mul_pos_pos; [lia|]. apply Z.pow_pos_nonneg; lia.
    - split; [|lia]. apply Z.mul_nonneg_nonneg; [lia|]. apply Z.pow_nonneg. lia. }
  destruct (if 0 <=? ex then (p, q * 2 ^ ex) else (p * 2 ^ (- ex), q)) as [num den].
  destruct (Hnd num den eq_refl) as [Hnum Hden].
  assert (Hfl : 0 <= num / den) by (apply Z.div_pos; lia).
  set (m0 := if 2 * (num mod den) <? den then num / den
             else if den <? 2 * (num mod den) then num / den + 1
                  else if Z.even (num / den) then num / den else num / den + 1).
  assert (Hm0 : 0 <= m0).
  { unfold m0. repeat (destruct (_ <? _)); try lia. destruct (Z.even _); lia. }
  destruct (m0 =? 2 ^ 53).
  - destruct (971 <? ex + 1); [discriminate|]. intros [= <- <- _].
    split; [reflexivity|]. apply Z.pow_nonneg. lia.
  - destruct (971 <? ex); [discriminate|]. intros [= <- <- _].
    split; [reflexivity | exact Hm0].
Qed.

Lemma ofString_nonneg s neg m e :
  Num.ofString s = Num.Fin neg m e -> neg = false /\ 0 <= m.
Proof.
  unfold Num.ofString. destruct (Num.parseDecimal s) as [[p ex]|] eqn:Hp; [|discriminate].
  apply parseDecimal_nonneg in Hp.
  destruct (Z.leb_spec 0 ex); apply roundToDouble_nonneg; try lia;
    try (apply Z.mul_nonneg_nonneg; [lia|]; apply Z.pow_nonneg; lia);
    try (apply Z.pow_pos_nonneg; lia).
Qed.

Lemma fraction_pos m e p q : 0 <= m -> Num.fraction m e = (p, q) -> 0 <= p /\ 0 < q.
Proof.
  intros Hm. unfold Num.fraction. destruct (Z.leb_spec 0 e); intros [= <- <-].
  - split; [|lia]. apply Z.mul_nonneg_nonneg; [lia|]. apply Z.pow_nonneg. lia.
  - split; [lia|]. apply Z.pow_pos_nonneg; lia.
Qed.

Lemma toFixed2_twoDecimals m e :
  0 <= m -> Num.atLeast1e21 m e = false -> twoDecimals (Num.toFixed2 (Num.Fin false m e)).
Proof.
  intros Hm Hlt. unfold Num.toFixed2. rewrite Hlt. cbn [andb app].
  destruct (Num.fraction m e) as [p q] eqn:Hf.
  destruct (fraction_pos m e p q Hm Hf) as [Hp Hq].
  assert (Hfl : 0 <= p * 100 / q) by (apply Z.div_pos; lia).
  set (n := if 2 * ((p * 100) mod q) <? q then p * 100 / q else p * 100 / q + 1).
  assert (Hn : 0 <= n) by (unfold n; destruct (_ <? _); lia).
  set (ms := padStart (if n =? 0 then js "0" else Num.decimal n) 3 48).
  assert (Hlen : (3 <= length ms)%nat).
  { unfold ms. rewrite length_padStart. lia. }
  assert (Hdig : Forall (fun u => isDigit u = true) ms).
  { unfold ms, padStart. apply Forall_app. split.
    - apply Forall_replicate. reflexivity.
    - destruct (n =? 0); [repeat constructor|].
      apply intToString_decimal. exact Hn. }
  destruct (drop (length ms - 2) ms) as [|d1 [|d2 [|? ?]]] eqn:Hd;
    pose proof (f_equal (@length Z) Hd) as Hl; rewrite length_drop in Hl; simpl in Hl;
    try lia.
  exists (take (length ms - 2) ms), d1, d2.
  split; [reflexivity|]. split.
  - intros Hnil. apply (f_equal (@length Z)) in Hnil. rewrite length_take in Hnil.
    simpl in Hnil. lia.
  - rewrite <- Hd, take_drop. exact Hdig.
Qed.

Lemma decimal_small n : 0 <= n < 10 -> Num.decimal n = [48 + n].
Proof.
  intros Hn. unfold Num.decimal, intToString. destruct (Z.ltb_spec n 0); [lia|].
  cbn [digitsRadix]. destruct (Z.ltb_spec n 10); [|lia].
  unfold digitUnit. destruct (Z.ltb_spec n 10); [reflexivity | lia].
Qed.

Lemma decimal_step n :
  10 <= n -> Num.decimal n = Num.decimal (n / 10) ++ [48 + n mod 10].
Proof.
  intros Hn. unfold Num.decimal, intToString.
  assert (Hq : 1 <= n / 10) by zdiv.
  destruct (Z.ltb_spec n 0); [lia|]. destruct (Z.ltb_spec (n / 10) 0); [lia|].
  cbn [digitsRadix]. destruct (Z.ltb_spec n 10); [lia|].
  pose proof (Z.log2_spec n ltac:(lia)) as [Hlo Hhi].
  pose proof (Z.log2_spec (n / 10) ltac:(lia)) as [Hlo' Hhi'].
  pose proof (Z.log2_nonneg (n / 10)) as Hnn.
  assert (Hlog : Z.log2 (n / 10) < Z.log2 n).
  { apply Z.log2_lt_pow2; [lia|].
    rewrite Z.pow_succ_r in Hhi by apply Z.log2_nonneg. zdiv. }
  f_equal.
  - replace (Z.to_nat (Z.log2 n)) with (S (Z.to_nat (Z.log2 n) - 1)) by lia.
    symmetry. apply digitsRadix_enough; [lia| |lia].
    split; [lia|]. rewrite Nat2Z.inj_succ, Z2Nat.id by exact Hnn. exact Hhi'.
  - unfold digitUnit. destruct (Z.ltb_spec (n mod 10) 10); [reflexivity | zdiv].
Qed.

(** The digits [toFixed] cuts in two: the integer part and two decimals. *)
Lemma padded_decimal N :
  0 <= N ->
  padStart (if N =? 0 then js "0" else Num.decimal N) 3 48
  = Num.decimal (N / 100) ++ twoDigits (N mod 100).
Proof.
  intros HN. unfold twoDigits, padStart.
  destruct (Z.lt_ge_cases N 10) as [H10|H10];
    [|destruct (Z.lt_ge_cases N 100) as [H100|H100]].
  - replace (N / 100) with 0 by zdiv. replace (N mod 100) with N by zdiv.
    replace (N / 10) with 0 by zdiv. replace (N mod 10) with N by zdiv.
    rewrite (decimal_small 0) by lia.
    assert (E : (if N =? 0 then js "0" else Num.decimal N) = [48 + N]).
    { destruct (Z.eqb_spec N 0) as [->|_]; [reflexivity | apply decimal_small; lia]. }
    rewrite E. reflexivity.
  - replace (N / 100) with 0 by zdiv. replace (N mod 100) with N by zdiv.
    rewrite (decimal_small 0) by lia.
    destruct (Z.eqb_spec N 0); [lia|].
    rewrite (decimal_step N H10), (decimal_small (N / 10)) by zdiv. reflexivity.
  - destruct (Z.eqb_spec N 0); [lia|].
    rewrite (decimal_step N) by lia. rewrite (decimal_step (N / 10)) by zdiv.
    replace (N / 10 / 10) with (N / 100) by zdiv.
    replace ((N mod 100) / 10) with ((N / 10) mod 10) by zdiv.
    replace ((N mod 100) mod 10) with (N mod 10) by zdiv.
    assert (Hl : (1 <= length (Num.decimal (N / 100)))%nat).
    { unfold Num.decimal, intToString.
      destruct (Z.ltb_spec (N / 100) 0); [zdiv|].
      pose proof (digitsRadix_nonempty (Z.to_nat (Z.log2 (N / 100))) 10 (N / 100)) as Hne.
      destruct (digitsRadix (S (Z.to_nat (Z.log2 (N / 100)))) 10 (N / 100));
        [contradiction | simpl; lia]. }
    rewrite !length_app. cbn [length].
    replace (3 - (length (Num.decimal (N / 100)) + 1 + 1))%nat with 0%nat by lia.
    cbn [replicate app]. rewrite <- !app_assoc. reflexivity.
Qed.

(** Below 10^21 [toFixed(2)] prints the hundredth nearest to the value. *)
Lemma toFixed2_value m e :
  0 <= m -> Num.atLeast1e21 m e = false ->
  exists N, nearestHundredth m e N
            /\ Num.toFixed2 (Num.Fin false m e) = twoDecimalText N.
Proof.
  intros Hm Hlt. unfold Num.toFixed2, nearestHundredth. rewrite Hlt. cbn [andb app].
  destruct (Num.fraction m e) as [p q] eqn:Hf.
  destruct (fraction_pos m e p q Hm Hf) as [Hp Hq].
  pose proof (Z.div_mod (p * 100) q ltac:(lia)) as Hdm.
  pose proof (Z.mod_pos_bound (p * 100) q Hq) as Hr.
  assert (Hfl : 0 <= p * 100 / q) by (apply Z.div_pos; lia).
  set (n := if 2 * ((p * 100) mod q) <? q then p * 100 / q else p * 100 / q + 1).
  assert (Hn : 0 <= n) by (unfold n; destruct (_ <? _); lia).
  exists n. split.
  - unfold n. destruct (Z.ltb_spec (2 * ((p * 100) mod q)) q); nia.
  - rewrite (padded_decimal n Hn). unfold twoDecimalText.
    rewrite length_app.
    replace (length (Num.decimal (n / 100)) + length (twoDigits (n mod 100)) - 2)%nat
      with (length (Num.decimal (n / 100))) by (unfold twoDigits; simpl; lia).
    rewrite take_app_length, drop_app_length. reflexivity.
Qed.

Lemma toFixed2_large m e :
  Num.atLeast1e21 m e = true -> 0 <= m ->
  Num.toFixed2 (Num.Fin false m e) = Num.toString (Num.Fin false m e).
Proof.
  intros Hge Hm. unfold Num.toFixed2, Num.toString. rewrite Hge. cbn [andb app].
  destruct (Z.eqb_spec m 0) as [->|_]; [|reflexivity].
  exfalso. unfold Num.atLeast1e21, Num.fraction in Hge.
  destruct (Z.leb_spec 0 e); apply Z.leb_le in Hge.
  - lia.
  - assert (0 < 2 ^ (- e)) by (apply Z.pow_pos_nonneg; lia). lia.
Qed.

(** What [normalizeAmountString] returns, by currency. *)
Lemma normalizeAmountString_format s c :
  match c with
  | USD =>
      if below1e21 (Num.ofString s) then twoDecimals (normalizeAmountString s USD)
      else normalizeAmountString s USD = Num.toString (Num.ofString s)
  | KHR =>
      if includes s (js ".") then strippedOf s (normalizeAmountString s KHR)
      else normalizeAmountString s KHR = s
  end.
Proof.
  destruct c.
  - unfold normalizeAmountString. destruct (includes s (js ".")); cbn [negb]; [|reflexivity].
    pose proof (stripped_spec s) as H.
    destruct (stripTrailingDot (stripTrailingZeros s)); exact H.
  - unfold normalizeAmountString, below1e21.
    destruct (Num.ofString s) as [|neg|neg m e] eqn:Hx; try reflexivity.
    destruct (ofString_nonneg s neg m e Hx) as [-> Hm].
    destruct (Num.atLeast1e21 m e) eqn:Hge; cbn [negb].
    + apply toFixed2_large; assumption.
    + apply toFixed2_twoDecimals; assumption.
Qed.

Lemma setAmount_amount v g g' :
  setAmount v g = Ok g' ->
  amount g' = Some (normalizeAmountString (amountText v) (currency g)).
Proof.
  unfold setAmount.
  assert (Hn : forall x, normalizeAmount v (currency g) = Ok x ->
                 x = normalizeAmountString (amountText v) (currency g)).
  { intros x. unfold normalizeAmount, amountText. destruct v as [s|y].
    - destruct (negb (isNumericText (trim s))); [discriminate|]. intros [= <-]. reflexivity.
    - destruct (negb (Num.isFinite y)); [discriminate|].
      destruct (Num.isNegative y); [discriminate|]. intros [= <-]. reflexivity. }
  destruct (normalizeAmount v (currency g)) as [x|e]; [|discriminate].
  cbn [bind]. rewrite <- (Hn x eq_refl). destruct g. intros [= <-]. reflexivity.
Qed.

Lemma amount_field_position now g a :
  amount g = Some a ->
  exists pre post,
    topLevelFields now g = pre ++ (js "54", a) :: post
    /\ Forall (fun f => f.1 <> js "54") (pre ++ post).
Proof.
  intros Ha.
  exists ([(js "00", js "01"); (js "01", if isStatic g then js "11" else js "12")]
          ++ optField (js "15") (truncOpt (upiAccountInformation g) 31)
          ++ [(identityTag g, encode (identityFields g))]
          ++ [(js "52", js "5999");
              (js "53", match currency g with KHR => js "116" | USD => js "840" end)]),
         ([(js "58", js "KH");
           (js "59", truncUtf8 (str (merchantName g)) 25);
           (js "60", truncUtf8 (match merchantCity g with
                                | [] => js "Phnom Penh" | c => c end) 15)]
          ++ template (js "62") (additionalFields g)
          ++ template (js "64") (alternateFields g)
          ++ timestampFields now g).
  split.
  - unfold topLevelFields, amountFields. rewrite Ha. rewrite <- !app_assoc. reflexivity.
  - unfold optField, template, timestampFields, identityTag.
    split_fields; case_presence; repeat constructor; simpl; discriminate.
Qed.

(** C4, as the code has it by design.  The amount is normalised by
    [setAmount] for the currency configured at that moment, and any later
    assembly encodes that text as the value of tag "54", whatever the
    currency is by then.  For the amounts covered (in riel a plain decimal
    text, in dollars a value below 10^21): in dollars the text is the
    hundredth nearest to the double-precision value of the amount (the
    larger of two nearest), written with exactly two decimal places; in riel
    a text without a point is kept as it is, and one with a point loses its
    trailing zeros and then a trailing point, "0" standing for an empty
    rest. *)
Theorem amount_field_format
    (g g' g2 : KHQRGenerator) (v : AmountArg) (now : Z) (r : GenerateResult) :
  setAmount v g = Ok g' ->
  coveredAmount (currency g) v ->
  amount g2 = amount g' ->
  timeValue now ->
  generate now g2 = Ok r ->
  exists a pre post,
    amount g' = Some a
    /\ match currency g with
       | USD =>
           exists m e N,
             Num.ofString (amountText v) = Num.Fin false m e
             /\ nearestHundredth m e N
             /\ a = twoDecimalText N
             /\ twoDecimals a
       | KHR =>
           if includes (amountText v) (js ".") then strippedOf (amountText v) a
           else a = amountText v
       end
    /\ qr r = withChecksum (encode (pre ++ (js "54", a) :: post))
    /\ Forall validField (pre ++ (js "54", a) :: post)
    /\ Forall (fun f => f.1 <> js "54") (pre ++ post).
Proof.
  intros Hset Hcov Hsame Hnow Hgen.
  pose proof (setAmount_amount v g g' Hset) as Ha.
  rewrite Ha in Hsame.
  destruct (amount_field_position now g2 _ Hsame) as (pre & post & Htop & Hno).
  destruct (generate_ok now Hnow g2 r Hgen) as (_ & Hid & Hamt & Hadd & ->).
  pose proof (topLevelFields_valid now Hnow g2 Hid Hamt Hadd) as Hvalid.
  rewrite Htop in Hvalid.
  exists (normalizeAmountString (amountText v) (currency g)), pre, post.
  split; [exact Ha|].
  split.
  { destruct (currency g).
    - exact (normalizeAmountString_format (amountText v) KHR).
    - cbn [coveredAmount] in Hcov. cbn [normalizeAmountString].
      destruct (Num.ofString (amountText v)) as [| |neg m e] eqn:Hx;
        try discriminate Hcov.
      destruct (ofString_nonneg _ _ _ _ Hx) as [-> Hm].
      cbn [below1e21] in Hcov. apply negb_true_iff in Hcov.
      destruct (toFixed2_value m e Hm Hcov) as (N & Hnear & Htext).
      exists m, e, N. split; [reflexivity|]. split; [exact Hnear|].
      split; [exact Htext|]. apply toFixed2_twoDecimals; assumption. }
  split; [cbn [qr resultOf]; rewrite Htop; reflexivity|].
  split; assumption.
Qed.

Lemma amount_field_format_witness :
  exists g g' r,
    setCurrency (js "USD")
      (setMerchantName (js "John Smith")
         (setBakongAccountId (js "john_smith@devb") (setStatic true (new individual))))
    = Ok g
    /\ setAmount (AmountText (js "12.5")) g = Ok g'
    /\ generate 0 g' = Ok r
    /\ amount g' = Some (js "12.50")
    /\ qr r = js "00020101021129190015john_smith@devb520459995303840540512.505802KH5910John Smith6010Phnom Penh63047608".
Proof.
  pose (g0 := setMerchantName (js "John Smith")
                (setBakongAccountId (js "john_smith@devb") (setStatic true (new individual)))).
  pose (g := match setCurrency (js "USD") g0 with Ok x => x | Err _ => g0 end).
  pose (g' := match setAmount (AmountText (js "12.5")) g with Ok x => x | Err _ => g end).
  pose (r := match generate 0 g' with
             | Ok x => x
             | Err _ => resultOf 0 g' []
             end).
  assert (Hnow : timeValue 0) by (unfold timeValue; lia).
  assert (Hcur : setCurrency (js "USD") g0 = Ok g) by (vm_compute; reflexivity).
  assert (Hset : setAmount (AmountText (js "12.5")) g = Ok g') by (vm_compute; reflexivity).
  assert (Hcov : coveredAmount (currency g) (AmountText (js "12.5")))
    by (vm_compute; reflexivity).
  assert (Hgen : generate 0 g' = Ok r) by (vm_compute; reflexivity).
  destruct (amount_field_format g g' g' (AmountText (js "12.5")) 0 r
              Hset Hcov eq_refl Hnow Hgen)
    as (a & pre & post & Ha & Hfmt & _).
  exists g, g', r. split; [exact Hcur|]. split; [exact Hset|]. split; [exact Hgen|].
  split; vm_compute; reflexivity.
Defined.

(** C4, as the specification words it, fails.  An amount set before the
    currency keeps the form of the currency in force when it was set:
    [setAmount("1.50")] under the default KHR stores "1.5", and after
    [setCurrency("USD")] the payload announces currency 840 with the amount
    "1.5", which does not have two decimal places. *)
Lemma amount_keeps_earlier_currency_format :
  match setAmount (AmountText (js "1.50"))
          (setMerchantName (js "John Smith")
             (setBakongAccountId (js "john_smith@devb") (setStatic true (new individual))))
  with
  | Ok g1 =>
      match setCurrency (js "USD") g1 with
      | Ok g2 =>
          currency g2 = USD
          /\ amount g2 = Some (js "1.5")
          /\ match generate 0 g2 with
             | Ok r =>
                 qr r = js "00020101021129190015john_smith@devb52045999530384054031.55802KH5910John Smith6010Phnom Penh6304737E"
             | Err _ => False
             end
      | Err _ => False
      end
  | Err _ => False
  end
  /\ ~ twoDecimals (js "1.5").
Proof.
  split; [vm_compute; repeat split; reflexivity|].
  intros (ip & d1 & d2 & E & Hne & _).
  apply (f_equal (@length Z)) in E. rewrite length_app in E.
  destruct ip; [contradiction | simpl in E; lia].
Qed.

(** * Further properties of the code *)

(** ** Truncation and byte lengths *)

(** X1.  With a budget that is not negative, the truncated text fits the
    budget, and nothing is cut off exactly when the text fits already. *)
Theorem truncUtf8_within_budget (s : jsstring) (n : Z) :
  0 <= n ->
  utf8ByteLength (truncUtf8 s n) <= n
  /\ (truncUtf8 s n = s <-> utf8ByteLength s <= n).
Proof.
  intros Hn. pose proof (truncUtf8_bound s n Hn) as Hb.
  split; [exact Hb|]. split.
  - intros E. rewrite E in Hb. exact Hb.
  - intros Hs. unfold truncUtf8. destruct (Z.leb_spec (utf8ByteLength s) n); [reflexivity|lia].
Qed.

Lemma truncUtf8_within_budget_witness :
  utf8ByteLength (truncUtf8 [6016; 6070; 6048; 6098] 10) <= 10
  /\ (truncUtf8 [6016; 6070; 6048; 6098] 10 = [6016; 6070; 6048; 6098]
      <-> utf8ByteLength [6016; 6070; 6048; 6098] <= 10).
Proof. apply (truncUtf8_within_budget [6016; 6070; 6048; 6098] 10). lia. Defined.

Lemma truncUtf8_loop_stop chs maxBytes out :
  truncUtf8_loop chs maxBytes out = out ++ concat chs
  \/ exists pre ch post,
       chs = pre ++ ch :: post
       /\ truncUtf8_loop chs maxBytes out = out ++ concat pre
       /\ maxBytes < utf8ByteLength ((out ++ concat pre) ++ ch).
Proof.
  revert out. induction chs as [|ch chs IH]; intros out; cbn [truncUtf8_loop concat].
  - left. rewrite app_nil_r. reflexivity.
  - destruct (Z.ltb_spec maxBytes (utf8ByteLength (out ++ ch))) as [Hgt|Hle].
    + right. exists [], ch, chs. cbn [concat app]. rewrite app_nil_r.
      repeat split. exact Hgt.
    + destruct (IH (out ++ ch)) as [E|(pre & c & post & -> & E & Hgt)].
      * left. rewrite E, <- app_assoc. reflexivity.
      * right. exists (ch :: pre), c, post. cbn [concat app].
        split; [reflexivity|]. split.
        -- rewrite E, <- app_assoc. reflexivity.
        -- rewrite (app_assoc out ch (concat pre)). exact Hgt.
Qed.

(** X2.  The truncated text is made of whole characters of the text, taken
    from its start: either everything is kept, or the text is cut between
    two items of the string iterator (never inside a surrogate pair) and
    the next character would exceed the budget. *)
Theorem truncUtf8_longest_prefix (s : jsstring) (n : Z) :
  truncUtf8 s n = s
  \/ exists pre ch post,
       codePoints s = pre ++ ch :: post
       /\ truncUtf8 s n = concat pre
       /\ s = concat pre ++ ch ++ concat post
       /\ n < utf8ByteLength (concat pre ++ ch).
Proof.
  unfold truncUtf8. destruct (utf8ByteLength s <=? n); [left; reflexivity|].
  destruct (truncUtf8_loop_stop (codePoints s) n []) as [E|(pre & ch & post & Hs & E & Hgt)].
  - left. rewrite E, codePoints_concat. reflexivity.
  - right. exists pre, ch, post. cbn [app] in E, Hgt.
    split; [exact Hs|]. split; [exact E|]. split; [|exact Hgt].
    rewrite <- (codePoints_concat s) at 1. rewrite Hs, concat_app. reflexivity.
Qed.

Lemma codePoints_ascii s : asciiText s -> codePoints s = map (fun u => [u]) s.
Proof.
  induction 1 as [|u s Hu Hs IH]; [reflexivity|].
  destruct s as [|x s]; [reflexivity|].
  rewrite codePoints_cons2.
  assert (isHighSurrogate u = false) as ->.
  { unfold isHighSurrogate. destruct (Z.leb_spec 55296 u); [lia | reflexivity]. }
  cbn [andb]. rewrite IH. reflexivity.
Qed.

Lemma utf8ByteLength_ascii s : asciiText s -> utf8ByteLength s = Z.of_nat (length s).
Proof. intros H. unfold utf8ByteLength. rewrite utf8Encode_ascii by exact H. reflexivity. Qed.

Lemma truncUtf8_loop_ascii rest n out :
  asciiText rest -> asciiText out -> Z.of_nat (length out) <= n ->
  truncUtf8_loop (map (fun u => [u]) rest) n out
  = out ++ take (Z.to_nat n - length out) rest.
Proof.
  intros Hrest. revert out. induction Hrest as [|u rest Hu Hrest IH]; intros out Hout Hlen.
  - cbn [map truncUtf8_loop]. rewrite take_nil, app_nil_r. reflexivity.
  - cbn [map truncUtf8_loop].
    assert (Hnext : asciiText (out ++ [u])).
    { apply Forall_app. split; [exact Hout | constructor; [exact Hu | constructor]]. }
    rewrite (utf8ByteLength_ascii _ Hnext), length_app. cbn [length].
    destruct (Z.ltb_spec n (Z.of_nat (length out + 1))).
    + replace (Z.to_nat n - length out)%nat with 0%nat by lia.
      cbn [take]. rewrite app_nil_r. reflexivity.
    + rewrite IH; [|exact Hnext|rewrite length_app; cbn [length]; lia].
      rewrite length_app. cbn [length]. rewrite <- app_assoc. f_equal.
      replace (Z.to_nat n - length out)%nat with (S (Z.to_nat n - (length out + 1)))%nat by lia.
      reflexivity.
Qed.

(** X3.  On ASCII text a byte is a character: truncation keeps the first
    [n] characters. *)
Theorem truncUtf8_ascii (s : jsstring) (n : Z) :
  asciiText s -> 0 <= n -> truncUtf8 s n = take (Z.to_nat n) s.
Proof.
  intros Hs Hn. unfold truncUtf8. rewrite (utf8ByteLength_ascii s Hs).
  destruct (Z.leb_spec (Z.of_nat (length s)) n).
  - rewrite take_ge by lia. reflexivity.
  - rewrite (codePoints_ascii s Hs).
    rewrite truncUtf8_loop_ascii; [|exact Hs|constructor|simpl; lia].
    cbn [app length]. rewrite Nat.sub_0_r. reflexivity.
Qed.

Lemma truncUtf8_ascii_witness :
  truncUtf8 (js "Phnom Penh International") 15 = take (Z.to_nat 15) (js "Phnom Penh International").
Proof.
  apply (truncUtf8_ascii (js "Phnom Penh International") 15); [|lia].
  unfold asciiText. repeat constructor.
Defined.

Lemma utf8OfCodePoint_length cp :
  (1 <= length (utf8OfCodePoint cp) <= 4)%nat
  /\ (cp < 65536 -> (length (utf8OfCodePoint cp) <= 3)%nat)
  /\ (65536 <= cp -> length (utf8OfCodePoint cp) = 4%nat).
Proof.
  unfold utf8OfCodePoint.
  destruct (Z.ltb_spec cp 128); [simpl; lia|].
  destruct (Z.ltb_spec cp 2048); [simpl; lia|].
  destruct (Z.ltb_spec cp 65536); simpl; lia.
Qed.

(** X4.  The UTF-8 length of a text lies between its number of code units
    and three times that number. *)
Theorem utf8ByteLength_bounds (s : jsstring) :
  codeUnits s ->
  Z.of_nat (length s) <= utf8ByteLength s <= 3 * Z.of_nat (length s).
Proof.
  intros Hs. unfold utf8ByteLength.
  assert (H : (length s <= length (utf8Encode s) <= 3 * length s)%nat
              /\ forall u, 0 <= u < 65536 ->
                   (length (u :: s) <= length (utf8Encode (u :: s)) <= 3 * length (u :: s))%nat).
  { induction Hs as [|x s Hx Hs [IH1 IH2]].
    - split; [simpl; lia|]. intros u Hu. cbn [utf8Encode].
      destruct (isHighSurrogate u); [simpl; lia|].
      destruct (isLowSurrogate u); [simpl; lia|].
      rewrite app_nil_r. destruct (utf8OfCodePoint_length u) as (H1 & H2 & _).
      specialize (H2 ltac:(lia)). simpl. lia.
    - split; [apply IH2; exact Hx|]. intros u Hu.
      rewrite utf8Encode_cons2.
      specialize (IH2 x Hx). cbn [length] in *.
      destruct (isHighSurrogate u) eqn:Hh.
      + destruct (isLowSurrogate x) eqn:Hl.
        * rewrite length_app.
          unfold isHighSurrogate in Hh. unfold isLowSurrogate in Hl.
          apply andb_true_iff in Hh as [Hh1 Hh2]. apply andb_true_iff in Hl as [Hl1 Hl2].
          apply Z.leb_le in Hh1, Hh2, Hl1, Hl2.
          destruct (utf8OfCodePoint_length (65536 + (u - 55296) * 1024 + (x - 56320)))
            as (_ & _ & H4).
          rewrite H4 by lia. lia.
        * rewrite length_app. change (length replacementBytes) with 3%nat. lia.
      + destruct (isLowSurrogate u).
        * rewrite length_app. change (length replacementBytes) with 3%nat. lia.
        * rewrite length_app. destruct (utf8OfCodePoint_length u) as (H1 & H2 & _).
          specialize (H2 ltac:(lia)). lia. }
  lia.
Qed.

Lemma utf8ByteLength_bounds_witness :
  Z.of_nat (length [97; 233; 6016; 0xD83D; 0xDE00])
  <= utf8ByteLength [97; 233; 6016; 0xD83D; 0xDE00]
  <= 3 * Z.of_nat (length [97; 233; 6016; 0xD83D; 0xDE00]).
Proof.
  apply (utf8ByteLength_bounds [97; 233; 6016; 0xD83D; 0xDE00]).
  unfold codeUnits. repeat constructor; lia.
Defined.

(** ** Encoded fields and checksums *)

Lemma tlv_inv tag value f :
  tlv tag value = Ok f ->
  test_d2 tag = true /\ utf8ByteLength value <= 99 /\ f = field tag value.
Proof.
  intros H. destruct (test_d2 tag) eqn:Ht.
  - destruct (Z.le_gt_cases (utf8ByteLength value) 99) as [Hl|Hl].
    + rewrite tlv_ok in H by assumption. injection H as <-. repeat split. exact Hl.
    + rewrite tlv_too_long in H by (assumption || lia). discriminate H.
  - unfold tlv in H. rewrite Ht in H. discriminate H.
Qed.

(** X5.  What the encoder returns can be read back by position: the first two
    code units are the tag, the next two are digits whose value is the UTF-8
    byte length of the value, and the value follows unchanged; the field is
    4 code units, and 4 bytes, longer than the value. *)
Theorem tlv_field_layout (tag value f : jsstring) :
  tlv tag value = Ok f ->
  slice f 0 2 = tag
  /\ test_d2 (slice f 2 4) = true
  /\ Num.digitsValue (slice f 2 4) = utf8ByteLength value
  /\ slice f 4 (Z.of_nat (length f)) = value
  /\ length f = (4 + length value)%nat
  /\ utf8ByteLength f = 4 + utf8ByteLength value.
Proof.
  intros H. destruct (tlv_inv tag value f H) as (Ht & Hl & ->).
  pose proof (utf8ByteLength_nonneg value) as Hn.
  pose proof (utf8ByteLength_field tag value Ht Hl) as Hbytes.
  destruct tag as [|a [|b [|? ?]]]; try discriminate Ht.
  unfold field in *. cbn [app] in *.
  set (d := twoDigits (utf8ByteLength value)) in *.
  assert (Hd : d = [48 + utf8ByteLength value / 10; 48 + utf8ByteLength value mod 10])
    by reflexivity.
  assert (Htest : test_d2 d = true) by (apply twoDigits_test; lia).
  assert (Hval : Num.digitsValue d = utf8ByteLength value) by (apply twoDigits_value; lia).
  rewrite Hd in *. cbn [app] in *.
  rewrite !slice_take_drop by (cbn [length]; lia).
  cbn [length].
  replace (Z.to_nat (Z.of_nat (S (S (S (S (length value))))) - 4)) with (length value) by lia.
  change (Z.to_nat (2 - 0)) with 2%nat. change (Z.to_nat 0) with 0%nat.
  change (Z.to_nat (4 - 2)) with 2%nat. change (Z.to_nat 2) with 2%nat.
  change (Z.to_nat 4) with 4%nat. cbn [take drop].
  repeat split; try assumption.
  apply take_ge. lia.
Qed.

Lemma tlv_field_layout_witness :
  slice (js "5910John Smith") 0 2 = js "59"
  /\ test_d2 (slice (js "5910John Smith") 2 4) = true
  /\ Num.digitsValue (slice (js "5910John Smith") 2 4) = utf8ByteLength (js "John Smith")
  /\ slice (js "5910John Smith") 4 (Z.of_nat (length (js "5910John Smith"))) = js "John Smith"
  /\ length (js "5910John Smith") = (4 + length (js "John Smith"))%nat
  /\ utf8ByteLength (js "5910John Smith") = 4 + utf8ByteLength (js "John Smith").
Proof.
  apply (tlv_field_layout (js "59") (js "John Smith") (js "5910John Smith")).
  vm_compute. reflexivity.
Defined.

Lemma upper_digitUnit d : 0 <= d < 16 -> upperUnit (digitUnit d) = hexUpper d.
Proof.
  intros Hd. unfold upperUnit, digitUnit, hexUpper.
  destruct (Z.ltb_spec d 10).
  - destruct (Z.leb_spec 97 (48 + d)); [lia|]. cbn [andb].
    destruct (Z.eqb_spec (48 + d) 383); [lia | reflexivity].
  - destruct (Z.leb_spec 97 (87 + d)); [|lia].
    destruct (Z.leb_spec (87 + d) 122); [|lia]. cbn [andb]. lia.
Qed.

Lemma upper_hexUpper d : 0 <= d < 16 -> upperUnit (hexUpper d) = hexUpper d.
Proof.
  intros Hd. unfold upperUnit, hexUpper.
  destruct (Z.ltb_spec d 10).
  - destruct (Z.leb_spec 97 (48 + d)); [lia|]. cbn [andb].
    destruct (Z.eqb_spec (48 + d) 383); [lia | reflexivity].
  - destruct (Z.leb_spec 97 (55 + d)); [lia|]. cbn [andb].
    destruct (Z.eqb_spec (55 + d) 383); [lia | reflexivity].
Qed.

Lemma hex_of_register c :
  0 <= c < 65536 ->
  padStart (toUpperCase (intToString 16 c)) 4 48
  = [hexUpper (c / 4096); hexUpper (c / 256 mod 16);
     hexUpper (c / 16 mod 16); hexUpper (c mod 16)].
Proof.
  intros Hc. unfold intToString. destruct (Z.ltb_spec c 0); [lia|].
  assert (Hfuel : (Z.to_nat (Z.log2 c) <= 16)%nat).
  { destruct (Z.eq_dec c 0) as [->|Hz]; [simpl; lia|].
    assert (Z.log2 c < 16).
    { apply Z.log2_lt_pow2; [lia|]. change (2 ^ 16) with 65536. lia. }
    lia. }
  rewrite (digitsRadix_enough 16 (Z.to_nat (Z.log2 c)) 16 c); [|lia| |exact Hfuel].
  2:{ split; [lia|]. destruct (Z.eq_dec c 0) as [->|Hz]; [reflexivity|].
      rewrite Nat2Z.inj_succ, Z2Nat.id by apply Z.log2_nonneg.
      apply Z.log2_spec. lia. }
  cbn [digitsRadix].
  destruct (Z.ltb_spec c 16).
  { cbn [toUpperCase map]. unfold padStart. cbn [length Nat.sub replicate app].
    rewrite upper_digitUnit by lia.
    replace (c / 4096) with 0 by zdiv. replace (c / 256 mod 16) with 0 by zdiv.
    replace (c / 16 mod 16) with 0 by zdiv. replace (c mod 16) with c by zdiv.
    reflexivity. }
  destruct (Z.ltb_spec (c / 16) 16).
  { cbn [app toUpperCase map]. unfold padStart. cbn [length Nat.sub replicate app].
    rewrite (upper_digitUnit (c / 16)) by zdiv.
    rewrite (upper_digitUnit (c mod 16)) by zdiv.
    replace (c / 4096) with 0 by zdiv. replace (c / 256 mod 16) with 0 by zdiv.
    replace (c / 16 mod 16) with (c / 16) by zdiv. reflexivity. }
  destruct (Z.ltb_spec (c / 16 / 16) 16).
  { cbn [app toUpperCase map]. unfold padStart. cbn [length Nat.sub replicate app].
    rewrite (upper_digitUnit (c / 16 / 16)) by zdiv.
    rewrite (upper_digitUnit (c / 16 mod 16)) by zdiv.
    rewrite (upper_digitUnit (c mod 16)) by zdiv.
    replace (c / 4096) with 0 by zdiv.
    replace (c / 256 mod 16) with (c / 16 / 16) by zdiv. reflexivity. }
  destruct (Z.ltb_spec (c / 16 / 16 / 16) 16); [|zdiv].
  cbn [app toUpperCase map]. unfold padStart. cbn [length Nat.sub replicate app].
  rewrite (upper_digitUnit (c / 16 / 16 / 16)) by zdiv.
  rewrite (upper_digitUnit (c / 16 / 16 mod 16)) by zdiv.
  rewrite (upper_digitUnit (c / 16 mod 16)) by zdiv.
  rewrite (upper_digitUnit (c mod 16)) by zdiv.
  replace (c / 16 / 16 / 16) with (c / 4096) by zdiv.
  replace (c / 16 / 16 mod 16) with (c / 256 mod 16) by zdiv. reflexivity.
Qed.

Lemma crc16CcittFalseHex_upper input :
  toUpperCase (crc16CcittFalseHex input) = crc16CcittFalseHex input.
Proof.
  pose proof (crc16_range (utf8Encode input)) as Hc.
  unfold crc16CcittFalseHex. rewrite hex_of_register by exact Hc.
  cbn [toUpperCase map]. rewrite !upper_hexUpper by zdiv. reflexivity.
Qed.

(** X6.  The checksum text is the 16-bit register written with four
    upper-case hexadecimal digits, most significant first; upper-casing it
    changes nothing. *)
Theorem crc16CcittFalseHex_digits (input : jsstring) :
  let c := crc16 (utf8Encode input) in
  0 <= c < 65536
  /\ crc16CcittFalseHex input
     = [hexUpper (c / 4096); hexUpper (c / 256 mod 16);
        hexUpper (c / 16 mod 16); hexUpper (c mod 16)]
  /\ toUpperCase (crc16CcittFalseHex input) = crc16CcittFalseHex input.
Proof.
  intros c. pose proof (crc16_range (utf8Encode input)) as Hc. fold c in Hc.
  assert (E : crc16CcittFalseHex input
              = [hexUpper (c / 4096); hexUpper (c / 256 mod 16);
                 hexUpper (c / 16 mod 16); hexUpper (c mod 16)]).
  { unfold crc16CcittFalseHex. fold c. apply hex_of_register. exact Hc. }
  split; [exact Hc|]. split; [exact E|].
  apply crc16CcittFalseHex_upper.
Qed.

(** ** The verifier on arbitrary text *)

Lemma startsWith_6304 (s : jsstring) :
  startsWith s (js "6304") = true -> exists tail, s = 54 :: 51 :: 48 :: 52 :: tail.
Proof.
  change (js "6304") with [54; 51; 48; 52].
  destruct s as [|a [|b [|c [|d tail]]]]; cbn [startsWith];
    rewrite ?andb_false_r; try discriminate.
  rewrite !andb_true_iff, !Z.eqb_eq. intros (-> & -> & -> & -> & _).
  exists tail. reflexivity.
Qed.

(** X7.  On a text that ends in "6304", four more code units [c] other than
    "6304" and any characters [extra] without a "4", the verifier compares
    [c], case-insensitively, with the checksum of everything up to and
    including that "6304"; what follows the four characters is ignored, and
    so is any earlier "6304" inside the text. *)
Theorem verifyCrc_reads_last_prefix (p c extra : jsstring) :
  length c = 4%nat ->
  c <> js "6304" ->
  Forall (fun u => u <> 52) extra ->
  verifyCrc ((p ++ js "6304") ++ c ++ extra)
  = eqb (toUpperCase c) (crc16CcittFalseHex (p ++ js "6304")).
Proof.
  intros Hlen Hne Hextra.
  destruct c as [|c1 [|c2 [|c3 [|c4 [|? ?]]]]]; try discriminate Hlen. clear Hlen.
  set (n := length p).
  set (qr := (p ++ js "6304") ++ [c1; c2; c3; c4] ++ extra).
  assert (Hqr : qr = p ++ 54 :: 51 :: 48 :: 52 :: c1 :: c2 :: c3 :: c4 :: extra).
  { unfold qr. rewrite <- app_assoc. reflexivity. }
  assert (Hdrop : forall k, drop (n + k) qr
                            = drop k (54 :: 51 :: 48 :: 52 :: c1 :: c2 :: c3 :: c4 :: extra)).
  { intros k. rewrite Hqr. unfold n. rewrite <- drop_drop, drop_app_length. reflexivity. }
  assert (Hl : length qr = (n + 8 + length extra)%nat).
  { rewrite Hqr, length_app. cbn [length]. unfold n. lia. }
  assert (Hno4 : forall k a b d tail, drop k extra <> a :: b :: d :: 52 :: tail).
  { intros k a b d tail E.
    assert (Hin : 52 ∈ extra).
    { rewrite <- (take_drop k extra), E. apply elem_of_app. right.
      rewrite !elem_of_cons. auto. }
    rewrite Forall_forall in Hextra. exact (Hextra 52 Hin eq_refl). }
  unfold verifyCrc, lastIndexOf. fold qr. rewrite Hl.
  destruct (Nat.ltb_spec (n + 8 + length extra) (length (js "6304"))) as [Hlt|_];
    [simpl in Hlt; lia|].
  replace (n + 8 + length extra - length (js "6304"))%nat
    with (n + 4 + length extra)%nat by (simpl; lia).
  rewrite (lastIndexOf_from_found _ _ (n + 4 + length extra) n); [|lia| |].
  2:{ rewrite <- (Nat.add_0_r n), Hdrop. reflexivity. }
  2:{ intros i Hi.
      destruct (startsWith (drop i qr) (js "6304")) eqn:Hs; [|reflexivity].
      exfalso. apply startsWith_6304 in Hs. destruct Hs as [tail Hs].
      replace i with (n + (i - n))%nat in Hs by lia. rewrite Hdrop in Hs.
      destruct (i - n)%nat as [|[|[|[|[|[|[|[|k]]]]]]]] eqn:Hk; [lia|..];
        cbn [drop] in Hs; try discriminate Hs.
      - injection Hs as -> -> -> -> _. apply Hne. reflexivity.
      - injection Hs as _ _ _ Hs. subst extra.
        rewrite !Forall_cons in Hextra. intuition congruence.
      - injection Hs as _ _ Hs. subst extra.
        rewrite !Forall_cons in Hextra. intuition congruence.
      - injection Hs as _ Hs. subst extra.
        rewrite !Forall_cons in Hextra. intuition congruence.
      - exact (Hno4 k 54 51 48 tail Hs). }
  destruct (Z.ltb_spec (Z.of_nat n) 0); [lia|].
  assert (Hprov : slice qr (Z.of_nat n + 4) (Z.of_nat n + 8) = [c1; c2; c3; c4]).
  { rewrite Hqr. replace (Z.of_nat n + 8) with (Z.of_nat n + 4 + 4) by lia.
    unfold n. rewrite (slice_from p _ 4 4) by lia. reflexivity. }
  rewrite Hprov. cbn [length Nat.eqb negb].
  assert (Hin : slice qr 0 (Z.of_nat n + 4) = p ++ js "6304").
  { rewrite slice_take_drop by lia. cbn [Z.to_nat drop].
    replace (Z.to_nat (Z.of_nat n + 4 - 0)) with (length (p ++ js "6304"))
      by (rewrite length_app; unfold n; simpl; lia).
    unfold qr. apply take_app_length. }
  rewrite Hin.
  rewrite (crc16CcittFalseHex_upper (p ++ js "6304")). reflexivity.
Qed.

Lemma verifyCrc_reads_last_prefix_witness :
  verifyCrc ((js "000201" ++ js "6304") ++ js "aae6" ++ js "xyz")
  = eqb (toUpperCase (js "aae6")) (crc16CcittFalseHex (js "000201" ++ js "6304")).
Proof.
  apply (verifyCrc_reads_last_prefix (js "000201") (js "aae6") (js "xyz")).
  - reflexivity.
  - vm_compute. discriminate.
  - change (js "xyz") with [120; 121; 122].
    repeat (apply Forall_cons; split; [discriminate|]). apply Forall_nil_2.
Defined.

(** ** The decoder on arbitrary text *)

Lemma length_slice_exact (s : jsstring) a n :
  0 <= a -> 0 <= n -> a + n <= Z.of_nat (length s) ->
  length (slice s a (a + n)) = Z.to_nat n.
Proof.
  intros Ha Hn Hle. rewrite slice_take_drop by lia.
  rewrite length_take, length_drop. lia.
Qed.

Lemma slice_sublist (s : jsstring) a b :
  0 <= a -> a <= b -> exists pre post, s = pre ++ slice s a b ++ post.
Proof.
  intros Ha Hab. rewrite slice_take_drop by assumption.
  exists (take (Z.to_nat a) s), (drop (Z.to_nat (b - a)) (drop (Z.to_nat a) s)).
  rewrite take_drop, take_drop. reflexivity.
Qed.

Lemma test_d2_value_le s : test_d2 s = true -> Num.digitsValue s <= 99.
Proof.
  destruct s as [|a [|b [|c s]]]; simpl; try discriminate.
  unfold isDigit. rewrite !andb_true_iff, !Z.leb_le.
  unfold Num.digitsValue. simpl. lia.
Qed.

(** What every entry written by the loop looks like. *)
Lemma decodeTlv_loop_entries (P : jsstring -> jsstring -> Prop) qr :
  (forall i, 0 <= i -> i + 4 <= Z.of_nat (length qr) ->
             test_d2 (slice qr (i + 2) (i + 4)) = true ->
             P (slice qr i (i + 2))
               (slice qr (i + 4) (i + 4 + Num.digitsValue (slice qr (i + 2) (i + 4))))) ->
  forall fuel i out m,
    0 <= i ->
    (forall t v, out !! t = Some v -> P t v) ->
    decodeTlv_loop fuel qr i out = Some m ->
    forall t v, m !! t = Some v -> P t v.
Proof.
  intros Hstep. induction fuel as [|f IH]; intros i out m Hi Hout H; [discriminate|].
  cbn [decodeTlv_loop] in H.
  destruct (Z.leb_spec (i + 4) (Z.of_nat (length qr))) as [Hle|_];
    [|injection H as <-; exact Hout].
  destruct (test_d2 (slice qr (i + 2) (i + 4))) eqn:Ht; cbn [negb] in H;
    [|injection H as <-; exact Hout].
  pose proof (test_d2_value _ Ht) as Hv.
  refine (IH _ _ _ _ _ H); [lia|].
  intros t v. destruct (decide (slice qr i (i + 2) = t)) as [<-|Hne].
  - rewrite lookup_insert_eq. intros [= <-]. apply Hstep; assumption.
  - rewrite lookup_insert_ne by exact Hne. apply Hout.
Qed.

(** X8.  Whatever the text, every key of the decoded object is two code
    units long, every value is a run of at most 99 code units, and key,
    two digits and value stand next to each other in the text. *)
Theorem decodeTlv_entries (qr : jsstring) (m : gmap (list Z) (list Z)) (t v : jsstring) :
  decodeTlv qr = Some m -> m !! t = Some v ->
  length t = 2%nat /\ (length v <= 99)%nat
  /\ exists pre d post,
       qr = pre ++ t ++ d ++ v ++ post /\ test_d2 d = true
       /\ (Z.of_nat (length v) <= Num.digitsValue d)
       /\ (Z.of_nat (length v) < Num.digitsValue d -> post = []).
Proof.
  intros H Hm. unfold decodeTlv in H.
  revert t v Hm.
  apply (decodeTlv_loop_entries
           (fun t v => length t = 2%nat /\ (length v <= 99)%nat
              /\ exists pre d post,
                   qr = pre ++ t ++ d ++ v ++ post /\ test_d2 d = true
                   /\ (Z.of_nat (length v) <= Num.digitsValue d)
                   /\ (Z.of_nat (length v) < Num.digitsValue d -> post = []))
           qr) with (fuel := S (length qr)) (i := 0) (out := ∅);
    [|lia| |exact H].
  2:{ intros t v Hl. rewrite lookup_empty in Hl. discriminate. }
  intros i Hi Hle Ht.
  pose proof (test_d2_value _ Ht) as Hv0. pose proof (test_d2_value_le _ Ht) as Hv1.
  set (d := slice qr (i + 2) (i + 4)) in *.
  set (n := Num.digitsValue d) in *.
  assert (Hlt : length (slice qr i (i + 2)) = 2%nat).
  { rewrite (length_slice_exact qr i 2) by lia. reflexivity. }
  assert (Hlv : length (slice qr (i + 4) (i + 4 + n))
                = Nat.min (Z.to_nat n) (length qr - Z.to_nat (i + 4))).
  { rewrite slice_take_drop by lia. rewrite length_take, length_drop. f_equal. lia. }
  split; [exact Hlt|]. split; [lia|].
  exists (take (Z.to_nat i) qr), d, (drop (Z.to_nat (i + 4 + n)) qr).
  split; [|split; [exact Ht|split; [lia|]]].
  - unfold d. rewrite !slice_take_drop by lia.
    replace (Z.to_nat (i + 2 - i)) with 2%nat by lia.
    replace (Z.to_nat (i + 4 - (i + 2))) with 2%nat by lia.
    replace (Z.to_nat (i + 4 + n - (i + 4))) with (Z.to_nat n) by lia.
    replace (Z.to_nat (i + 2)) with (Z.to_nat i + 2)%nat by lia.
    replace (Z.to_nat (i + 4)) with (Z.to_nat i + 2 + 2)%nat by lia.
    replace (Z.to_nat (i + 4 + n)) with (Z.to_nat i + 2 + 2 + Z.to_nat n)%nat by lia.
    rewrite <- !drop_drop.
    rewrite !take_drop. reflexivity.
  - intros Hshort. apply drop_ge. lia.
Qed.

Lemma decodeTlv_entries_witness :
  length (js "ab") = 2%nat /\ (length (js "xyz") <= 99)%nat
  /\ exists pre d post,
       js "0002ppab03xyz" = pre ++ js "ab" ++ d ++ js "xyz" ++ post /\ test_d2 d = true
       /\ (Z.of_nat (length (js "xyz")) <= Num.digitsValue d)
       /\ (Z.of_nat (length (js "xyz")) < Num.digitsValue d -> post = []).
Proof.
  apply (decodeTlv_entries (js "0002ppab03xyz")
           (<[ js "ab" := js "xyz" ]> {[ js "00" := js "pp" ]}) (js "ab") (js "xyz")).
  - vm_compute. reflexivity.
  - vm_compute. reflexivity.
Defined.

(** The loop only adds keys or overwrites their values. *)
Lemma decodeTlv_loop_keeps fuel qr i out m t :
  decodeTlv_loop fuel qr i out = Some m -> is_Some (out !! t) -> is_Some (m !! t).
Proof.
  revert i out. induction fuel as [|f IH]; intros i out H Ht; [discriminate|].
  cbn [decodeTlv_loop] in H.
  destruct (i + 4 <=? Z.of_nat (length qr)); [|injection H as <-; exact Ht].
  destruct (test_d2 (slice qr (i + 2) (i + 4))); cbn [negb] in H;
    [|injection H as <-; exact Ht].
  apply (IH _ _ H).
  destruct (decide (slice qr i (i + 2) = t)) as [<-|Hne].
  - rewrite lookup_insert_eq. eexists. reflexivity.
  - rewrite lookup_insert_ne by exact Hne. exact Ht.
Qed.

(** X9.  The decoder returns the empty object exactly when the text has
    fewer than four code units or its third and fourth code units are not
    two digits; in every other case the first two code units are a key of
    the result. *)
Theorem decodeTlv_empty (qr : jsstring) :
  (decodeTlv qr = Some ∅
   <-> (length qr < 4)%nat \/ test_d2 (slice qr 2 4) = false)
  /\ match decodeTlv qr with
     | Some m => m = ∅ \/ is_Some (m !! slice qr 0 2)
     | None => False
     end.
Proof.
  unfold decodeTlv. cbn [decodeTlv_loop]. change (0 + 4) with 4. change (0 + 2) with 2.
  destruct (Z.leb_spec 4 (Z.of_nat (length qr))) as [Hle|Hlt].
  - destruct (test_d2 (slice qr 2 4)) eqn:Ht; cbn [negb].
    + pose proof (test_d2_value _ Ht) as Hv.
      destruct (decodeTlv_loop_total (length qr) qr (4 + Num.digitsValue (slice qr 2 4))
                  (<[slice qr 0 2 := slice qr 4 (4 + Num.digitsValue (slice qr 2 4))]> ∅)
                  ltac:(lia)) as [m Hm].
      rewrite Hm.
      assert (Hkey : is_Some (m !! slice qr 0 2)).
      { apply (decodeTlv_loop_keeps _ _ _ _ _ _ Hm).
        rewrite lookup_insert_eq. eexists. reflexivity. }
      split; [|right; exact Hkey].
      split.
      * intros [= ->]. rewrite lookup_empty in Hkey.
        destruct Hkey as [? H]. discriminate H.
      * intros [H|H]; [lia|discriminate H].
    + split; [|left; reflexivity].
      split; [intros _; right; reflexivity | reflexivity].
  - split; [|left; reflexivity].
    split; [intros _; left; lia | reflexivity].
Qed.

(** ** Decoding an assembled payload *)

Lemma asciiText_truncUtf8 s n : asciiText s -> asciiText (truncUtf8 s n).
Proof.
  intros H. destruct (truncUtf8_prefix s n) as [rest E].
  unfold asciiText in *. rewrite E in H. apply Forall_app in H. apply H.
Qed.

Lemma optField_ascii tag x n : asciiOpt x -> asciiValues (optField tag (truncOpt x n)).
Proof.
  intros H. unfold optField, truncOpt, asciiValues.
  destruct (truthy x); [|constructor].
  destruct (truthy (Some (truncUtf8 (str x) n))); constructor; [|constructor].
  apply asciiText_truncUtf8. exact H.
Qed.

Lemma test_d2_ascii t : test_d2 t = true -> asciiText t /\ length t = 2%nat.
Proof.
  destruct t as [|a [|b [|c t]]]; simpl; try discriminate.
  rewrite andb_true_iff. intros [Ha Hb]. split; [|reflexivity].
  constructor; [apply isDigit_ascii; exact Ha|].
  constructor; [apply isDigit_ascii; exact Hb|constructor].
Qed.

Lemma asciiText_field t v :
  validField (t, v) -> asciiText v -> asciiText (field t v).
Proof.
  intros [Ht Hv] Ha. cbn [fst snd] in *. unfold field, asciiText.
  pose proof (utf8ByteLength_nonneg v) as H0.
  apply Forall_app. split; [apply test_d2_ascii; exact Ht|].
  apply Forall_app. split; [|exact Ha].
  unfold twoDigits. constructor; [zdiv|]. constructor; [zdiv|constructor].
Qed.

Lemma asciiText_encode fs :
  Forall validField fs -> asciiValues fs -> asciiText (encode fs).
Proof.
  induction 1 as [|[t v] fs Hf _ IH]; intros Ha; [constructor|].
  inversion Ha as [|? ? Hv Hrest]; subst.
  rewrite encode_cons. apply Forall_app. split.
  - apply asciiText_field; assumption.
  - apply IH. exact Hrest.
Qed.

Lemma encode_raw fs : asciiValues fs -> encode fs = concat (map rawField fs).
Proof.
  induction 1 as [|[t v] fs Hv _ IH]; [reflexivity|].
  rewrite encode_cons, IH. cbn [map concat]. f_equal.
  unfold field, rawField. cbn [fst snd] in *.
  rewrite utf8ByteLength_ascii by exact Hv. reflexivity.
Qed.

Lemma valid_readable fs :
  Forall validField fs -> asciiValues fs -> Forall readable fs.
Proof.
  induction 1 as [|[t v] fs [Ht Hv] _ IH]; intros Ha; [constructor|].
  inversion Ha as [|? ? Hav Hrest]; subst. cbn [fst snd] in *.
  constructor; [|apply IH; exact Hrest].
  split; cbn [fst snd].
  - apply test_d2_ascii. exact Ht.
  - rewrite utf8ByteLength_ascii in Hv by exact Hav. lia.
Qed.

Lemma decimalText_ascii s : decimalText s -> asciiText s.
Proof.
  unfold decimalText, asciiText. destruct s as [|c s]; [intros _; constructor|].
  destruct (Z.eqb_spec c 45) as [->|_]; intros [_ H].
  - constructor; [lia|]. apply (Forall_impl _ _ _ H). intros u. apply isDigit_ascii.
  - apply (Forall_impl _ _ _ H). intros u. apply isDigit_ascii.
Qed.

Lemma identityFields_valid g : Forall validField (identityFields g).
Proof.
  pose proof (truncUtf8_bound (str (bakongAccountId g)) 32 ltac:(lia)).
  pose proof (str_truncOpt_bound (merchantId g) 32 ltac:(lia)).
  pose proof (str_truncOpt_bound (acquiringBank g) 32 ltac:(lia)).
  unfold identityFields. destruct (merchantType g).
  - split_fields.
    + constructor; [split; [reflexivity | cbn [snd]; lia]|constructor].
    + apply optField_valid; (reflexivity || lia).
    + apply optField_valid; (reflexivity || lia).
  - constructor; [split; [reflexivity | cbn [snd]; lia]|].
    constructor; [split; [reflexivity | cbn [snd]; lia]|].
    constructor; [split; [reflexivity | cbn [snd]; lia]|constructor].
Qed.

Lemma str_truncOpt_ascii x n : asciiOpt x -> asciiText (str (truncOpt x n)).
Proof.
  intros H. unfold truncOpt. destruct (truthy x); [|constructor].
  apply asciiText_truncUtf8. exact H.
Qed.

Lemma template_ascii tag fs :
  Forall validField fs -> asciiValues fs -> asciiValues (template tag fs).
Proof.
  intros Hv Ha. pose proof (asciiText_encode fs Hv Ha) as H.
  unfold template. destruct (encode fs); constructor; [exact H|constructor].
Qed.

Lemma identityFields_ascii g :
  asciiOpt (bakongAccountId g) -> asciiOpt (merchantId g) -> asciiOpt (acquiringBank g) ->
  asciiOpt (accountInformation g) -> asciiValues (identityFields g).
Proof.
  intros Hacc Hmid Hbank Hinfo.
  unfold identityFields, asciiValues. destruct (merchantType g).
  - split_fields.
    + constructor; [apply asciiText_truncUtf8; exact Hacc|constructor].
    + apply optField_ascii. exact Hinfo.
    + apply optField_ascii. exact Hbank.
  - constructor; [apply asciiText_truncUtf8; exact Hacc|].
    constructor; [apply str_truncOpt_ascii; exact Hmid|].
    constructor; [apply str_truncOpt_ascii; exact Hbank|constructor].
Qed.

Lemma topLevelFields_ascii now g :
  timeValue now -> asciiConfig g -> asciiValues (topLevelFields now g).
Proof.
  intros Hnow Hg. unfold asciiConfig in Hg. rewrite !Forall_cons in Hg.
  destruct Hg as (Hacc & Hname & Hmid & Hbank & Hinfo & Hcity & Hamt & Hbill & Hmob
                  & Hstore & Hterm & Hpurp & Hupi & Hlp & Hna & Hca & _).
  unfold topLevelFields, asciiValues. split_fields.
  - constructor; [vm_compute; repeat constructor|].
    constructor; [|constructor].
    destruct (isStatic g); vm_compute; repeat constructor.
  - apply optField_ascii. exact Hupi.
  - constructor; [|constructor]. apply asciiText_encode; [apply identityFields_valid|].
    apply identityFields_ascii; assumption.
  - constructor; [vm_compute; repeat constructor|].
    constructor; [|constructor].
    destruct (currency g); vm_compute; repeat constructor.
  - unfold amountFields, asciiOpt in *. destruct (amount g); constructor; [exact Hamt|constructor].
  - constructor; [vm_compute; repeat constructor|].
    constructor; [apply asciiText_truncUtf8; exact Hname|].
    constructor; [|constructor]. apply asciiText_truncUtf8.
    unfold asciiOpt in Hcity. cbn [str default] in Hcity.
    destruct (merchantCity g); [vm_compute; repeat constructor | exact Hcity].
  - apply template_ascii; [apply additionalFields_valid|].
    unfold additionalFields, asciiValues. split_fields; apply optField_ascii; assumption.
  - apply template_ascii; [apply alternateFields_valid|].
    unfold alternateFields, asciiValues. split_fields; apply optField_ascii; assumption.
  - unfold timestampFields. destruct (isStatic g); constructor; [|constructor].
    cbn [snd]. rewrite encode_one. apply asciiText_field.
    + split; [reflexivity|]. cbn [snd]. pose proof (timestamp_bytes now Hnow). lia.
    + apply decimalText_ascii. apply intToString_decimalText.
Qed.

Lemma topLevelFields_tags now g : NoDup ((topLevelFields now g).*1 ++ [js "63"]).
Proof.
  unfold topLevelFields, optField, template, amountFields, timestampFields, identityTag.
  case_presence; cbn [fmap list_fmap app fst];
    apply (bool_decide_unpack _); vm_compute; reflexivity.
Qed.

Lemma collect_snoc fs f out : collect (fs ++ [f]) out = <[f.1 := f.2]> (collect fs out).
Proof. unfold collect. rewrite foldl_app. reflexivity. Qed.

(** With pairwise different tags the object holds exactly the fields. *)
Lemma collect_lookup fs t v :
  NoDup fs.*1 -> collect fs ∅ !! t = Some v <-> (t, v) ∈ fs.
Proof.
  induction fs as [|f fs IH] using rev_ind; intros Hnd.
  - unfold collect. cbn [foldl]. rewrite lookup_empty, elem_of_nil.
    split; [discriminate | tauto].
  - rewrite collect_snoc, elem_of_app, list_elem_of_singleton.
    rewrite fmap_app in Hnd. apply NoDup_app in Hnd. destruct Hnd as (Hnd & Hdis & _).
    destruct (decide (f.1 = t)) as [<-|Hne].
    + rewrite lookup_insert_eq. split.
      * intros [= <-]. right. destruct f; reflexivity.
      * intros [Hin|E].
        -- exfalso. apply (Hdis f.1).
           ++ apply list_elem_of_fmap. exists (f.1, v). split; [reflexivity | exact Hin].
           ++ cbn [fmap list_fmap]. apply list_elem_of_singleton. reflexivity.
        -- rewrite <- E. reflexivity.
    + rewrite lookup_insert_ne by exact Hne. rewrite (IH Hnd). split.
      * intros H. left. exact H.
      * intros [H|E]; [exact H|]. exfalso. apply Hne. rewrite <- E. reflexivity.
Qed.

Lemma withChecksum_raw fs :
  asciiValues fs ->
  withChecksum (encode fs) = concat (map rawField (fs ++ [checksumField fs])).
Proof.
  intros Ha. rewrite map_app, concat_app. cbn [map concat]. rewrite app_nil_r.
  rewrite <- (encode_raw fs Ha).
  unfold withChecksum, checksumField, rawField. cbn [fst snd].
  rewrite crc16CcittFalseHex_length. rewrite <- app_assoc. reflexivity.
Qed.

(** Decoding the encoding of ASCII fields with pairwise different tags. *)
Lemma decodeTlv_encode fs :
  Forall validField fs -> asciiValues fs -> NoDup fs.*1 ->
  decodeTlv (encode fs) = Some (collect fs ∅)
  /\ (forall t v, collect fs ∅ !! t = Some v <-> (t, v) ∈ fs).
Proof.
  intros Hv Ha Hnd. split; [|intros t v; apply collect_lookup; exact Hnd].
  rewrite (encode_raw fs Ha).
  apply (decodeTlv_by_fuel (length fs + 1)).
  pose proof (decodeTlv_loop_fields fs (valid_readable fs Hv Ha) [] [] ∅ 1%nat) as E.
  rewrite app_nil_l, app_nil_r in E.
  change (Z.of_nat (length (@nil Z))) with 0 in E. rewrite E.
  apply decodeTlv_loop_end. lia.
Qed.

Lemma checksumField_valid fs :
  validField (checksumField fs) /\ asciiText (checksumField fs).2.
Proof.
  unfold checksumField, validField. cbn [fst snd].
  set (body := encode fs ++ js "6304").
  assert (Ha : asciiText (crc16CcittFalseHex body)).
  { pose proof (crc16_range (utf8Encode body)) as Hc.
    unfold crc16CcittFalseHex. rewrite hex_of_register by exact Hc.
    unfold hexUpper.
    repeat (constructor;
            [match goal with |- context [?d <? 10] => destruct (Z.ltb_spec d 10) end; zdiv|]).
    constructor. }
  split; [|exact Ha]. split; [reflexivity|].
  rewrite utf8ByteLength_ascii by exact Ha. rewrite crc16CcittFalseHex_length. lia.
Qed.

(** The same for a complete payload: the fields and the checksum field. *)
Lemma decodeTlv_withChecksum fs :
  Forall validField fs -> asciiValues fs -> NoDup (fs.*1 ++ [js "63"]) ->
  decodeTlv (withChecksum (encode fs)) = Some (collect (fs ++ [checksumField fs]) ∅)
  /\ (forall t v, collect (fs ++ [checksumField fs]) ∅ !! t = Some v
                  <-> (t, v) ∈ fs ++ [checksumField fs]).
Proof.
  intros Hv Ha Hnd. destruct (checksumField_valid fs) as [Hcv Hca].
  assert (Hall : asciiValues (fs ++ [checksumField fs])).
  { apply Forall_app. split; [exact Ha|]. constructor; [exact Hca|constructor]. }
  destruct (decodeTlv_encode (fs ++ [checksumField fs])) as [Hdec Hlook].
  - apply Forall_app. split; [exact Hv|]. constructor; [exact Hcv|constructor].
  - exact Hall.
  - rewrite fmap_app. exact Hnd.
  - split; [|exact Hlook].
    rewrite (withChecksum_raw fs Ha), <- (encode_raw _ Hall). exact Hdec.
Qed.

(** X10.  Decoding an assembled payload whose texts are all ASCII gives
    back the top-level fields and the checksum field, one entry per field
    and nothing else: the display name is under "59", the checksum under
    "63", and "99" is a key exactly in dynamic mode, where it holds the
    sub-field "00" with the clock value. *)
Theorem decodeTlv_generated (now : Z) (g : KHQRGenerator) (r : GenerateResult) :
  timeValue now -> asciiConfig g -> generate now g = Ok r ->
  exists m,
    decodeTlv (qr r) = Some m
    /\ (forall t v, m !! t = Some v
                    <-> (t, v) ∈ topLevelFields now g ++ [checksumField (topLevelFields now g)])
    /\ m !! js "59" = Some (truncUtf8 (str (merchantName g)) 25)
    /\ m !! js "63" = Some (slice (qr r) (Z.of_nat (length (qr r)) - 4)
                                  (Z.of_nat (length (qr r))))
    /\ m !! js "99" = (if isStatic g then None
                       else Some (field (js "00") (intToString 10 now))).
Proof.
  intros Hnow Hg H.
  destruct (generate_ok now Hnow g r H) as (_ & Hid & Hamt & Hadd & ->).
  pose proof (topLevelFields_valid now Hnow g Hid Hamt Hadd) as Hvalid.
  pose proof (topLevelFields_ascii now g Hnow Hg) as Hascii.
  set (fs := topLevelFields now g) in *.
  set (all := fs ++ [checksumField fs]).
  destruct (decodeTlv_withChecksum fs Hvalid Hascii (topLevelFields_tags now g))
    as [Hdec Hlook].
  fold all in Hdec, Hlook.
  assert (Hqr : qr (resultOf now g (encode fs)) = withChecksum (encode fs)) by reflexivity.
  exists (collect all ∅). rewrite Hqr.
  split; [exact Hdec|]. split; [exact Hlook|].
  split; [|split].
  - apply Hlook. unfold all, fs, topLevelFields.
    rewrite !elem_of_app, !elem_of_cons. tauto.
  - unfold withChecksum.
    unfold all. rewrite collect_snoc. cbn [checksumField fst snd].
    rewrite lookup_insert_eq. f_equal.
    set (body := encode fs ++ js "6304").
    pose proof (crc16CcittFalseHex_length body) as Hl.
    rewrite length_app, Hl.
    replace (Z.of_nat (length body + 4) - 4) with (Z.of_nat (length body)) by lia.
    replace (Z.of_nat (length body + 4)) with (Z.of_nat (length body) + 4) by lia.
    rewrite slice_at by lia. symmetry. apply take_ge. rewrite Hl. lia.
  - destruct (isStatic g) eqn:Hst.
    + destruct (collect all ∅ !! js "99") as [v|] eqn:E; [|reflexivity].
      exfalso. apply Hlook in E. unfold all in E.
      rewrite elem_of_app, list_elem_of_singleton in E. destruct E as [E|E].
      * unfold fs in E. rewrite topLevelFields_body in E.
        unfold timestampFields in E. rewrite Hst, app_nil_r in E.
        pose proof (bodyFields_no_timestamp g) as Hno.
        rewrite Forall_forall in Hno. exact (Hno _ E eq_refl).
      * discriminate E.
    + apply Hlook. unfold all, fs. rewrite topLevelFields_body.
      unfold timestampFields. rewrite Hst, encode_one.
      rewrite !elem_of_app, list_elem_of_singleton. left. right. reflexivity.
Qed.

Lemma decodeTlv_generated_witness :
  exists m,
    decodeTlv (js "00020101021229190015john_smith@devb5204599953031165802KH5910John Smith6010Phnom Penh99170013170000000000063042FDF")
    = Some m
    /\ m !! js "59" = Some (js "John Smith")
    /\ m !! js "63" = Some (js "2FDF")
    /\ m !! js "99" = Some (js "00131700000000000").
Proof.
  pose (g := setMerchantName (js "John Smith")
               (setBakongAccountId (js "john_smith@devb") (new individual))).
  assert (Hnow : timeValue 1700000000000) by (unfold timeValue; lia).
  assert (Hascii : asciiConfig g) by (vm_compute; repeat constructor).
  assert (Hgen : generate 1700000000000 g
                 = Ok (resultOf 1700000000000 g (encode (topLevelFields 1700000000000 g))))
    by (vm_compute; reflexivity).
  destruct (decodeTlv_generated 1700000000000 g _ Hnow Hascii Hgen)
    as (m & Hdec & _ & H59 & H63 & H99).
  assert (Eq : qr (resultOf 1700000000000 g (encode (topLevelFields 1700000000000 g)))
               = js "00020101021229190015john_smith@devb5204599953031165802KH5910John Smith6010Phnom Penh99170013170000000000063042FDF")
    by (vm_compute; reflexivity).
  rewrite Eq in Hdec, H63.
  exists m. split; [exact Hdec|]. split; [exact H59|]. split; [exact H63|exact H99].
Defined.

(** ** The clock *)

Lemma intToString_negative n :
  n < 0 -> intToString 10 n = 45 :: intToString 10 (- n).
Proof.
  intros Hn. unfold intToString.
  destruct (Z.ltb_spec n 0); [|lia]. destruct (Z.ltb_spec (- n) 0); [lia|]. reflexivity.
Qed.

Lemma intToString_inj a b : intToString 10 a = intToString 10 b -> a = b.
Proof.
  assert (Hpos : forall x y, 0 <= x -> 0 <= y ->
                             intToString 10 x = intToString 10 y -> x = y).
  { intros x y Hx Hy E. rewrite <- (intToString_value x Hx), <- (intToString_value y Hy), E.
    reflexivity. }
  assert (Hmix : forall x y, x < 0 -> 0 <= y -> intToString 10 x <> intToString 10 y).
  { intros x y Hx Hy E. rewrite intToString_negative in E by exact Hx.
    destruct (intToString_decimal y Hy) as [_ Hd]. rewrite <- E in Hd.
    inversion Hd as [|? ? H45 _]. discriminate H45. }
  intros E. destruct (Z.lt_ge_cases a 0) as [Ha|Ha], (Z.lt_ge_cases b 0) as [Hb|Hb].
  - rewrite (intToString_negative a), (intToString_negative b) in E by assumption.
    injection E as E.
    apply Hpos in E; lia.
  - exfalso. exact (Hmix a b Ha Hb E).
  - exfalso. symmetry in E. exact (Hmix b a Hb Ha E).
  - apply Hpos; assumption.
Qed.

(** X11.  In static mode the clock is never read: whatever the clock, a
    static configuration gives the same result (payload, absent timestamp,
    hash) or the same error. *)
Theorem static_ignores_clock (now now' : Z) (g : KHQRGenerator) :
  generate now (setStatic true g) = generate now' (setStatic true g).
Proof. destruct g. reflexivity. Qed.

(** X12.  In dynamic mode the payload determines the clock: the same
    configuration assembled at two different clock values gives two
    different payloads and two different timestamps. *)
Theorem dynamic_payload_fixes_clock (now now' : Z) (g : KHQRGenerator)
    (r r' : GenerateResult) :
  timeValue now -> timeValue now' -> isStatic g = false ->
  generate now g = Ok r -> generate now' g = Ok r' ->
  now <> now' ->
  qr r <> qr r' /\ timestamp r <> timestamp r'.
Proof.
  intros Hnow Hnow' Hst H H' Hne.
  destruct (generate_ok now Hnow g r H) as (_ & Hid & Hamt & Hadd & ->).
  destruct (generate_ok now' Hnow' g r' H') as (_ & _ & _ & _ & ->).
  pose proof (topLevelFields_valid now Hnow g Hid Hamt Hadd) as Hv.
  pose proof (topLevelFields_valid now' Hnow' g Hid Hamt Hadd) as Hv'.
  cbn [qr timestamp resultOf]. rewrite Hst. split.
  - intros E. apply withChecksum_inj in E.
    apply (encode_unique _ _ Hv Hv') in E.
    rewrite !topLevelFields_body in E. apply app_inv_head in E.
    unfold timestampFields in E. rewrite Hst, !encode_one in E.
    apply (f_equal (fun l : list (jsstring * jsstring) =>
                      match l with [(_, v)] => v | _ => [] end)) in E.
    cbv beta iota in E. unfold field in E.
    apply app_inv_head in E.
    apply app_inj_1 in E; [|reflexivity]. destruct E as [_ E].
    apply Hne. apply intToString_inj. exact E.
  - intros [= E]. apply Hne. apply intToString_inj. exact E.
Qed.

Lemma dynamic_payload_fixes_clock_witness :
  qr (resultOf 1700000000000 (setMerchantName (js "John Smith")
         (setBakongAccountId (js "john_smith@devb") (new individual)))
        (encode (topLevelFields 1700000000000 (setMerchantName (js "John Smith")
           (setBakongAccountId (js "john_smith@devb") (new individual))))))
  <> qr (resultOf 1700000000001 (setMerchantName (js "John Smith")
         (setBakongAccountId (js "john_smith@devb") (new individual)))
        (encode (topLevelFields 1700000000001 (setMerchantName (js "John Smith")
           (setBakongAccountId (js "john_smith@devb") (new individual))))))
  /\ timestamp (resultOf 1700000000000 (setMerchantName (js "John Smith")
         (setBakongAccountId (js "john_smith@devb") (new individual)))
        (encode (topLevelFields 1700000000000 (setMerchantName (js "John Smith")
           (setBakongAccountId (js "john_smith@devb") (new individual))))))
  <> timestamp (resultOf 1700000000001 (setMerchantName (js "John Smith")
         (setBakongAccountId (js "john_smith@devb") (new individual)))
        (encode (topLevelFields 1700000000001 (setMerchantName (js "John Smith")
           (setBakongAccountId (js "john_smith@devb") (new individual)))))).
Proof.
  apply (dynamic_payload_fixes_clock 1700000000000 1700000000001
           (setMerchantName (js "John Smith")
              (setBakongAccountId (js "john_smith@devb") (new individual)))).
  - unfold timeValue. lia.
  - unfold timeValue. lia.
  - reflexivity.
  - vm_compute. reflexivity.
  - vm_compute. reflexivity.
  - lia.
Defined.

(** X13.  Each variant ignores the other variant's field: setting the
    merchant id of an individual configuration, or the account information
    of a merchant configuration, changes nothing in the result of
    [generate], be it a payload or an error. *)
Theorem other_variant_field_ignored (now : Z) (v : jsstring) (g : KHQRGenerator) :
  generate now (match merchantType g with
                | individual => setMerchantId v g
                | merchant => setAccountInformation v g
                end)
  = generate now g.
Proof. destruct g as [[] ? ? ? ? ? ? ? ? ? ? ? ? ? ? ? ? ? ?]; reflexivity. Qed.

(** ** Decoding the identity template *)

Lemma truthy_truncOpt_ascii x n :
  asciiOpt x -> 1 <= n -> truthy (truncOpt x n) = truthy x.
Proof.
  intros Ha Hn. unfold truncOpt. destruct (truthy x) eqn:Hx; [|reflexivity].
  destruct x as [[|u s]|]; try discriminate Hx.
  unfold asciiOpt in Ha. change (str (Some (u :: s))) with (u :: s) in *.
  unfold truncUtf8. destruct (utf8ByteLength (u :: s) <=? n); [reflexivity|].
  rewrite (codePoints_ascii _ Ha).
  rewrite truncUtf8_loop_ascii by (try exact Ha; try constructor; simpl; lia).
  cbn [app length]. replace (Z.to_nat n - 0)%nat with (S (Z.to_nat (n - 1))) by lia.
  reflexivity.
Qed.

Lemma optField_truncOpt_ascii tag x n :
  asciiOpt x -> 1 <= n ->
  optField tag (truncOpt x n)
  = match truncOpt x n with Some v => [(tag, v)] | None => [] end.
Proof.
  intros Ha Hn. unfold optField. rewrite (truthy_truncOpt_ascii x n Ha Hn).
  unfold truncOpt. destruct (truthy x); reflexivity.
Qed.

Lemma identityFields_tags g : NoDup (identityFields g).*1.
Proof.
  unfold identityFields, optField.
  case_presence; cbn [fmap list_fmap app fst];
    apply (bool_decide_unpack _); vm_compute; reflexivity.
Qed.

(** X14.  The decoder is not recursive but can be applied again: on an
    assembled all-ASCII payload, the value decoded under the identity tag
    (29 or 30) decodes in turn to the account id under "00", the account
    information (individual) or merchant id (merchant) under "01" and the
    acquiring bank under "02", each truncated to 32 bytes, an optional one
    being absent when it was not set or set to the empty text. *)
Theorem decodeTlv_identity_template (now : Z) (g : KHQRGenerator) (r : GenerateResult) :
  timeValue now -> asciiConfig g -> generate now g = Ok r ->
  exists m t sub,
    decodeTlv (qr r) = Some m
    /\ m !! identityTag g = Some t
    /\ decodeTlv t = Some sub
    /\ sub !! js "00" = Some (truncUtf8 (str (bakongAccountId g)) 32)
    /\ sub !! js "01" = truncOpt (match merchantType g with
                                  | individual => accountInformation g
                                  | merchant => merchantId g
                                  end) 32
    /\ sub !! js "02" = truncOpt (acquiringBank g) 32.
Proof.
  intros Hnow Hg H.
  destruct (generate_ok now Hnow g r H) as (Hreq & Hid & Hamt & Hadd & ->).
  pose proof (topLevelFields_valid now Hnow g Hid Hamt Hadd) as Hvalid.
  pose proof (topLevelFields_ascii now g Hnow Hg) as Hascii.
  destruct (decodeTlv_withChecksum _ Hvalid Hascii (topLevelFields_tags now g))
    as [Hdec Hlook].
  unfold asciiConfig in Hg. rewrite !Forall_cons in Hg.
  destruct Hg as (Hacc & _ & Hmid & Hbank & Hinfo & _).
  destruct (decodeTlv_encode (identityFields g) (identityFields_valid g)
              (identityFields_ascii g Hacc Hmid Hbank Hinfo) (identityFields_tags g))
    as [Hdec2 Hlook2].
  eexists _, (encode (identityFields g)), _.
  split; [exact Hdec|]. split; [|split; [exact Hdec2|]].
  { apply Hlook. unfold topLevelFields. rewrite !elem_of_app, !elem_of_cons. tauto. }
  unfold requiredFields in Hreq.
  destruct (negb (truthy (bakongAccountId g))); [discriminate|].
  destruct (negb (truthy (merchantName g))); [discriminate|].
  revert Hdec2 Hlook2 Hreq. unfold identityFields.
  destruct (merchantType g); intros Hdec2 Hlook2 Hreq.
  - split; [apply Hlook2; rewrite !elem_of_app, !elem_of_cons; tauto|].
    rewrite (optField_truncOpt_ascii (js "01") _ 32 Hinfo ltac:(lia)) in Hlook2 |- *.
    rewrite (optField_truncOpt_ascii (js "02") _ 32 Hbank ltac:(lia)) in Hlook2 |- *.
    split.
    + destruct (truncOpt (accountInformation g) 32) as [v|].
      * apply Hlook2. rewrite !elem_of_app, !elem_of_cons. tauto.
      * destruct (collect _ ∅ !! js "01") as [v|] eqn:E; [|reflexivity].
        apply Hlook2 in E. exfalso.
        rewrite !elem_of_app, list_elem_of_singleton, elem_of_nil in E.
        destruct E as [E|[[]|E]]; [discriminate E|].
        destruct (truncOpt (acquiringBank g) 32);
          [apply list_elem_of_singleton in E; discriminate E
          |apply elem_of_nil in E; exact E].
    + destruct (truncOpt (acquiringBank g) 32) as [v|].
      * apply Hlook2. rewrite !elem_of_app, !elem_of_cons. tauto.
      * destruct (collect _ ∅ !! js "02") as [v|] eqn:E; [|reflexivity].
        apply Hlook2 in E. exfalso.
        rewrite !elem_of_app, list_elem_of_singleton, !elem_of_nil in E.
        destruct E as [E|[E|[]]]; [discriminate E|].
        destruct (truncOpt (accountInformation g) 32);
          [apply list_elem_of_singleton in E; discriminate E
          |apply elem_of_nil in E; exact E].
  - destruct (truthy (merchantId g)) eqn:Hm; [|discriminate].
    destruct (truthy (acquiringBank g)) eqn:Hb; [|discriminate].
    unfold truncOpt in *. rewrite Hm, Hb in *. cbn [str default] in *.
    split; [|split]; apply Hlook2; rewrite !elem_of_cons; tauto.
Qed.

Lemma decodeTlv_identity_template_witness :
  exists r m t sub,
    generate 1700000000000
      (setMerchantName (js "Dev Store")
         (setAcquiringBank (js "Dev Bank")
            (setMerchantId (js "YOUR_MERCHANT_ID")
               (setBakongAccountId (js "dev_merchant@devb") (new merchant))))) = Ok r
    /\ decodeTlv (qr r) = Some m
    /\ m !! js "30" = Some t
    /\ decodeTlv t = Some sub
    /\ sub !! js "00" = Some (js "dev_merchant@devb")
    /\ sub !! js "01" = Some (js "YOUR_MERCHANT_ID")
    /\ sub !! js "02" = Some (js "Dev Bank").
Proof.
  pose (g := setMerchantName (js "Dev Store")
               (setAcquiringBank (js "Dev Bank")
                  (setMerchantId (js "YOUR_MERCHANT_ID")
                     (setBakongAccountId (js "dev_merchant@devb") (new merchant))))).
  assert (Hnow : timeValue 1700000000000) by (unfold timeValue; lia).
  assert (Hascii : asciiConfig g) by (vm_compute; repeat constructor).
  assert (Hgen : generate 1700000000000 g
                 = Ok (resultOf 1700000000000 g (encode (topLevelFields 1700000000000 g))))
    by (vm_compute; reflexivity).
  destruct (decodeTlv_identity_template 1700000000000 g _ Hnow Hascii Hgen)
    as (m & t & sub & Hdec & Ht & Hsub & H00 & H01 & H02).
  exists (resultOf 1700000000000 g (encode (topLevelFields 1700000000000 g))), m, t, sub.
  split; [exact Hgen|]. split; [exact Hdec|]. split; [exact Ht|]. split; [exact Hsub|].
  split; [exact H00|]. split; [exact H01|exact H02].
Defined.

(** ** The size of a payload *)

Lemma encodedBytes_app fs gs : encodedBytes (fs ++ gs) = encodedBytes fs + encodedBytes gs.
Proof.
  unfold encodedBytes. induction fs as [|f fs IH]; cbn [app fold_right]; [lia|].
  rewrite IH. lia.
Qed.

Lemma encodedBytes_one t v : encodedBytes [(t, v)] = 4 + utf8ByteLength v.
Proof. unfold encodedBytes. cbn [fold_right snd]. lia. Qed.

Lemma encodedBytes_optField tag x n :
  0 <= n -> 0 <= encodedBytes (optField tag (truncOpt x n)) <= 4 + n.
Proof.
  intros Hn. unfold optField. pose proof (str_truncOpt_bound x n Hn).
  pose proof (utf8ByteLength_nonneg (str (truncOpt x n))).
  destruct (truthy (truncOpt x n)); [rewrite encodedBytes_one; lia|].
  unfold encodedBytes. cbn [fold_right]. lia.
Qed.

Lemma encodedBytes_template tag fs n :
  utf8ByteLength (encode fs) <= n -> 0 <= n -> 0 <= encodedBytes (template tag fs) <= 4 + n.
Proof.
  intros H Hn. unfold template. pose proof (utf8ByteLength_nonneg (encode fs)).
  destruct (encode fs); [unfold encodedBytes; cbn [fold_right]; lia|].
  rewrite encodedBytes_one. lia.
Qed.

Lemma intToString_time_length now :
  timeValue now -> (length (intToString 10 now) <= 17)%nat.
Proof.
  unfold timeValue. intros Hnow.
  assert (Hd : forall fuel n, 0 <= n <= 8640000000000000 ->
                              (length (digitsRadix fuel 10 n) <= 16)%nat).
  { intros fuel n Hn. apply digitsRadix_length_pow; [lia|].
    change (10 ^ Z.of_nat 16) with 10000000000000000. lia. }
  unfold intToString. destruct (Z.ltb_spec now 0).
  - cbn [length]. pose proof (Hd (S (Z.to_nat (Z.log2 (- now)))) (- now) ltac:(lia)). lia.
  - pose proof (Hd (S (Z.to_nat (Z.log2 now))) now ltac:(lia)). lia.
Qed.

(** X15.  An assembled payload takes at most 491 bytes in static mode and
    at most 516 in dynamic mode, checksum field included. *)
Theorem payload_size (now : Z) (g : KHQRGenerator) (r : GenerateResult) :
  timeValue now -> generate now g = Ok r ->
  utf8ByteLength (qr r) <= (if isStatic g then 491 else 516).
Proof.
  intros Hnow H.
  destruct (generate_ok now Hnow g r H) as (_ & Hid & Hamt & Hadd & ->).
  pose proof (topLevelFields_valid now Hnow g Hid Hamt Hadd) as Hvalid.
  cbn [qr resultOf]. unfold withChecksum. rewrite <- app_assoc.
  destruct (checksumField_valid (topLevelFields now g)) as [_ Hcrc].
  cbn [checksumField snd] in Hcrc.
  set (crc := crc16CcittFalseHex (encode (topLevelFields now g) ++ js "6304")) in *.
  assert (Htail : asciiText (js "6304" ++ crc)).
  { apply Forall_app. split; [vm_compute; repeat constructor | exact Hcrc]. }
  rewrite utf8ByteLength_app by reflexivity.
  rewrite (utf8ByteLength_ascii _ Htail), length_app.
  assert (Hl : length crc = 4%nat) by apply crc16CcittFalseHex_length.
  rewrite Hl.
  change (Z.of_nat (length (js "6304") + 4)) with 8.
  rewrite utf8ByteLength_encode;
    [|apply valid_wellTagged; exact Hvalid
     |apply (Forall_impl _ _ _ Hvalid); intros f Hf; apply Hf].
  change (fold_right (fun f n => 4 + utf8ByteLength f.2 + n) 0 (topLevelFields now g))
    with (encodedBytes (topLevelFields now g)).
  unfold topLevelFields. rewrite !encodedBytes_app.
  pose proof (encodedBytes_optField (js "15") (upiAccountInformation g) 31 ltac:(lia)) as Hupi.
  pose proof (encodedBytes_template (js "62") (additionalFields g) 99 Hadd ltac:(lia)) as H62.
  pose proof (encodedBytes_template (js "64") (alternateFields g) 54
                (alternateFields_bytes g) ltac:(lia)) as H64.
  pose proof (truncUtf8_bound (str (merchantName g)) 25 ltac:(lia)) as Hname.
  pose proof (truncUtf8_bound (match merchantCity g with [] => js "Phnom Penh" | c => c end) 15
                ltac:(lia)) as Hcity.
  assert (Hbody1 : encodedBytes [(js "00", js "01");
                                 (js "01", if isStatic g then js "11" else js "12")] = 12)
    by (destruct (isStatic g); reflexivity).
  assert (Hbody2 : encodedBytes [(js "52", js "5999");
                                 (js "53", match currency g with
                                           | KHR => js "116" | USD => js "840" end)] = 15)
    by (destruct (currency g); reflexivity).
  assert (Hbody3 : encodedBytes
                     [(js "58", js "KH");
                      (js "59", truncUtf8 (str (merchantName g)) 25);
                      (js "60", truncUtf8 (match merchantCity g with
                                           | [] => js "Phnom Penh" | c => c end) 15)] <= 54).
  { unfold encodedBytes. cbn [fold_right snd].
    change (utf8ByteLength (js "KH")) with 2. lia. }
  assert (Hamount : encodedBytes (amountFields g) <= 103).
  { unfold amountFields, amountFits in *. destruct (amount g).
    - rewrite encodedBytes_one. lia.
    - unfold encodedBytes. cbn [fold_right]. lia. }
  assert (Hts : encodedBytes (timestampFields now g) <= (if isStatic g then 0 else 25)).
  { unfold timestampFields. destruct (isStatic g).
    - unfold encodedBytes. cbn [fold_right]. lia.
    - rewrite encodedBytes_one, encode_one.
      pose proof (intToString_time_length now Hnow) as Hlen.
      pose proof (timestamp_bytes now Hnow) as Hb.
      rewrite utf8ByteLength_field by (reflexivity || lia).
      assert (Ha : asciiText (intToString 10 now))
        by (apply decimalText_ascii, intToString_decimalText).
      rewrite (utf8ByteLength_ascii _ Ha). lia. }
  rewrite encodedBytes_one, Hbody1, Hbody2.
  destruct (isStatic g); lia.
Qed.

Lemma payload_size_witness :
  exists r,
    generate 1700000000000
      (setMerchantName (js "John Smith")
         (setBakongAccountId (js "john_smith@devb") (new individual))) = Ok r
    /\ utf8ByteLength (qr r) <= 516.
Proof.
  pose (g := setMerchantName (js "John Smith")
               (setBakongAccountId (js "john_smith@devb") (new individual))).
  assert (Hnow : timeValue 1700000000000) by (unfold timeValue; lia).
  assert (Hgen : generate 1700000000000 g
                 = Ok (resultOf 1700000000000 g (encode (topLevelFields 1700000000000 g))))
    by (vm_compute; reflexivity).
  exists (resultOf 1700000000000 g (encode (topLevelFields 1700000000000 g))).
  split; [exact Hgen|].
  exact (payload_size 1700000000000 g _ Hnow Hgen).
Defined.

(** ** Amounts given as text *)

Lemma spanDigits_spec s :
  s = (Num.spanDigits s).1 ++ (Num.spanDigits s).2
  /\ Forall (fun u => isDigit u = true) (Num.spanDigits s).1
  /\ match (Num.spanDigits s).2 with [] => True | u :: _ => isDigit u = false end.
Proof.
  induction s as [|u s (IH1 & IH2 & IH3)]; [repeat split; constructor|].
  cbn [Num.spanDigits]. destruct (isDigit u) eqn:Hu.
  - destruct (Num.spanDigits s) as [ds r]. cbn [fst snd] in *.
    split; [cbn [app]; f_equal; exact IH1|].
    split; [constructor; assumption | exact IH3].
  - cbn [fst snd]. split; [reflexivity|]. split; [constructor | exact Hu].
Qed.

Lemma spanDigits_app ds r :
  Forall (fun u => isDigit u = true) ds ->
  match r with [] => True | u :: _ => isDigit u = false end ->
  Num.spanDigits (ds ++ r) = (ds, r).
Proof.
  intros Hd Hr. induction Hd as [|u ds Hu _ IH]; cbn [app Num.spanDigits].
  - destruct r as [|u r]; [reflexivity|]. cbn [Num.spanDigits]. rewrite Hr. reflexivity.
  - rewrite Hu, IH. reflexivity.
Qed.

Lemma forallb_isDigit f :
  forallb isDigit f = true <-> Forall (fun u => isDigit u = true) f.
Proof.
  induction f as [|u f IH]; cbn [forallb].
  - split; [constructor | reflexivity].
  - rewrite andb_true_iff, IH, Forall_cons. reflexivity.
Qed.

Lemma isNumericText_inv t :
  isNumericText t = true ->
  exists ip, ip <> [] /\ Forall (fun u => isDigit u = true) ip
    /\ (t = ip
        \/ exists fp, fp <> [] /\ Forall (fun u => isDigit u = true) fp
                      /\ t = ip ++ 46 :: fp).
Proof.
  unfold isNumericText. destruct (spanDigits_spec t) as (E & Hd & _).
  destruct (Num.spanDigits t) as [ip r]. cbn [fst snd] in *.
  destruct ip as [|d ip]; [discriminate|]. intros H.
  exists (d :: ip). split; [discriminate|]. split; [exact Hd|].
  destruct r as [|c f].
  - left. rewrite E, app_nil_r. reflexivity.
  - right. apply andb_true_iff in H as [Hc Hf]. apply Z.eqb_eq in Hc. subst c.
    destruct f as [|x f]; [discriminate|].
    exists (x :: f). split; [discriminate|]. split; [|exact E].
    apply forallb_isDigit. exact Hf.
Qed.

Lemma isNumericText_digits ip :
  ip <> [] -> Forall (fun u => isDigit u = true) ip -> isNumericText ip = true.
Proof.
  intros Hne Hd. unfold isNumericText.
  pose proof (spanDigits_app ip [] Hd I) as E. rewrite app_nil_r in E. rewrite E.
  destruct ip; [contradiction | reflexivity].
Qed.

Lemma isNumericText_decimal ip fp :
  ip <> [] -> Forall (fun u => isDigit u = true) ip ->
  fp <> [] -> Forall (fun u => isDigit u = true) fp ->
  isNumericText (ip ++ 46 :: fp) = true.
Proof.
  intros Hne Hd Hfne Hf. unfold isNumericText.
  rewrite (spanDigits_app ip (46 :: fp) Hd eq_refl).
  destruct ip; [contradiction|]. destruct fp as [|x fp]; [contradiction|].
  apply forallb_isDigit in Hf. rewrite Hf. reflexivity.
Qed.

Lemma includes_dot_digits ip :
  Forall (fun u => isDigit u = true) ip -> includes ip (js ".") = false.
Proof.
  change (js ".") with [46].
  induction 1 as [|u ip Hu _ IH]; [reflexivity|].
  cbn [includes startsWith]. rewrite IH.
  unfold isDigit in Hu. apply andb_true_iff in Hu as [Hu _]. apply Z.leb_le in Hu.
  destruct (Z.eqb_spec u 46); [lia | reflexivity].
Qed.

Lemma includes_dot_app ip fp : includes (ip ++ 46 :: fp) (js ".") = true.
Proof.
  change (js ".") with [46].
  induction ip as [|u ip IH]; cbn [app includes].
  - destruct fp; reflexivity.
  - rewrite IH. apply orb_true_r.
Qed.

Lemma dropZeros_app_stop x c y :
  c <> 48 -> dropZeros (x ++ c :: y) = dropZeros x ++ c :: y.
Proof.
  intros Hc. induction x as [|u x IH]; cbn [app dropZeros].
  - destruct (Z.eqb_spec c 48); [contradiction | reflexivity].
  - destruct (u =? 48); [exact IH | reflexivity].
Qed.

Lemma stripTrailingZeros_spec fp :
  exists k : nat,
    fp = stripTrailingZeros fp ++ replicate k 48
    /\ stripTrailingZeros (stripTrailingZeros fp) = stripTrailingZeros fp
    /\ (forall u r, rev (stripTrailingZeros fp) = u :: r -> u <> 48).
Proof.
  destruct (dropZeros_spec (rev fp)) as (k & Hk & Hhd). exists k.
  unfold stripTrailingZeros. rewrite !rev_involutive. split; [|split].
  - rewrite <- (rev_involutive fp) at 1. rewrite Hk at 1.
    rewrite rev_app_distr, rev_replicate. reflexivity.
  - f_equal. destruct (dropZeros (rev fp)) as [|u r] eqn:E; [reflexivity|].
    cbn [dropZeros]. destruct (Z.eqb_spec u 48) as [Hu|_]; [|reflexivity].
    exfalso. exact (Hhd u r eq_refl Hu).
  - exact Hhd.
Qed.

Lemma rev_digit_head x :
  x <> [] -> Forall (fun u => isDigit u = true) x ->
  exists v r, rev x = v :: r /\ isDigit v = true.
Proof.
  intros Hne Hd. apply List.Forall_rev in Hd.
  destruct (rev x) as [|v r] eqn:E.
  - exfalso. apply Hne. rewrite <- (rev_involutive x), E. reflexivity.
  - exists v, r. split; [reflexivity|]. inversion Hd; assumption.
Qed.

(** The text of a decimal amount in riel: trailing zeros of the fraction
    go, and the point with them when nothing else is left. *)
Lemma normalizeAmountString_KHR_decimal ip fp :
  ip <> [] -> Forall (fun u => isDigit u = true) fp ->
  normalizeAmountString (ip ++ 46 :: fp) KHR
  = match stripTrailingZeros fp with
    | [] => ip
    | x :: fp' => ip ++ 46 :: x :: fp'
    end.
Proof.
  intros Hne Hf. unfold normalizeAmountString. rewrite includes_dot_app. cbn [negb].
  assert (Hz : stripTrailingZeros (ip ++ 46 :: fp) = ip ++ 46 :: stripTrailingZeros fp).
  { unfold stripTrailingZeros. rewrite rev_app_distr. cbn [rev]. rewrite <- app_assoc.
    cbn [app]. rewrite dropZeros_app_stop by discriminate.
    rewrite rev_app_distr. cbn [rev]. rewrite rev_involutive, <- app_assoc. reflexivity. }
  rewrite Hz.
  destruct (stripTrailingZeros_spec fp) as (k & Hk & _ & Hlast).
  destruct (stripTrailingZeros fp) as [|x fp'].
  - unfold stripTrailingDot. rewrite rev_app_distr. cbn [rev app].
    change (46 =? 46) with true. cbv iota. rewrite rev_involutive.
    destruct ip; [contradiction | reflexivity].
  - assert (Hd : Forall (fun u => isDigit u = true) (x :: fp')).
    { rewrite Hk in Hf. apply Forall_app in Hf. apply Hf. }
    destruct (rev_digit_head (x :: fp') ltac:(discriminate) Hd) as (v & r & Hr & Hv).
    unfold stripTrailingDot. rewrite rev_app_distr.
    change (rev (46 :: x :: fp')) with (rev (x :: fp') ++ [46]).
    rewrite Hr. cbn [app].
    unfold isDigit in Hv. apply andb_true_iff in Hv as [Hv _]. apply Z.leb_le in Hv.
    destruct (Z.eqb_spec v 46); [lia|].
    destruct ip; [contradiction | reflexivity].
Qed.

Lemma isDigit_not_whitespace u : isDigit u = true -> isWhiteSpace u = false.
Proof.
  unfold isDigit. rewrite andb_true_iff, !Z.leb_le. intros [H1 H2].
  assert (H : u = 48 \/ u = 49 \/ u = 50 \/ u = 51 \/ u = 52 \/ u = 53 \/ u = 54
              \/ u = 55 \/ u = 56 \/ u = 57) by lia.
  repeat destruct H as [->|H]; try subst u; vm_compute; reflexivity.
Qed.

Lemma trim_digit_ends s u s' v r :
  s = u :: s' -> isDigit u = true -> rev s = v :: r -> isDigit v = true -> trim s = s.
Proof.
  intros -> Hu Hr Hv. unfold trim. cbn [trimStart].
  rewrite (isDigit_not_whitespace u Hu). rewrite Hr. cbn [trimStart].
  rewrite (isDigit_not_whitespace v Hv). rewrite <- Hr. apply rev_involutive.
Qed.

Lemma normalizeAmount_digits ip :
  ip <> [] -> Forall (fun u => isDigit u = true) ip ->
  normalizeAmount (AmountText ip) KHR = Ok ip.
Proof.
  intros Hne Hd.
  destruct (rev_digit_head ip Hne Hd) as (v & r & Hr & Hv).
  destruct ip as [|u ip']; [contradiction|].
  assert (Hu : isDigit u = true) by (inversion Hd; assumption).
  unfold normalizeAmount. rewrite (trim_digit_ends _ u ip' v r eq_refl Hu Hr Hv).
  rewrite (isNumericText_digits _ Hne Hd). cbn [negb].
  unfold normalizeAmountString. rewrite (includes_dot_digits _ Hd). reflexivity.
Qed.

(** X16.  An amount given as text in riel.  When [normalizeAmount] accepts
    it, the result is the trimmed text without the trailing zeros of its
    fraction (and without the point if the fraction is gone): a result with
    a point ends in a digit other than zero, what was cut off is zeros,
    after a point when the whole fraction went, and nothing is cut from a
    text without a point.  The result passes the same check again and is
    left unchanged by a second normalisation.  The replacement by "0" is
    never used on this path. *)
Theorem normalizeAmount_KHR_text (s a : jsstring) :
  normalizeAmount (AmountText s) KHR = Ok a ->
  isNumericText a = true
  /\ normalizeAmount (AmountText a) KHR = Ok a
  /\ (includes a (js ".") = false
      \/ exists b u, a = b ++ [u] /\ isDigit u = true /\ u <> 48)
  /\ exists k : nat,
       (trim s = a ++ replicate k 48 /\ (k = 0%nat \/ includes a (js ".") = true))
       \/ (trim s = a ++ 46 :: replicate k 48 /\ (1 <= k)%nat
           /\ includes a (js ".") = false).
Proof.
  unfold normalizeAmount at 1.
  destruct (isNumericText (trim s)) eqn:Hn; cbn [negb]; [|discriminate].
  intros H.
  assert (Ea : a = normalizeAmountString (trim s) KHR) by congruence.
  subst a. clear H.
  destruct (isNumericText_inv _ Hn) as (ip & Hne & Hip & [Et | (fp & Hfne & Hfp & Et)]);
    rewrite Et.
  - assert (E : normalizeAmountString ip KHR = ip).
    { unfold normalizeAmountString. rewrite (includes_dot_digits _ Hip). reflexivity. }
    rewrite E. split; [apply isNumericText_digits; assumption|].
    split; [apply normalizeAmount_digits; assumption|].
    split; [left; apply includes_dot_digits; exact Hip|].
    exists 0%nat. left. split; [symmetry; apply app_nil_r | left; reflexivity].
  - rewrite (normalizeAmountString_KHR_decimal ip fp Hne Hfp).
    destruct (stripTrailingZeros_spec fp) as (k & Hk & Hidem & Hlast).
    destruct (stripTrailingZeros fp) as [|x fp'].
    + split; [apply isNumericText_digits; assumption|].
      split; [apply normalizeAmount_digits; assumption|].
      split; [left; apply includes_dot_digits; exact Hip|].
      exists k. right. split; [rewrite Hk at 1; reflexivity|].
      split; [|apply includes_dot_digits; exact Hip].
      destruct k; [|lia]. exfalso. apply Hfne. rewrite Hk. reflexivity.
    + assert (Hd : Forall (fun u => isDigit u = true) (x :: fp')).
      { rewrite Hk in Hfp. apply Forall_app in Hfp. apply Hfp. }
      destruct (rev_digit_head (x :: fp') ltac:(discriminate) Hd) as (v & r & Hr & Hv).
      split; [apply isNumericText_decimal; (assumption || discriminate)|].
      split; [|split].
      * destruct ip as [|u ip']; [contradiction|].
        assert (Hu : isDigit u = true) by (inversion Hip; assumption).
        unfold normalizeAmount.
        rewrite (trim_digit_ends ((u :: ip') ++ 46 :: x :: fp') u (ip' ++ 46 :: x :: fp')
                   v (r ++ 46 :: rev (u :: ip')) eq_refl Hu);
          [| |exact Hv].
        2:{ rewrite rev_app_distr.
            change (rev (46 :: x :: fp')) with (rev (x :: fp') ++ [46]).
            rewrite Hr, <- app_assoc. reflexivity. }
        rewrite (isNumericText_decimal (u :: ip') (x :: fp') Hne Hip ltac:(discriminate) Hd).
        cbn [negb].
        rewrite (normalizeAmountString_KHR_decimal (u :: ip') (x :: fp') Hne Hd).
        rewrite Hidem. reflexivity.
      * right. exists (ip ++ 46 :: rev r), v.
        split; [|split; [exact Hv | exact (Hlast v r Hr)]].
        rewrite <- (rev_involutive (x :: fp')), Hr. cbn [rev].
        rewrite <- app_assoc. reflexivity.
      * exists k. left. split; [|right; apply includes_dot_app].
        rewrite Hk at 1. rewrite <- app_assoc. reflexivity.
Qed.

Lemma normalizeAmount_KHR_text_witness :
  isNumericText (js "12.5") = true
  /\ normalizeAmount (AmountText (js "12.5")) KHR = Ok (js "12.5")
  /\ (includes (js "12.5") (js ".") = false
      \/ exists b u, js "12.5" = b ++ [u] /\ isDigit u = true /\ u <> 48)
  /\ exists k : nat,
       (trim (js " 12.500 ") = js "12.5" ++ replicate k 48
        /\ (k = 0%nat \/ includes (js "12.5") (js ".") = true))
       \/ (trim (js " 12.500 ") = js "12.5" ++ 46 :: replicate k 48 /\ (1 <= k)%nat
           /\ includes (js "12.5") (js ".") = false).
Proof.
  apply (normalizeAmount_KHR_text (js " 12.500 ") (js "12.5")).
  vm_compute. reflexivity.
Defined.

(** ** Values are never empty *)

Lemma codePoints_first u (tl : jsstring) :
  exists ch chs,
    codePoints (u :: tl) = ch :: chs /\ ch <> [] /\ utf8ByteLength ch <= 4.
Proof.
  assert (Hone : utf8ByteLength [u] <= 4).
  { unfold utf8ByteLength. cbn [utf8Encode].
    pose proof (utf8OfCodePoint_length u) as (Hl & _).
    destruct (isHighSurrogate u); [simpl; lia|].
    destruct (isLowSurrogate u); [simpl; lia|].
    rewrite app_nil_r. lia. }
  destruct tl as [|l rest].
  - exists [u], []. split; [reflexivity|]. split; [discriminate | exact Hone].
  - rewrite codePoints_cons2.
    destruct (isHighSurrogate u) eqn:Hh, (isLowSurrogate l) eqn:Hlo; cbn [andb].
    + exists [u; l], (codePoints rest). split; [reflexivity|]. split; [discriminate|].
      unfold utf8ByteLength. cbn [utf8Encode]. rewrite Hh, Hlo, app_nil_r.
      pose proof (utf8OfCodePoint_length
                    (0x10000 + (u - 0xD800) * 0x400 + (l - 0xDC00))) as (Hl & _). lia.
    + exists [u], (codePoints (l :: rest)).
      split; [reflexivity|]. split; [discriminate | exact Hone].
    + exists [u], (codePoints (l :: rest)).
      split; [reflexivity|]. split; [discriminate | exact Hone].
    + exists [u], (codePoints (l :: rest)).
      split; [reflexivity|]. split; [discriminate | exact Hone].
Qed.

Lemma truncUtf8_loop_extends chs maxBytes out :
  exists more, truncUtf8_loop chs maxBytes out = out ++ more.
Proof.
  destruct (truncUtf8_loop_stop chs maxBytes out) as [E|(pre & _ & _ & _ & E & _)];
    rewrite E; eexists; reflexivity.
Qed.

(** X17.  With a budget of at least four bytes the truncation keeps the
    first character whole, so a non-empty text stays non-empty. *)
Theorem truncUtf8_keeps_first (s : jsstring) (n : Z) :
  s <> [] -> 4 <= n ->
  exists ch chs more,
    codePoints s = ch :: chs /\ ch <> [] /\ truncUtf8 s n = ch ++ more.
Proof.
  intros Hs Hn. destruct s as [|u tl]; [contradiction|].
  destruct (codePoints_first u tl) as (ch & chs & Hcp & Hch & Hb).
  exists ch, chs. unfold truncUtf8.
  destruct (utf8ByteLength (u :: tl) <=? n).
  - exists (concat chs). split; [exact Hcp|]. split; [exact Hch|].
    rewrite <- (codePoints_concat (u :: tl)), Hcp. reflexivity.
  - rewrite Hcp. cbn [truncUtf8_loop app].
    destruct (Z.ltb_spec n (utf8ByteLength ch)); [lia|].
    destruct (truncUtf8_loop_extends chs n ch) as [more E].
    exists more. split; [reflexivity|]. split; [exact Hch | exact E].
Qed.

Lemma truncUtf8_keeps_first_witness :
  exists ch chs more,
    codePoints [0xD83D; 0xDE00; 97; 98] = ch :: chs /\ ch <> []
    /\ truncUtf8 [0xD83D; 0xDE00; 97; 98] 4 = ch ++ more.
Proof.
  apply (truncUtf8_keeps_first [0xD83D; 0xDE00; 97; 98] 4).
  - discriminate.
  - lia.
Defined.

Lemma truncUtf8_nonempty (s : jsstring) (n : Z) :
  s <> [] -> 4 <= n -> truncUtf8 s n <> [].
Proof.
  intros Hs Hn. destruct s as [|u tl]; [contradiction|].
  destruct (codePoints_first u tl) as (ch & chs & Hcp & Hch & Hb).
  unfold truncUtf8. destruct (utf8ByteLength (u :: tl) <=? n); [discriminate|].
  rewrite Hcp. cbn [truncUtf8_loop app].
  destruct (Z.ltb_spec n (utf8ByteLength ch)); [lia|].
  destruct (truncUtf8_loop_extends chs n ch) as [more E]. rewrite E.
  destruct ch; [contradiction | discriminate].
Qed.

Lemma truthy_str x : truthy x = true -> str x <> [].
Proof. destruct x as [[|u s]|]; (discriminate || (intros _; discriminate)). Qed.

Lemma optField_nonempty tag x : Forall (fun f => f.2 <> []) (optField tag x).
Proof.
  unfold optField. destruct (truthy x) eqn:E; constructor; [|constructor].
  apply truthy_str. exact E.
Qed.

Lemma template_nonempty tag fs : Forall (fun f => f.2 <> []) (template tag fs).
Proof.
  unfold template. destruct (encode fs); constructor; [discriminate | constructor].
Qed.

Lemma field_nonempty tag value : test_d2 tag = true -> field tag value <> [].
Proof.
  destruct tag as [|a [|b [|c tag]]]; simpl; discriminate.
Qed.

(** X18.  A payload never carries an empty value, at the top level or
    inside the three templates, unless the amount itself is the empty
    text: required texts stay non-empty under truncation and an optional
    text that is empty, or becomes empty once truncated, is left out. *)
Theorem values_never_empty (now : Z) (g : KHQRGenerator) (r : GenerateResult) :
  timeValue now -> generate now g = Ok r -> amount g <> Some [] ->
  qr r = withChecksum (encode (topLevelFields now g))
  /\ Forall (fun f => f.2 <> [])
       (topLevelFields now g ++ identityFields g ++ additionalFields g
        ++ alternateFields g).
Proof.
  intros Hnow H Hamount.
  destruct (generate_ok now Hnow g r H) as (Hreq & _ & _ & _ & ->).
  split; [reflexivity|].
  unfold requiredFields in Hreq.
  destruct (truthy (bakongAccountId g)) eqn:Hacc; [|discriminate].
  destruct (truthy (merchantName g)) eqn:Hname; [|discriminate].
  cbn [negb] in Hreq.
  assert (Hidf : Forall (fun f => f.2 <> []) (identityFields g)).
  { revert Hreq. unfold identityFields. destruct (merchantType g); intros Hreq.
    - split_fields; [|apply optField_nonempty..].
      constructor; [|constructor]. apply truncUtf8_nonempty; [apply truthy_str; exact Hacc | lia].
    - destruct (truthy (merchantId g)) eqn:Hm; [|discriminate].
      destruct (truthy (acquiringBank g)) eqn:Hb; [|discriminate].
      unfold truncOpt. rewrite Hm, Hb. cbn [str default].
      constructor; [apply truncUtf8_nonempty; [apply truthy_str; exact Hacc | lia]|].
      constructor; [apply truncUtf8_nonempty; [apply truthy_str; exact Hm | lia]|].
      constructor; [apply truncUtf8_nonempty; [apply truthy_str; exact Hb | lia]|].
      constructor. }
  assert (Htop : Forall (fun f => f.2 <> []) (topLevelFields now g)).
  { unfold topLevelFields. split_fields.
    - constructor; [discriminate|]. constructor; [|constructor].
      destruct (isStatic g); discriminate.
    - apply optField_nonempty.
    - constructor; [|constructor]. cbn [snd].
      destruct (identityFields g) as [|[t v] fs] eqn:E.
      + exfalso. revert E. unfold identityFields. destruct (merchantType g); discriminate.
      + inversion Hidf as [|? ? _ _]; subst.
        rewrite encode_cons. unfold field, twoDigits.
        destruct t as [|a t]; discriminate.
    - constructor; [discriminate|]. constructor; [|constructor].
      destruct (currency g); discriminate.
    - unfold amountFields. destruct (amount g) as [a|]; constructor; [|constructor].
      cbn [snd]. intros ->. apply Hamount. reflexivity.
    - constructor; [discriminate|].
      constructor; [apply truncUtf8_nonempty; [apply truthy_str; exact Hname | lia]|].
      constructor; [|constructor].
      apply truncUtf8_nonempty; [|lia]. destruct (merchantCity g); discriminate.
    - apply template_nonempty.
    - apply template_nonempty.
    - unfold timestampFields. destruct (isStatic g); constructor; [|constructor].
      cbn [snd]. rewrite encode_one. apply field_nonempty. reflexivity. }
  apply Forall_app. split; [exact Htop|].
  apply Forall_app. split; [exact Hidf|].
  apply Forall_app. split.
  - unfold additionalFields. split_fields; apply optField_nonempty.
  - unfold alternateFields. split_fields; apply optField_nonempty.
Qed.

Lemma values_never_empty_witness :
  exists r,
    generate 1700000000000
      (setMerchantName (js "John Smith")
         (setBakongAccountId (js "john_smith@devb") (new individual))) = Ok r
    /\ Forall (fun f => f.2 <> [])
         (topLevelFields 1700000000000
            (setMerchantName (js "John Smith")
               (setBakongAccountId (js "john_smith@devb") (new individual)))).
Proof.
  pose (g := setMerchantName (js "John Smith")
               (setBakongAccountId (js "john_smith@devb") (new individual))).
  assert (Hnow : timeValue 1700000000000) by (unfold timeValue; lia).
  assert (Hgen : generate 1700000000000 g
                 = Ok (resultOf 1700000000000 g (encode (topLevelFields 1700000000000 g))))
    by (vm_compute; reflexivity).
  destruct (values_never_empty 1700000000000 g _ Hnow Hgen ltac:(discriminate))
    as [_ Hall].
  apply Forall_app in Hall. destruct Hall as [Htop _].
  eexists. split; [exact Hgen | exact Htop].
Defined.

(** ** The builder *)

(** X19.  [setCurrency] accepts only the texts that read KHR or USD once
    upper-cased, gives the same configuration as for the upper-cased text,
    leaves the stored amount as it is, and the payload assembled afterwards
    has exactly one field with tag 53, carrying the numeric code: 116 for
    KHR, 840 for USD. *)
Theorem setCurrency_code (now : Z) (v : jsstring) (g g' : KHQRGenerator)
    (r : GenerateResult) :
  timeValue now -> setCurrency v g = Ok g' -> generate now g' = Ok r ->
  let code := if eqb (toUpperCase v) (js "KHR") then js "116" else js "840" in
  (toUpperCase v = js "KHR" \/ toUpperCase v = js "USD")
  /\ setCurrency (toUpperCase v) g = Ok g'
  /\ amount g' = amount g
  /\ qr r = withChecksum (encode (topLevelFields now g'))
  /\ (js "53", code) ∈ topLevelFields now g'
  /\ (forall c, (js "53", c) ∈ topLevelFields now g' -> c = code).
Proof.
  intros Hnow Hset H code.
  destruct (generate_ok now Hnow g' r H) as (_ & _ & _ & _ & ->).
  assert (Hcur : (toUpperCase v = js "KHR" /\ currency g' = KHR
                  \/ toUpperCase v = js "USD" /\ currency g' = USD)
                 /\ amount g' = amount g
                 /\ setCurrency (toUpperCase v) g = Ok g').
  { revert Hset. unfold setCurrency. destruct g.
    destruct (eqb (toUpperCase v) (js "KHR")) eqn:E1.
    - unfold eqb in E1. apply bool_decide_eq_true in E1. rewrite E1. intros [= <-].
      split; [left; split; reflexivity|]. split; reflexivity.
    - destruct (eqb (toUpperCase v) (js "USD")) eqn:E2; [|discriminate].
      unfold eqb in E2. apply bool_decide_eq_true in E2. rewrite E2. intros [= <-].
      split; [right; split; reflexivity|]. split; reflexivity. }
  destruct Hcur as (Hcur & Hamt & Hg').
  split; [destruct Hcur as [[? _]|[? _]]; [left | right]; assumption|].
  split; [exact Hg'|]. split; [exact Hamt|]. split; [reflexivity|].
  assert (Hcode : code = match currency g' with KHR => js "116" | USD => js "840" end).
  { unfold code. destruct Hcur as [[-> ->]|[-> ->]]; reflexivity. }
  rewrite Hcode. split.
  - unfold topLevelFields. rewrite !elem_of_app, !elem_of_cons. tauto.
  - intros c Hc.
    pose proof (topLevelFields_tags now g') as Hnd.
    apply NoDup_app in Hnd. destruct Hnd as (Hnd & _ & _).
    assert (Hin : (js "53", match currency g' with KHR => js "116" | USD => js "840" end)
                  ∈ topLevelFields now g').
    { unfold topLevelFields. rewrite !elem_of_app, !elem_of_cons. tauto. }
    apply (collect_lookup _ _ _ Hnd) in Hc, Hin. congruence.
Qed.

Lemma setCurrency_code_witness :
  exists g' r,
    setCurrency (js "usd")
      (setMerchantName (js "John Smith")
         (setBakongAccountId (js "john_smith@devb") (new individual))) = Ok g'
    /\ generate 1700000000000 g' = Ok r
    /\ (js "53", js "840") ∈ topLevelFields 1700000000000 g'.
Proof.
  pose (g := setMerchantName (js "John Smith")
               (setBakongAccountId (js "john_smith@devb") (new individual))).
  pose (g' := match setCurrency (js "usd") g with Ok x => x | Err _ => g end).
  assert (Hnow : timeValue 1700000000000) by (unfold timeValue; lia).
  assert (Hset : setCurrency (js "usd") g = Ok g') by (vm_compute; reflexivity).
  assert (Hgen : generate 1700000000000 g'
                 = Ok (resultOf 1700000000000 g' (encode (topLevelFields 1700000000000 g'))))
    by (vm_compute; reflexivity).
  destruct (setCurrency_code 1700000000000 (js "usd") g g' _ Hnow Hset Hgen)
    as (_ & _ & _ & _ & Hin & _).
  exists g', (resultOf 1700000000000 g' (encode (topLevelFields 1700000000000 g'))).
  split; [exact Hset|]. split; [exact Hgen | exact Hin].
Defined.

(** X20.  The empty text counts as missing: an account id set to the empty
    text makes [generate] fail on the account id, whatever else is
    configured, and with an account id in place a display name set to the
    empty text makes it fail on the display name; both are reported before
    any other missing field or length error. *)
Theorem empty_text_is_missing (now : Z) (u : Z) (v : jsstring) (g : KHQRGenerator) :
  generate now (setBakongAccountId [] g) = Err (MissingRequiredField BakongAccountID)
  /\ generate now (setMerchantName [] (setBakongAccountId (u :: v) g))
     = Err (MissingRequiredField MerchantName)
  /\ generate now (setBakongAccountId (u :: v) (setMerchantName [] g))
     = Err (MissingRequiredField MerchantName).
Proof. destruct g. repeat split; reflexivity. Qed.
